(** * CyA-API-Manager: the staging and deployment core of [src/App.jsx]

    A shallow embedding of the pure and state-passing parts of the React
    component [App]: role detection from a permission object, the staging
    handlers of the nine queues, the deploy handler and the session
    handlers (authenticate, debug bypass, logout).

    Conventions of the model.
    - A JavaScript string is a [string]: one [ascii] per code unit, so code
      units above 255 are outside the model.
    - A JavaScript object whose shape is fixed by the handlers that build it
      is a [Record]; an object used as an id-to-flag mapping is a
      [gmap string bool]; an object whose key order is observable (it is
      serialised by [JSON.stringify]) is the list of its own entries in
      enumeration order.
    - A handler closes over the state of the render it was created in and
      calls each setter at most once: it is a function from the system
      state to the system state.  The system state carries, besides the
      React state, the browser storage, the remote vault and the log of
      what the handler did (network calls, notifications).
    - An [async] handler awaits one request at a time; it is run to its
      end, reading the state it closed over, with no other event in
      between.  What the vault answers is a parameter, and so is whether
      the browser accepts a write to its storage. *)

From Stdlib Require Import ZArith Ascii String List Bool Lia DecimalString.
From stdpp Require Import gmap strings list.

Local Open Scope Z_scope.

(* ====================================================================== *)
(** ** JavaScript strings and JSON values *)
(* ====================================================================== *)

(** The double quote character, and strings wrapped in quotes as the
    template literals of the notifications write them. *)
Definition dquote : ascii := "034"%char.
Definition backslash : ascii := "092"%char.
Definition quoted (s : string) : string :=
  String dquote (s +:+ String dquote EmptyString).

(** [String.prototype.trim]: white space and line terminators that fit in
    one code unit below 256 (TAB, LF, VT, FF, CR, SP, NBSP). *)
Definition is_js_space (c : ascii) : bool :=
  let n := nat_of_ascii c in
  (Nat.leb 9 n && Nat.leb n 13) || Nat.eqb n 32 || Nat.eqb n 160.

Fixpoint trim_start (s : string) : string :=
  match s with
  | String c r => if is_js_space c then trim_start r else s
  | EmptyString => EmptyString
  end.

Fixpoint trim_end (s : string) : string :=
  match s with
  | String c r =>
      match trim_end r with
      | EmptyString => if is_js_space c then EmptyString else String c EmptyString
      | r' => String c r'
      end
  | EmptyString => EmptyString
  end.

Definition js_trim (s : string) : string := trim_end (trim_start s).

(** Truthiness of a string: every string but the empty one. *)
Definition str_truthy (s : string) : bool :=
  match s with EmptyString => false | _ => true end.

(** The values a parsed response body can be.  This program does no
    arithmetic on a number of a response: it tests whether the number is
    truthy and it prints it.  A number is therefore given by the text
    that [String] prints for it (10, 0.5, 1e+21); the numbers 0 and -0
    both print as 0.  An object is the list of its own entries. *)
#[warnings="-register-all"]
Inductive json : Type :=
  | JNull
  | JBool (b : bool)
  | JNum (text : string)
  | JStr (s : string)
  | JArr (items : list json)
  | JObj (fields : list (string * json)).

(** [ToBoolean]: the falsy numbers are 0, -0 and NaN. *)
Definition js_truthy (v : json) : bool :=
  match v with
  | JNull => false
  | JBool b => b
  | JNum text => negb (String.eqb text "0") && negb (String.eqb text "NaN")
  | JStr s => str_truthy s
  | JArr _ | JObj _ => true
  end.

(** The digits of an integer that the program itself computes (a count of
    items, the status of a response). *)
Definition string_of_Z (z : Z) : string := NilZero.string_of_int (Z.to_int z).

Fixpoint assoc_get {A} (k : string) (l : list (string * A)) : option A :=
  match l with
  | [] => None
  | (k', v) :: r => if String.eqb k k' then Some v else assoc_get k r
  end.

(** [String(v)], as [new Error(v)], a template literal and
    [localStorage.setItem] apply it; [None] when the conversion throws a
    TypeError.  An array is joined with commas, [null] elements printing
    as nothing.  An object of a parsed body prints through
    [Object.prototype.toString], unless it has an own property [toString]:
    that property is not a function, the inherited [valueOf] returns the
    object itself, and the conversion throws. *)
Fixpoint js_String (v : json) : option string :=
  match v with
  | JNull => Some "null"
  | JBool true => Some "true"
  | JBool false => Some "false"
  | JNum text => Some text
  | JStr s => Some s
  | JArr items =>
      option_map (String.concat ",")
        ((fix join (l : list json) : option (list string) :=
            match l with
            | [] => Some []
            | x :: r =>
                match match x with JNull => Some EmptyString | _ => js_String x end,
                      join r with
                | Some a, Some b => Some (a :: b)
                | _, _ => None
                end
            end) items)
  | JObj fields =>
      match assoc_get "toString" fields with
      | Some _ => None
      | None => Some "[object Object]"
      end
  end.

(** The message of the TypeError of a failed conversion (the text is the
    one V8 gives), and the message of the error that [throw new Error(v)]
    ends with: that of the Error, or that of the TypeError when [v] cannot
    be converted. *)
Definition cannot_convert : string := "Cannot convert object to primitive value".

Definition Error_message (v : json) : string :=
  match js_String v with
  | Some text => text
  | None => cannot_convert
  end.

(** Reading the property [k] of [v]: [None] is [undefined]; reading a
    property of [null] throws a TypeError, which [js_get] reports as
    [inl] of its message (the text is the one V8 gives).  Primitives and
    arrays have no property of the names read in this program. *)
Definition js_get (v : json) (k : string) : string + option json :=
  match v with
  | JNull =>
      inl ("Cannot read properties of null (reading '" +:+ k +:+ "')")
  | JObj fields => inr (assoc_get k fields)
  | _ => inr None
  end.

(** [a || b] where [a] may be [undefined]. *)
Definition js_or (a : option json) (b : json) : json :=
  match a with
  | Some v => if js_truthy v then v else b
  | None => b
  end.

(* ====================================================================== *)
(** ** Permission templates and role detection *)
(* ====================================================================== *)

(** A permission object: its own entries in enumeration order. *)
Definition PermissionSet : Type := list (string * bool).

Definition PERMISSION_KEYS : list string :=
  [ "UseAccounts"; "RetrieveAccounts"; "ListAccounts"; "AddAccounts";
    "UpdateAccountContent"; "UpdateAccountProperties";
    "InitiateCPMAccountManagementOperations"; "SpecifyNextAccountContent";
    "RenameAccounts"; "DeleteAccounts"; "UnlockAccounts"; "ManageSafe";
    "ManageSafeMembers"; "BackupSafe"; "ViewAuditLog"; "ViewSafeMembers";
    "AccessWithoutConfirmation"; "CreateFolders"; "DeleteFolders";
    "MoveAccountsAndFolders"; "RequestsAuthorizationLevel1";
    "RequestsAuthorizationLevel2" ].

(** A template literal of [PERM_TEMPLATES]: its 22 values in the order the
    keys are written, which is the order of [PERMISSION_KEYS]. *)
Definition template (values : list bool) : PermissionSet :=
  zip PERMISSION_KEYS values.

Definition T : bool := true.
Definition F : bool := false.

Definition PERM_PAM : PermissionSet :=
  template [T;T;T;T;T;T;T;T;T;T;T;T;T;T;T;T;T;T;T;T;F;F].
Definition PERM_SM_HOLDER : PermissionSet :=
  template [F;F;T;T;F;T;F;F;T;T;F;F;T;F;T;T;F;T;T;T;F;F].
Definition PERM_SM_PROV : PermissionSet :=
  template [T;T;T;F;F;F;F;F;F;F;F;F;F;F;F;T;T;F;F;F;F;F].
Definition PERM_SM_APP : PermissionSet :=
  template [T;T;T;T;T;T;T;T;T;T;T;F;F;F;T;T;F;T;F;F;F;F].
Definition PERM_NONE : PermissionSet :=
  template [F;F;F;F;F;F;F;F;F;F;F;F;F;F;F;F;F;F;F;F;F;F].
Definition PERM_FULL : PermissionSet :=
  template [T;T;T;T;T;T;T;T;T;T;T;T;T;T;T;T;T;T;T;T;F;F].

(** [Object.entries(PERM_TEMPLATES)]: declaration order. *)
Definition PERM_TEMPLATES : list (string * PermissionSet) :=
  [ ("PAM", PERM_PAM); ("SM-HOLDER", PERM_SM_HOLDER); ("SM-PROV", PERM_SM_PROV);
    ("SM-APP", PERM_SM_APP); ("NONE", PERM_NONE); ("FULL", PERM_FULL) ].

(** [JSON.stringify] on a permission object.  [QuoteJSONString] escapes the
    quote, the backslash and the control characters. *)
Definition hex_digit (n : nat) : ascii :=
  ascii_of_nat (if Nat.ltb n 10 then 48 + n else 87 + n)%nat.

Definition json_escape_char (c : ascii) : string :=
  let n := nat_of_ascii c in
  if Nat.eqb n 34 then String backslash (String dquote EmptyString)
  else if Nat.eqb n 92 then String backslash (String backslash EmptyString)
  else if Nat.eqb n 8 then String backslash "b"
  else if Nat.eqb n 12 then String backslash "f"
  else if Nat.eqb n 10 then String backslash "n"
  else if Nat.eqb n 13 then String backslash "r"
  else if Nat.eqb n 9 then String backslash "t"
  else if Nat.ltb n 32 then
    String backslash
      (String "u" (String "0" (String "0"
        (String (hex_digit (n / 16)) (String (hex_digit (n mod 16)) EmptyString)))))
  else String c EmptyString.

Fixpoint json_escape (s : string) : string :=
  match s with
  | EmptyString => EmptyString
  | String c r => json_escape_char c +:+ json_escape r
  end.

Definition json_quote (s : string) : string :=
  String dquote (json_escape s +:+ String dquote EmptyString).

Definition json_member (kv : string * bool) : string :=
  json_quote kv.1 +:+ ":" +:+ (if kv.2 then "true" else "false").

Definition JSON_stringify (p : PermissionSet) : string :=
  "{" +:+ String.concat "," (map json_member p) +:+ "}".

Fixpoint detect_in (templates : list (string * PermissionSet))
    (permissions : PermissionSet) : string :=
  match templates with
  | [] => "Custom"
  | (roleName, rolePerms) :: rest =>
      if String.eqb (JSON_stringify permissions) (JSON_stringify rolePerms)
      then roleName
      else detect_in rest permissions
  end.

Definition detectRoleFromPermissions (permissions : PermissionSet) : string :=
  detect_in PERM_TEMPLATES permissions.

(** Equality by value of two permission objects, whatever the order in
    which their keys are enumerated: the same keys, each with the same
    value.  (An object has no key twice.) *)
Definition perm_subset (p q : PermissionSet) : bool :=
  forallb (fun kv =>
    match assoc_get kv.1 q with
    | Some v => Bool.eqb v kv.2
    | None => false
    end) p.

Definition deep_equal (p q : PermissionSet) : bool :=
  perm_subset p q && perm_subset q p.

Definition keys_distinct (p : PermissionSet) : bool :=
  bool_decide (NoDup (p.*1)).

(** The [onChange] of a permission check box:
    [{ ...permissions, [perm]: checked }].  A key already present keeps its
    place; a new key is enumerated last. *)
Fixpoint setPermission (permissions : PermissionSet) (perm : string)
    (checked : bool) : PermissionSet :=
  match permissions with
  | [] => [(perm, checked)]
  | (k, v) :: rest =>
      if String.eqb k perm then (k, checked) :: rest
      else (k, v) :: setPermission rest perm checked
  end.

(* ====================================================================== *)
(** ** Records of the queues and of the mirrors *)
(* ====================================================================== *)

Inductive NotificationType : Type := success | error | warning | info.

Record Notification : Type := { message : string; type : NotificationType }.

(** The two values [retentionMode] and [retentionType] take. *)
Inductive RetentionMode : Type := versions | days.

Definition is_versions (m : RetentionMode) : bool :=
  match m with versions => true | days => false end.
Definition is_days (m : RetentionMode) : bool :=
  match m with days => true | versions => false end.

(** An entry of the safe creation queue ([newSafe]). *)
Module NewSafe.
Record t : Type := {
  name : string;
  description : string;
  CPMManaging : string;
  retentionMode : RetentionMode;
  retentionValue : string }.
End NewSafe.

(** An entry of the member creation queue. *)
Module NewMember.
Record t : Type := {
  safe : string;
  member : string;
  domain : string;
  perms : PermissionSet;
  roleLabel : string }.
End NewMember.

(** An entry of the account creation queue. *)
Module NewAccount.
Record t : Type := {
  object : string;
  address : string;
  userName : string;
  secret : string;
  platformId : string;
  safeName : string;
  automaticManagement : bool;
  manualManagementReason : string;
  remoteMachines : string }.
End NewAccount.

(** A mirrored safe.  A retention field holds a number, [null], a string
    typed in the edit row, or is [undefined] ([None]). *)
Module Safe.
Record t : Type := {
  id : string;
  name : string;
  managingCPM : string;
  numberOfVersionsRetention : option json;
  numberOfDaysRetention : option json }.
End Safe.

(** A mirrored member; [perms] is [undefined] on a fetched record. *)
Module Member.
Record t : Type := {
  id : string;
  member : string;
  domain : string;
  safe : string;
  role : string;
  perms : option PermissionSet }.
End Member.

(** A mirrored account. *)
Module Account.
Record t : Type := {
  id : string;
  object : string;
  username : string;
  address : string;
  platform : string;
  safeName : string }.
End Account.

(** The edits accumulated in an edit row; [None] is a key that was never
    set. *)
Record EditedSafeData : Type := {
  ed_managingCPM : option string;
  ed_retentionType : option RetentionMode;
  ed_retentionValue : option json }.

Record EditedMemberData : Type := { ed_perms : option PermissionSet }.

Record EditedAccountData : Type := {
  ed_username : option string;
  ed_address : option string;
  ed_platform : option string }.

Definition no_safe_edits : EditedSafeData :=
  {| ed_managingCPM := None; ed_retentionType := None; ed_retentionValue := None |}.
Definition no_member_edits : EditedMemberData := {| ed_perms := None |}.
Definition no_account_edits : EditedAccountData :=
  {| ed_username := None; ed_address := None; ed_platform := None |}.

(* ====================================================================== *)
(** ** The React state of [App] *)
(* ====================================================================== *)

(** The state variables the modelled handlers read or write, grouped as
    the source groups its [useState] declarations. *)

Record AuthState : Type := {
  isLoggedIn : bool;
  vaultUrl : string;
  username : string;
  password : string;
  authToken : json;
  authError : string;
  isAuthenticating : bool }.

Record SafeForm : Type := {
  customSafeName : string;
  safeDescription : string;
  managingCPM : string;
  retentionMode : RetentionMode;
  versionRetention : string;
  daysRetention : string }.

Record MemberForm : Type := {
  targetSafe : string;
  memberName : string;
  memberDomain : string;
  memberPermissions : PermissionSet }.

Record AccountForm : Type := {
  accObject : string;
  accAddress : string;
  accUsername : string;
  accPassword : string;
  accPlatformId : string;
  accSafeName : string;
  accAutoMgmt : bool;
  accManualReason : string;
  accRemoteMachines : string }.

(** The nine staging queues. *)
Record Queues : Type := {
  stagedSafes : list NewSafe.t;
  stagedMembers : list NewMember.t;
  stagedAccounts : list NewAccount.t;
  stagedSafeRemovals : list Safe.t;
  stagedMemberRemovals : list Member.t;
  stagedAccountRemovals : list Account.t;
  stagedSafeModifications : list Safe.t;
  stagedMemberModifications : list Member.t;
  stagedAccountModifications : list Account.t }.

Record SafeRemoval : Type := {
  availableSafesForRemoval : list Safe.t;
  selectedSafesForRemoval : gmap string bool;
  safeRemovalFilter : string }.

Record MemberRemoval : Type := {
  availableMembersForRemoval : list Member.t;
  selectedMembersForRemoval : gmap string bool;
  memberRemovalFilter : string;
  memberRemovalSafeFilter : string }.

Record AccountRemoval : Type := {
  availableAccountsForRemoval : list Account.t;
  selectedAccountsForRemoval : gmap string bool;
  accountRemovalFilter : string;
  accountRemovalSafeFilter : string }.

Record SafeModification : Type := {
  availableSafesForModification : list Safe.t;
  editingSafeId : option string;
  editedSafeData : EditedSafeData }.

Record MemberModification : Type := {
  availableMembersForModification : list Member.t;
  editingMemberId : option string;
  editedMemberData : EditedMemberData }.

Record AccountModification : Type := {
  availableAccountsForModification : list Account.t;
  editingAccountId : option string;
  editedAccountData : EditedAccountData }.

Record AppState : Type := {
  auth : AuthState;
  notification : option Notification;
  safeForm : SafeForm;
  memberForm : MemberForm;
  accountForm : AccountForm;
  queues : Queues;
  safeRemoval : SafeRemoval;
  memberRemoval : MemberRemoval;
  accountRemoval : AccountRemoval;
  safeModification : SafeModification;
  memberModification : MemberModification;
  accountModification : AccountModification }.

(** The initial values of the [useState] calls. *)
Definition default_safeForm : SafeForm :=
  {| customSafeName := EmptyString; safeDescription := EmptyString;
     managingCPM := EmptyString; retentionMode := versions;
     versionRetention := EmptyString; daysRetention := EmptyString |}.

Definition default_memberForm : MemberForm :=
  {| targetSafe := EmptyString; memberName := EmptyString;
     memberDomain := "Vault"; memberPermissions := [] |}.

Definition default_accountForm : AccountForm :=
  {| accObject := EmptyString; accAddress := EmptyString;
     accUsername := EmptyString; accPassword := EmptyString;
     accPlatformId := EmptyString; accSafeName := EmptyString;
     accAutoMgmt := true; accManualReason := EmptyString;
     accRemoteMachines := EmptyString |}.

Definition empty_queues : Queues :=
  {| stagedSafes := []; stagedMembers := []; stagedAccounts := [];
     stagedSafeRemovals := []; stagedMemberRemovals := [];
     stagedAccountRemovals := []; stagedSafeModifications := [];
     stagedMemberModifications := []; stagedAccountModifications := [] |}.

Definition sample_safes : list Safe.t :=
  [ {| Safe.id := "SAFE-001"; Safe.name := "Legacy-Database";
       Safe.managingCPM := "CyberArk";
       Safe.numberOfVersionsRetention := Some (JNum "10");
       Safe.numberOfDaysRetention := Some JNull |};
    {| Safe.id := "SAFE-002"; Safe.name := "Test-Environment";
       Safe.managingCPM := "VaultManager";
       Safe.numberOfVersionsRetention := Some JNull;
       Safe.numberOfDaysRetention := Some (JNum "30") |};
    {| Safe.id := "SAFE-003"; Safe.name := "Archive-2022";
       Safe.managingCPM := "CyberArk";
       Safe.numberOfVersionsRetention := Some (JNum "5");
       Safe.numberOfDaysRetention := Some JNull |} ].

Definition sample_members : list Member.t :=
  [ {| Member.id := "MEM-001"; Member.member := "user.departed";
       Member.domain := "DOMAIN"; Member.safe := "SAFE-001";
       Member.role := "Contributor"; Member.perms := None |};
    {| Member.id := "MEM-002"; Member.member := "temp.contractor";
       Member.domain := "DOMAIN"; Member.safe := "SAFE-002";
       Member.role := "Auditor"; Member.perms := None |};
    {| Member.id := "MEM-003"; Member.member := "old.admin";
       Member.domain := "Vault"; Member.safe := "SAFE-001";
       Member.role := "Manager"; Member.perms := None |} ].

Definition sample_accounts : list Account.t :=
  [ {| Account.id := "ACC-001"; Account.object := "root";
       Account.username := "admin_user"; Account.address := "192.168.1.10";
       Account.platform := "Linux"; Account.safeName := "SAFE-001" |};
    {| Account.id := "ACC-002"; Account.object := "sa";
       Account.username := "db_admin"; Account.address := "db-server.local";
       Account.platform := "SQLServer"; Account.safeName := "SAFE-002" |};
    {| Account.id := "ACC-003"; Account.object := "admin";
       Account.username := "system_admin"; Account.address := "10.0.0.5";
       Account.platform := "Windows"; Account.safeName := "SAFE-003" |} ].

(** [localStorage]. *)
Abbreviation Storage := (gmap string string).

(** The state [App] starts in: everything at its [useState] initial value;
    the token is [localStorage.getItem('cyberark_token') || '']. *)
Definition initial_auth (storage : Storage) : AuthState :=
  {| isLoggedIn := false; vaultUrl := EmptyString; username := EmptyString;
     password := EmptyString;
     authToken :=
       JStr (match storage !! "cyberark_token" with
             | Some t => if str_truthy t then t else EmptyString
             | None => EmptyString
             end);
     authError := EmptyString; isAuthenticating := false |}.

Definition initial_app (storage : Storage) : AppState :=
  {| auth := initial_auth storage;
     notification := None;
     safeForm := default_safeForm;
     memberForm := default_memberForm;
     accountForm := default_accountForm;
     queues := empty_queues;
     safeRemoval :=
       {| availableSafesForRemoval := sample_safes;
          selectedSafesForRemoval := ∅; safeRemovalFilter := EmptyString |};
     memberRemoval :=
       {| availableMembersForRemoval := sample_members;
          selectedMembersForRemoval := ∅; memberRemovalFilter := EmptyString;
          memberRemovalSafeFilter := EmptyString |};
     accountRemoval :=
       {| availableAccountsForRemoval := sample_accounts;
          selectedAccountsForRemoval := ∅; accountRemovalFilter := EmptyString;
          accountRemovalSafeFilter := EmptyString |};
     safeModification :=
       {| availableSafesForModification := sample_safes;
          editingSafeId := None; editedSafeData := no_safe_edits |};
     memberModification :=
       {| availableMembersForModification := sample_members;
          editingMemberId := None; editedMemberData := no_member_edits |};
     accountModification :=
       {| availableAccountsForModification := sample_accounts;
          editingAccountId := None; editedAccountData := no_account_edits |} |}.

(** Functional updates of [AppState] and [Queues], one per field written. *)
Definition with_auth (v : AuthState) (a : AppState) : AppState :=
  {| auth := v; notification := notification a; safeForm := safeForm a;
     memberForm := memberForm a; accountForm := accountForm a;
     queues := queues a; safeRemoval := safeRemoval a;
     memberRemoval := memberRemoval a; accountRemoval := accountRemoval a;
     safeModification := safeModification a;
     memberModification := memberModification a;
     accountModification := accountModification a |}.

Definition with_notification (v : option Notification) (a : AppState) : AppState :=
  {| auth := auth a; notification := v; safeForm := safeForm a;
     memberForm := memberForm a; accountForm := accountForm a;
     queues := queues a; safeRemoval := safeRemoval a;
     memberRemoval := memberRemoval a; accountRemoval := accountRemoval a;
     safeModification := safeModification a;
     memberModification := memberModification a;
     accountModification := accountModification a |}.

Definition with_safeForm (v : SafeForm) (a : AppState) : AppState :=
  {| auth := auth a; notification := notification a; safeForm := v;
     memberForm := memberForm a; accountForm := accountForm a;
     queues := queues a; safeRemoval := safeRemoval a;
     memberRemoval := memberRemoval a; accountRemoval := accountRemoval a;
     safeModification := safeModification a;
     memberModification := memberModification a;
     accountModification := accountModification a |}.

Definition with_memberForm (v : MemberForm) (a : AppState) : AppState :=
  {| auth := auth a; notification := notification a; safeForm := safeForm a;
     memberForm := v; accountForm := accountForm a;
     queues := queues a; safeRemoval := safeRemoval a;
     memberRemoval := memberRemoval a; accountRemoval := accountRemoval a;
     safeModification := safeModification a;
     memberModification := memberModification a;
     accountModification := accountModification a |}.

Definition with_accountForm (v : AccountForm) (a : AppState) : AppState :=
  {| auth := auth a; notification := notification a; safeForm := safeForm a;
     memberForm := memberForm a; accountForm := v;
     queues := queues a; safeRemoval := safeRemoval a;
     memberRemoval := memberRemoval a; accountRemoval := accountRemoval a;
     safeModification := safeModification a;
     memberModification := memberModification a;
     accountModification := accountModification a |}.

Definition with_queues (v : Queues) (a : AppState) : AppState :=
  {| auth := auth a; notification := notification a; safeForm := safeForm a;
     memberForm := memberForm a; accountForm := accountForm a;
     queues := v; safeRemoval := safeRemoval a;
     memberRemoval := memberRemoval a; accountRemoval := accountRemoval a;
     safeModification := safeModification a;
     memberModification := memberModification a;
     accountModification := accountModification a |}.

Definition with_safeRemoval (v : SafeRemoval) (a : AppState) : AppState :=
  {| auth := auth a; notification := notification a; safeForm := safeForm a;
     memberForm := memberForm a; accountForm := accountForm a;
     queues := queues a; safeRemoval := v;
     memberRemoval := memberRemoval a; accountRemoval := accountRemoval a;
     safeModification := safeModification a;
     memberModification := memberModification a;
     accountModification := accountModification a |}.

Definition with_memberRemoval (v : MemberRemoval) (a : AppState) : AppState :=
  {| auth := auth a; notification := notification a; safeForm := safeForm a;
     memberForm := memberForm a; accountForm := accountForm a;
     queues := queues a; safeRemoval := safeRemoval a;
     memberRemoval := v; accountRemoval := accountRemoval a;
     safeModification := safeModification a;
     memberModification := memberModification a;
     accountModification := accountModification a |}.

Definition with_accountRemoval (v : AccountRemoval) (a : AppState) : AppState :=
  {| auth := auth a; notification := notification a; safeForm := safeForm a;
     memberForm := memberForm a; accountForm := accountForm a;
     queues := queues a; safeRemoval := safeRemoval a;
     memberRemoval := memberRemoval a; accountRemoval := v;
     safeModification := safeModification a;
     memberModification := memberModification a;
     accountModification := accountModification a |}.

Definition with_safeModification (v : SafeModification) (a : AppState) : AppState :=
  {| auth := auth a; notification := notification a; safeForm := safeForm a;
     memberForm := memberForm a; accountForm := accountForm a;
     queues := queues a; safeRemoval := safeRemoval a;
     memberRemoval := memberRemoval a; accountRemoval := accountRemoval a;
     safeModification := v;
     memberModification := memberModification a;
     accountModification := accountModification a |}.

Definition with_memberModification (v : MemberModification) (a : AppState) : AppState :=
  {| auth := auth a; notification := notification a; safeForm := safeForm a;
     memberForm := memberForm a; accountForm := accountForm a;
     queues := queues a; safeRemoval := safeRemoval a;
     memberRemoval := memberRemoval a; accountRemoval := accountRemoval a;
     safeModification := safeModification a;
     memberModification := v;
     accountModification := accountModification a |}.

Definition with_accountModification (v : AccountModification) (a : AppState) : AppState :=
  {| auth := auth a; notification := notification a; safeForm := safeForm a;
     memberForm := memberForm a; accountForm := accountForm a;
     queues := queues a; safeRemoval := safeRemoval a;
     memberRemoval := memberRemoval a; accountRemoval := accountRemoval a;
     safeModification := safeModification a;
     memberModification := memberModification a;
     accountModification := v |}.

Definition setStagedSafes (v : list NewSafe.t) (q : Queues) : Queues :=
  {| stagedSafes := v; stagedMembers := stagedMembers q;
     stagedAccounts := stagedAccounts q;
     stagedSafeRemovals := stagedSafeRemovals q;
     stagedMemberRemovals := stagedMemberRemovals q;
     stagedAccountRemovals := stagedAccountRemovals q;
     stagedSafeModifications := stagedSafeModifications q;
     stagedMemberModifications := stagedMemberModifications q;
     stagedAccountModifications := stagedAccountModifications q |}.

Definition setStagedMembers (v : list NewMember.t) (q : Queues) : Queues :=
  {| stagedSafes := stagedSafes q; stagedMembers := v;
     stagedAccounts := stagedAccounts q;
     stagedSafeRemovals := stagedSafeRemovals q;
     stagedMemberRemovals := stagedMemberRemovals q;
     stagedAccountRemovals := stagedAccountRemovals q;
     stagedSafeModifications := stagedSafeModifications q;
     stagedMemberModifications := stagedMemberModifications q;
     stagedAccountModifications := stagedAccountModifications q |}.

Definition setStagedAccounts (v : list NewAccount.t) (q : Queues) : Queues :=
  {| stagedSafes := stagedSafes q; stagedMembers := stagedMembers q;
     stagedAccounts := v;
     stagedSafeRemovals := stagedSafeRemovals q;
     stagedMemberRemovals := stagedMemberRemovals q;
     stagedAccountRemovals := stagedAccountRemovals q;
     stagedSafeModifications := stagedSafeModifications q;
     stagedMemberModifications := stagedMemberModifications q;
     stagedAccountModifications := stagedAccountModifications q |}.

Definition setStagedSafeRemovals (v : list Safe.t) (q : Queues) : Queues :=
  {| stagedSafes := stagedSafes q; stagedMembers := stagedMembers q;
     stagedAccounts := stagedAccounts q;
     stagedSafeRemovals := v;
     stagedMemberRemovals := stagedMemberRemovals q;
     stagedAccountRemovals := stagedAccountRemovals q;
     stagedSafeModifications := stagedSafeModifications q;
     stagedMemberModifications := stagedMemberModifications q;
     stagedAccountModifications := stagedAccountModifications q |}.

Definition setStagedMemberRemovals (v : list Member.t) (q : Queues) : Queues :=
  {| stagedSafes := stagedSafes q; stagedMembers := stagedMembers q;
     stagedAccounts := stagedAccounts q;
     stagedSafeRemovals := stagedSafeRemovals q;
     stagedMemberRemovals := v;
     stagedAccountRemovals := stagedAccountRemovals q;
     stagedSafeModifications := stagedSafeModifications q;
     stagedMemberModifications := stagedMemberModifications q;
     stagedAccountModifications := stagedAccountModifications q |}.

Definition setStagedAccountRemovals (v : list Account.t) (q : Queues) : Queues :=
  {| stagedSafes := stagedSafes q; stagedMembers := stagedMembers q;
     stagedAccounts := stagedAccounts q;
     stagedSafeRemovals := stagedSafeRemovals q;
     stagedMemberRemovals := stagedMemberRemovals q;
     stagedAccountRemovals := v;
     stagedSafeModifications := stagedSafeModifications q;
     stagedMemberModifications := stagedMemberModifications q;
     stagedAccountModifications := stagedAccountModifications q |}.

Definition setStagedSafeModifications (v : list Safe.t) (q : Queues) : Queues :=
  {| stagedSafes := stagedSafes q; stagedMembers := stagedMembers q;
     stagedAccounts := stagedAccounts q;
     stagedSafeRemovals := stagedSafeRemovals q;
     stagedMemberRemovals := stagedMemberRemovals q;
     stagedAccountRemovals := stagedAccountRemovals q;
     stagedSafeModifications := v;
     stagedMemberModifications := stagedMemberModifications q;
     stagedAccountModifications := stagedAccountModifications q |}.

Definition setStagedMemberModifications (v : list Member.t) (q : Queues) : Queues :=
  {| stagedSafes := stagedSafes q; stagedMembers := stagedMembers q;
     stagedAccounts := stagedAccounts q;
     stagedSafeRemovals := stagedSafeRemovals q;
     stagedMemberRemovals := stagedMemberRemovals q;
     stagedAccountRemovals := stagedAccountRemovals q;
     stagedSafeModifications := stagedSafeModifications q;
     stagedMemberModifications := v;
     stagedAccountModifications := stagedAccountModifications q |}.

Definition setStagedAccountModifications (v : list Account.t) (q : Queues) : Queues :=
  {| stagedSafes := stagedSafes q; stagedMembers := stagedMembers q;
     stagedAccounts := stagedAccounts q;
     stagedSafeRemovals := stagedSafeRemovals q;
     stagedMemberRemovals := stagedMemberRemovals q;
     stagedAccountRemovals := stagedAccountRemovals q;
     stagedSafeModifications := stagedSafeModifications q;
     stagedMemberModifications := stagedMemberModifications q;
     stagedAccountModifications := v |}.

(* ====================================================================== *)
(** ** The network and the system state *)
(* ====================================================================== *)

(** The payloads the deploy handler hands to the API layer. *)
Record SafeCreateData : Type := {
  sc_name : string;
  sc_description : string;
  sc_managingCPM : string;
  sc_numberOfVersionsRetention : json;
  sc_numberOfDaysRetention : json }.

Record SafeUpdateData : Type := {
  su_managingCPM : string;
  su_numberOfVersionsRetention : json;
  su_numberOfDaysRetention : json }.

Record AccountUpdateData : Type := {
  au_address : option string;
  au_secret : option string;
  au_userName : option string;
  au_automaticManagement : option bool;
  au_manualManagementReason : option string }.

(** One constructor per method of [safeAPI], [memberAPI] and [accountAPI]
    that the deploy handler calls. *)
Inductive ApiCall : Type :=
  | safeAPI_create (safeData : SafeCreateData)
  | memberAPI_add (safeName : string) (memberData : NewMember.t)
  | accountAPI_create (accountData : NewAccount.t)
  | safeAPI_delete (safeId : string)
  | memberAPI_remove (safeName memberName : string)
  | accountAPI_delete (accountId : string)
  | safeAPI_update (safeId : string) (updateData : SafeUpdateData)
  | memberAPI_updatePermissions (safeName memberName : string)
      (permissions : PermissionSet)
  | accountAPI_update (accountId : string) (updateData : AccountUpdateData).

Inductive NetCall : Type :=
  | login_fetch (loginUrl user pass : string)
  | api_call (c : ApiCall).

(** An API promise resolves, or rejects with an [Error]. *)
Inductive ApiResult : Type :=
  | Resolved (body : json)
  | Rejected (reason : string).

(** The response of the login [fetch]; [body] is what [response.json()]
    gives: the parsed value, or [inl] of the message it rejects with. *)
Record LoginResponse : Type := {
  ok : bool;
  statusText : string;
  body : string + json }.

Inductive LoginResult : Type :=
  | fetch_failed (reason : string)
  | fetch_response (r : LoginResponse).

Record Sys (World : Type) : Type := {
  app : AppState;
  storage : Storage;
  world : World;
  calls : list NetCall;
  notes : list Notification }.

Arguments app {World} _.
Arguments storage {World} _.
Arguments world {World} _.
Arguments calls {World} _.
Arguments notes {World} _.

Definition boot {World : Type} (st : Storage) (w : World) : Sys World :=
  {| app := initial_app st; storage := st; world := w; calls := []; notes := [] |}.

Definition update_app {World} (f : AppState -> AppState) (s : Sys World) : Sys World :=
  {| app := f (app s); storage := storage s; world := world s;
     calls := calls s; notes := notes s |}.

Definition update_storage {World} (f : Storage -> Storage) (s : Sys World) : Sys World :=
  {| app := app s; storage := f (storage s); world := world s;
     calls := calls s; notes := notes s |}.

Definition update_queues {World} (f : Queues -> Queues) (s : Sys World) : Sys World :=
  update_app (fun a => with_queues (f (queues a)) a) s.

(** [showNotification]: the popup state is replaced (the timer that hides
    it four seconds later is not modelled) and the message is logged. *)
Definition showNotification {World} (msg : string) (ty : NotificationType)
    (s : Sys World) : Sys World :=
  let n := {| message := msg; type := ty |} in
  {| app := with_notification (Some n) (app s); storage := storage s;
     world := world s; calls := calls s; notes := notes s ++ [n] |}.

(** [array.includes(x)] on strings. *)
Definition includes (l : list string) (x : string) : bool :=
  existsb (String.eqb x) l.

(** [Object.keys(selection).filter(key => selection[key])]. *)
Definition selectedIds (selection : gmap string bool) : list string :=
  List.filter
    (fun key => match selection !! key with Some b => b | None => false end)
    ((map_to_list selection).*1).

Definition totalItems (q : Queues) : nat :=
  (length (stagedSafes q) + length (stagedMembers q) + length (stagedAccounts q)
   + length (stagedSafeRemovals q) + length (stagedMemberRemovals q)
   + length (stagedAccountRemovals q)
   + length (stagedSafeModifications q) + length (stagedMemberModifications q)
   + length (stagedAccountModifications q))%nat.

Definition string_of_nat (n : nat) : string := string_of_Z (Z.of_nat n).

(* ====================================================================== *)
(** ** Staging handlers: create path *)
(* ====================================================================== *)

Section Handlers.

Context {World : Type}.

Definition handleAddSafeToStage (s : Sys World) : Sys World :=
  let f := safeForm (app s) in
  if negb (str_truthy (js_trim (customSafeName f))) then
    showNotification "Please enter a Safe name!" error s
  else
    let retentionValue :=
      if is_versions (retentionMode f) then versionRetention f
      else daysRetention f in
    if negb (str_truthy retentionValue) then
      showNotification
        ("Please enter "
           +:+ (if is_versions (retentionMode f) then "number of versions"
                else "number of days")
           +:+ " for retention!") error s
    else
      let newSafe :=
        {| NewSafe.name := customSafeName f;
           NewSafe.description := safeDescription f;
           NewSafe.CPMManaging := managingCPM f;
           NewSafe.retentionMode := retentionMode f;
           NewSafe.retentionValue := retentionValue |} in
      update_app
        (with_safeForm
           {| customSafeName := EmptyString; safeDescription := EmptyString;
              managingCPM := EmptyString; retentionMode := versions;
              versionRetention := EmptyString; daysRetention := EmptyString |})
        (update_queues (fun q => setStagedSafes (stagedSafes q ++ [newSafe]) q) s).

Definition handleAddCustomMember (s : Sys World) : Sys World :=
  let f := memberForm (app s) in
  if negb (str_truthy (targetSafe f)) || negb (str_truthy (memberName f)) then
    showNotification "Please specify a target Safe and member name!" error s
  else
    let detectedRole := detectRoleFromPermissions (memberPermissions f) in
    update_app
      (with_memberForm
         {| targetSafe := targetSafe f; memberName := EmptyString;
            memberDomain := memberDomain f;
            memberPermissions := memberPermissions f |})
      (update_queues
         (fun q =>
            setStagedMembers
              (stagedMembers q ++
                 [ {| NewMember.safe := targetSafe f;
                      NewMember.member := memberName f;
                      NewMember.domain := memberDomain f;
                      NewMember.perms := memberPermissions f;
                      NewMember.roleLabel := detectedRole |} ]) q) s).

Definition handleAddAccountToQueue (s : Sys World) : Sys World :=
  let f := accountForm (app s) in
  if negb (str_truthy (accObject f)) || negb (str_truthy (accAddress f))
     || negb (str_truthy (accUsername f)) || negb (str_truthy (accPlatformId f))
     || negb (str_truthy (accSafeName f)) then
    showNotification "Please fill required fields!" error s
  else
    update_app
      (with_accountForm
         {| accObject := EmptyString; accAddress := EmptyString;
            accUsername := EmptyString; accPassword := EmptyString;
            accPlatformId := accPlatformId f; accSafeName := accSafeName f;
            accAutoMgmt := accAutoMgmt f; accManualReason := EmptyString;
            accRemoteMachines := EmptyString |})
      (update_queues
         (fun q =>
            setStagedAccounts
              (stagedAccounts q ++
                 [ {| NewAccount.object := accObject f;
                      NewAccount.address := accAddress f;
                      NewAccount.userName := accUsername f;
                      NewAccount.secret := accPassword f;
                      NewAccount.platformId := accPlatformId f;
                      NewAccount.safeName := accSafeName f;
                      NewAccount.automaticManagement := accAutoMgmt f;
                      NewAccount.manualManagementReason :=
                        if accAutoMgmt f then EmptyString else accManualReason f;
                      NewAccount.remoteMachines := accRemoteMachines f |} ]) q) s).

(* ====================================================================== *)
(** ** Staging handlers: remove path *)
(* ====================================================================== *)

Definition handleStageSafeRemovals (s : Sys World) : Sys World :=
  let r := safeRemoval (app s) in
  let staged := stagedSafeRemovals (queues (app s)) in
  let ids := selectedIds (selectedSafesForRemoval r) in
  if Nat.eqb (length ids) 0 then
    showNotification "Please select at least one Safe to remove!" error s
  else
    let itemsToRemove :=
      List.filter
        (fun safe =>
           includes ids (Safe.id safe)
           && negb (existsb (fun st => String.eqb (Safe.id st) (Safe.id safe)) staged))
        (availableSafesForRemoval r) in
    if Nat.eqb (length itemsToRemove) 0 then
      showNotification "All selected Safes are already queued!" warning s
    else
      update_app
        (with_safeRemoval
           {| availableSafesForRemoval := availableSafesForRemoval r;
              selectedSafesForRemoval := ∅;
              safeRemovalFilter := EmptyString |})
        (update_queues (setStagedSafeRemovals (staged ++ itemsToRemove)) s).

Definition handleStageMemberRemovals (s : Sys World) : Sys World :=
  let r := memberRemoval (app s) in
  let staged := stagedMemberRemovals (queues (app s)) in
  let ids := selectedIds (selectedMembersForRemoval r) in
  if Nat.eqb (length ids) 0 then
    showNotification "Please select at least one Member to remove!" error s
  else
    let itemsToRemove :=
      List.filter (fun m => includes ids (Member.id m))
        (availableMembersForRemoval r) in
    let stagedIds := map Member.id staged in
    let duplicates :=
      List.filter (fun item => includes stagedIds (Member.id item)) itemsToRemove in
    if Nat.ltb 0 (length duplicates) then
      showNotification
        ("The following member(s) are already staged for removal: "
           +:+ String.concat ", " (map Member.member duplicates)) warning s
    else
      update_app
        (with_memberRemoval
           {| availableMembersForRemoval := availableMembersForRemoval r;
              selectedMembersForRemoval := ∅;
              memberRemovalFilter := EmptyString;
              memberRemovalSafeFilter := EmptyString |})
        (update_queues (setStagedMemberRemovals (staged ++ itemsToRemove)) s).

Definition handleStageAccountRemovals (s : Sys World) : Sys World :=
  let r := accountRemoval (app s) in
  let staged := stagedAccountRemovals (queues (app s)) in
  let ids := selectedIds (selectedAccountsForRemoval r) in
  if Nat.eqb (length ids) 0 then
    showNotification "Please select at least one Account to remove!" error s
  else
    let itemsToRemove :=
      List.filter (fun a => includes ids (Account.id a))
        (availableAccountsForRemoval r) in
    let stagedIds := map Account.id staged in
    let duplicates :=
      List.filter (fun item => includes stagedIds (Account.id item)) itemsToRemove in
    if Nat.ltb 0 (length duplicates) then
      showNotification
        ("The following account(s) are already staged for removal: "
           +:+ String.concat ", " (map Account.username duplicates)) warning s
    else
      update_app
        (with_accountRemoval
           {| availableAccountsForRemoval := availableAccountsForRemoval r;
              selectedAccountsForRemoval := ∅;
              accountRemovalFilter := EmptyString;
              accountRemovalSafeFilter := EmptyString |})
        (update_queues (setStagedAccountRemovals (staged ++ itemsToRemove)) s).

(* ====================================================================== *)
(** ** Staging handlers: modify path *)
(* ====================================================================== *)

Definition opt_truthy (v : option json) : bool :=
  match v with Some x => js_truthy x | None => false end.

(** The left operand of [a || b] when it decides the result. *)
Definition truthy_value (a : option json) : option json :=
  if opt_truthy a then a else None.

(** [a || b] where both sides may be [undefined]. *)
Definition js_or_undef (a b : option json) : option json :=
  if opt_truthy a then a else b.

(** The three save handlers look the record up in the mirror by the id of
    the edit row.  The row is rendered from the mirror, so the record is
    there; a save for an id the mirror no longer holds (a TypeError, or an
    entry without id) is outside the model and gives [None]. *)

Definition editedSafeOf (baseSafe : Safe.t) (ed : EditedSafeData) : Safe.t :=
  let retentionType :=
    match ed_retentionType ed with
    | Some t => t
    | None =>
        if opt_truthy (Safe.numberOfVersionsRetention baseSafe) then versions
        else days
    end in
  let retentionValue :=
    js_or_undef (ed_retentionValue ed)
      (if is_versions retentionType then Safe.numberOfVersionsRetention baseSafe
       else Safe.numberOfDaysRetention baseSafe) in
  {| Safe.id := Safe.id baseSafe;
     Safe.name := Safe.name baseSafe;
     Safe.managingCPM :=
       match ed_managingCPM ed with
       | Some c => c
       | None => Safe.managingCPM baseSafe
       end;
     Safe.numberOfVersionsRetention :=
       if is_versions retentionType then retentionValue else None;
     Safe.numberOfDaysRetention :=
       if is_days retentionType then retentionValue else None |}.

Definition handleSaveModifiedSafe (safeId : string) (s : Sys World)
    : option (Sys World) :=
  let m := safeModification (app s) in
  let staged := stagedSafeModifications (queues (app s)) in
  match List.find (fun x => String.eqb (Safe.id x) safeId)
          (availableSafesForModification m) with
  | None => None
  | Some baseSafe =>
      let editedSafe := editedSafeOf baseSafe (editedSafeData m) in
      let stagedIds := map Safe.id staged in
      let s1 :=
        if includes stagedIds safeId then
          showNotification
            ("Safe " +:+ quoted (Safe.name editedSafe) +:+ " updated in staging!")
            success
            (update_queues
               (setStagedSafeModifications
                  (map (fun x => if String.eqb (Safe.id x) safeId
                                 then editedSafe else x) staged)) s)
        else
          showNotification
            ("Safe " +:+ quoted (Safe.name editedSafe)
               +:+ " staged for modification!") success
            (update_queues
               (setStagedSafeModifications (staged ++ [editedSafe])) s) in
      Some
        (update_app
           (with_safeModification
              {| availableSafesForModification := availableSafesForModification m;
                 editingSafeId := None;
                 editedSafeData := no_safe_edits |}) s1)
  end.

Definition editedMemberOf (baseMember : Member.t) (ed : EditedMemberData)
    : Member.t :=
  {| Member.id := Member.id baseMember;
     Member.member := Member.member baseMember;
     Member.domain := Member.domain baseMember;
     Member.safe := Member.safe baseMember;
     Member.role :=
       detectRoleFromPermissions
         (match ed_perms ed with
          | Some p => p
          | None =>
              match Member.perms baseMember with Some p => p | None => [] end
          end);
     Member.perms :=
       match ed_perms ed with
       | Some p => Some p
       | None => Member.perms baseMember
       end |}.

Definition handleSaveModifiedMember (memberId : string) (s : Sys World)
    : option (Sys World) :=
  let m := memberModification (app s) in
  let staged := stagedMemberModifications (queues (app s)) in
  match List.find (fun x => String.eqb (Member.id x) memberId)
          (availableMembersForModification m) with
  | None => None
  | Some baseMember =>
      let editedMember := editedMemberOf baseMember (editedMemberData m) in
      let stagedIds := map Member.id staged in
      let s1 :=
        if includes stagedIds memberId then
          showNotification
            ("Member " +:+ quoted (Member.member editedMember)
               +:+ " updated in staging!") success
            (update_queues
               (setStagedMemberModifications
                  (map (fun x => if String.eqb (Member.id x) memberId
                                 then editedMember else x) staged)) s)
        else
          showNotification
            ("Member " +:+ quoted (Member.member editedMember)
               +:+ " staged for modification!") success
            (update_queues
               (setStagedMemberModifications (staged ++ [editedMember])) s) in
      Some
        (update_app
           (with_memberModification
              {| availableMembersForModification :=
                   availableMembersForModification m;
                 editingMemberId := None;
                 editedMemberData := no_member_edits |}) s1)
  end.

Definition editedAccountOf (base : Account.t) (ed : EditedAccountData)
    : Account.t :=
  {| Account.id := Account.id base;
     Account.object := Account.object base;
     Account.username :=
       match ed_username ed with Some v => v | None => Account.username base end;
     Account.address :=
       match ed_address ed with Some v => v | None => Account.address base end;
     Account.platform :=
       match ed_platform ed with Some v => v | None => Account.platform base end;
     Account.safeName := Account.safeName base |}.

Definition handleSaveModifiedAccount (accountId : string) (s : Sys World)
    : option (Sys World) :=
  let m := accountModification (app s) in
  let staged := stagedAccountModifications (queues (app s)) in
  match List.find (fun x => String.eqb (Account.id x) accountId)
          (availableAccountsForModification m) with
  | None => None
  | Some base =>
      let editedAccount := editedAccountOf base (editedAccountData m) in
      let stagedIds := map Account.id staged in
      let s1 :=
        if includes stagedIds accountId then
          showNotification
            ("Account " +:+ quoted (Account.username editedAccount)
               +:+ " updated in staging!") success
            (update_queues
               (setStagedAccountModifications
                  (map (fun x => if String.eqb (Account.id x) accountId
                                 then editedAccount else x) staged)) s)
        else
          showNotification
            ("Account " +:+ quoted (Account.username editedAccount)
               +:+ " staged for modification!") success
            (update_queues
               (setStagedAccountModifications (staged ++ [editedAccount])) s) in
      Some
        (update_app
           (with_accountModification
              {| availableAccountsForModification :=
                   availableAccountsForModification m;
                 editingAccountId := None;
                 editedAccountData := no_account_edits |}) s1)
  end.

(* ====================================================================== *)
(** ** The deploy handler *)
(* ====================================================================== *)

(** The vault: what an API call and the login request are answered with,
    given everything that happened before. *)
Context (api_respond : World -> ApiCall -> World * ApiResult).
Context (login_respond : World -> string -> string -> string -> World * LoginResult).

(** [localStorage.setItem(key, value)] throws when the browser refuses the
    write (a full or a disabled storage): [setItem_throws w key value] is
    then [Some] of the message of the exception. *)
Context (setItem_throws : World -> string -> string -> option string).

(** The body of one iteration of a deploy loop:
    [try { notify; await call; notify } catch (error) { notify }]. *)
Definition try_call (starting : string) (call : ApiCall) (succeeded : string)
    (failed : string -> string) (s : Sys World) : Sys World :=
  let s1 := showNotification starting info s in
  let '(w, r) := api_respond (world s1) call in
  let s2 :=
    {| app := app s1; storage := storage s1; world := w;
       calls := calls s1 ++ [api_call call]; notes := notes s1 |} in
  match r with
  | Resolved _ => showNotification succeeded success s2
  | Rejected reason => showNotification (failed reason) error s2
  end.

Definition create_safe_call (safe : NewSafe.t) : ApiCall :=
  safeAPI_create
    {| sc_name := NewSafe.name safe;
       sc_description := NewSafe.description safe;
       sc_managingCPM := NewSafe.CPMManaging safe;
       sc_numberOfVersionsRetention :=
         if is_versions (NewSafe.retentionMode safe)
         then JStr (NewSafe.retentionValue safe) else JNull;
       sc_numberOfDaysRetention :=
         if is_days (NewSafe.retentionMode safe)
         then JStr (NewSafe.retentionValue safe) else JNull |}.

Definition add_member_call (member : NewMember.t) : ApiCall :=
  memberAPI_add (NewMember.safe member) member.

Definition create_account_call (account : NewAccount.t) : ApiCall :=
  accountAPI_create account.

Definition delete_safe_call (safe : Safe.t) : ApiCall :=
  safeAPI_delete (Safe.name safe).

Definition remove_member_call (member : Member.t) : ApiCall :=
  memberAPI_remove (Member.safe member) (Member.member member).

Definition delete_account_call (account : Account.t) : ApiCall :=
  accountAPI_delete (Account.object account).

Definition update_safe_call (safe : Safe.t) : ApiCall :=
  safeAPI_update (Safe.id safe)
    {| su_managingCPM := Safe.managingCPM safe;
       su_numberOfVersionsRetention :=
         js_or (Safe.numberOfVersionsRetention safe) JNull;
       su_numberOfDaysRetention :=
         js_or (Safe.numberOfDaysRetention safe) JNull |}.

Definition update_member_call (member : Member.t) : ApiCall :=
  memberAPI_updatePermissions (Member.safe member) (Member.member member)
    (match Member.perms member with Some p => p | None => [] end).

(** An entry of the account modification queue has the fields of a
    mirrored account: [userName], [secret], [automaticManagement] and
    [manualManagementReason] are [undefined] on it. *)
Definition update_account_call (account : Account.t) : ApiCall :=
  accountAPI_update (Account.id account)
    {| au_address := Some (Account.address account);
       au_secret := None; au_userName := None;
       au_automaticManagement := None;
       au_manualManagementReason := None |}.

Definition check_mark : string := "✓".
Definition cross_mark : string := "✗".

(** The nine loops, each over the queue the handler closed over. *)
Definition deploy_safes (items : list NewSafe.t) (s : Sys World) : Sys World :=
  fold_left
    (fun s safe =>
       try_call
         ("Creating Safe: " +:+ quoted (NewSafe.name safe) +:+ "...")
         (create_safe_call safe)
         (check_mark +:+ " Safe " +:+ quoted (NewSafe.name safe)
            +:+ " created successfully!")
         (fun reason =>
            cross_mark +:+ " Failed to create Safe "
              +:+ quoted (NewSafe.name safe) +:+ ": " +:+ reason) s)
    items s.

Definition deploy_members (items : list NewMember.t) (s : Sys World) : Sys World :=
  fold_left
    (fun s member =>
       try_call
         ("Adding Member " +:+ quoted (NewMember.member member)
            +:+ " to Safe " +:+ quoted (NewMember.safe member) +:+ "...")
         (add_member_call member)
         (check_mark +:+ " Member " +:+ quoted (NewMember.member member)
            +:+ " added to Safe " +:+ quoted (NewMember.safe member) +:+ "!")
         (fun reason =>
            cross_mark +:+ " Failed to add Member "
              +:+ quoted (NewMember.member member) +:+ ": " +:+ reason) s)
    items s.

Definition deploy_accounts (items : list NewAccount.t) (s : Sys World) : Sys World :=
  fold_left
    (fun s account =>
       try_call
         ("Creating Account: " +:+ quoted (NewAccount.userName account)
            +:+ "@" +:+ quoted (NewAccount.address account) +:+ "...")
         (create_account_call account)
         (check_mark +:+ " Account " +:+ quoted (NewAccount.userName account)
            +:+ "@" +:+ quoted (NewAccount.address account) +:+ " created!")
         (fun reason =>
            cross_mark +:+ " Failed to create Account "
              +:+ quoted (NewAccount.userName account) +:+ ": " +:+ reason) s)
    items s.

Definition deploy_safe_removals (items : list Safe.t) (s : Sys World) : Sys World :=
  fold_left
    (fun s safe =>
       try_call
         ("Deleting Safe: " +:+ quoted (Safe.name safe) +:+ "...")
         (delete_safe_call safe)
         (check_mark +:+ " Safe " +:+ quoted (Safe.name safe)
            +:+ " deleted successfully!")
         (fun reason =>
            cross_mark +:+ " Failed to delete Safe "
              +:+ quoted (Safe.name safe) +:+ ": " +:+ reason) s)
    items s.

Definition deploy_member_removals (items : list Member.t) (s : Sys World)
    : Sys World :=
  fold_left
    (fun s member =>
       try_call
         ("Removing Member " +:+ quoted (Member.member member)
            +:+ " from Safe " +:+ quoted (Member.safe member) +:+ "...")
         (remove_member_call member)
         (check_mark +:+ " Member " +:+ quoted (Member.member member)
            +:+ " removed from Safe " +:+ quoted (Member.safe member) +:+ "!")
         (fun reason =>
            cross_mark +:+ " Failed to remove Member "
              +:+ quoted (Member.member member) +:+ ": " +:+ reason) s)
    items s.

Definition deploy_account_removals (items : list Account.t) (s : Sys World)
    : Sys World :=
  fold_left
    (fun s account =>
       try_call
         ("Deleting Account: " +:+ quoted (Account.username account) +:+ "...")
         (delete_account_call account)
         (check_mark +:+ " Account " +:+ quoted (Account.username account)
            +:+ " deleted!")
         (fun reason =>
            cross_mark +:+ " Failed to delete Account "
              +:+ quoted (Account.username account) +:+ ": " +:+ reason) s)
    items s.

Definition deploy_safe_modifications (items : list Safe.t) (s : Sys World)
    : Sys World :=
  fold_left
    (fun s safe =>
       try_call
         ("Updating Safe: " +:+ quoted (Safe.name safe) +:+ "...")
         (update_safe_call safe)
         (check_mark +:+ " Safe " +:+ quoted (Safe.name safe)
            +:+ " updated successfully!")
         (fun reason =>
            cross_mark +:+ " Failed to update Safe "
              +:+ quoted (Safe.name safe) +:+ ": " +:+ reason) s)
    items s.

Definition deploy_member_modifications (items : list Member.t) (s : Sys World)
    : Sys World :=
  fold_left
    (fun s member =>
       try_call
         ("Updating Member: " +:+ quoted (Member.member member) +:+ "...")
         (update_member_call member)
         (check_mark +:+ " Member " +:+ quoted (Member.member member)
            +:+ " permissions updated!")
         (fun reason =>
            cross_mark +:+ " Failed to update Member "
              +:+ quoted (Member.member member) +:+ ": " +:+ reason) s)
    items s.

(** The messages of this loop read [account.userName], which an entry of
    the queue does not have: the template literal prints [undefined]. *)
Definition deploy_account_modifications (items : list Account.t) (s : Sys World)
    : Sys World :=
  fold_left
    (fun s account =>
       try_call
         ("Updating Account: " +:+ quoted "undefined" +:+ "...")
         (update_account_call account)
         (check_mark +:+ " Account " +:+ quoted "undefined"
            +:+ " updated successfully!")
         (fun reason =>
            cross_mark +:+ " Failed to update Account "
              +:+ quoted "undefined" +:+ ": " +:+ reason) s)
    items s.

(** The [onClick] of the deploy button.  Nothing outside the inner [try]
    blocks can throw, so the outer [catch] is never entered. *)
Definition deploy (s : Sys World) : Sys World :=
  let q := queues (app s) in
  let total := totalItems q in
  if Nat.eqb total 0 then
    showNotification "No staged items to deploy!" warning s
  else
    let s := showNotification
               ("Starting deployment of " +:+ string_of_nat total +:+ " items...")
               info s in
    let s := deploy_safes (stagedSafes q) s in
    let s := deploy_members (stagedMembers q) s in
    let s := deploy_accounts (stagedAccounts q) s in
    let s := deploy_safe_removals (stagedSafeRemovals q) s in
    let s := deploy_member_removals (stagedMemberRemovals q) s in
    let s := deploy_account_removals (stagedAccountRemovals q) s in
    let s := deploy_safe_modifications (stagedSafeModifications q) s in
    let s := deploy_member_modifications (stagedMemberModifications q) s in
    let s := deploy_account_modifications (stagedAccountModifications q) s in
    let s := showNotification
               (check_mark +:+ " Deployment completed! " +:+ string_of_nat total
                  +:+ " items processed.") success s in
    update_queues
      (fun q =>
         setStagedAccountModifications []
           (setStagedMemberModifications []
              (setStagedSafeModifications []
                 (setStagedAccountRemovals []
                    (setStagedMemberRemovals []
                       (setStagedSafeRemovals []
                          (setStagedAccounts []
                             (setStagedMembers []
                                (setStagedSafes [] q))))))))) s.

(* ====================================================================== *)
(** ** Session handlers *)
(* ====================================================================== *)

Definition update_auth (f : AuthState -> AuthState) (s : Sys World) : Sys World :=
  update_app (fun a => with_auth (f (auth a)) a) s.

Definition setIsLoggedIn (v : bool) (a : AuthState) : AuthState :=
  {| isLoggedIn := v; vaultUrl := vaultUrl a; username := username a;
     password := password a; authToken := authToken a;
     authError := authError a; isAuthenticating := isAuthenticating a |}.
Definition setVaultUrl (v : string) (a : AuthState) : AuthState :=
  {| isLoggedIn := isLoggedIn a; vaultUrl := v; username := username a;
     password := password a; authToken := authToken a;
     authError := authError a; isAuthenticating := isAuthenticating a |}.
Definition setUsername (v : string) (a : AuthState) : AuthState :=
  {| isLoggedIn := isLoggedIn a; vaultUrl := vaultUrl a; username := v;
     password := password a; authToken := authToken a;
     authError := authError a; isAuthenticating := isAuthenticating a |}.
Definition setPassword (v : string) (a : AuthState) : AuthState :=
  {| isLoggedIn := isLoggedIn a; vaultUrl := vaultUrl a; username := username a;
     password := v; authToken := authToken a;
     authError := authError a; isAuthenticating := isAuthenticating a |}.
Definition setAuthToken (v : json) (a : AuthState) : AuthState :=
  {| isLoggedIn := isLoggedIn a; vaultUrl := vaultUrl a; username := username a;
     password := password a; authToken := v;
     authError := authError a; isAuthenticating := isAuthenticating a |}.
Definition setAuthError (v : string) (a : AuthState) : AuthState :=
  {| isLoggedIn := isLoggedIn a; vaultUrl := vaultUrl a; username := username a;
     password := password a; authToken := authToken a;
     authError := v; isAuthenticating := isAuthenticating a |}.
Definition setIsAuthenticating (v : bool) (a : AuthState) : AuthState :=
  {| isLoggedIn := isLoggedIn a; vaultUrl := vaultUrl a; username := username a;
     password := password a; authToken := authToken a;
     authError := authError a; isAuthenticating := v |}.

(** The [onChange] handlers of the three inputs of the login screen. *)
Definition clear_authError (a : AuthState) : AuthState :=
  if str_truthy (authError a) then setAuthError EmptyString a else a.
Definition onVaultUrlChange (v : string) (s : Sys World) : Sys World :=
  update_auth (fun a => clear_authError (setVaultUrl v a)) s.
Definition onUsernameChange (v : string) (s : Sys World) : Sys World :=
  update_auth (fun a => clear_authError (setUsername v a)) s.
Definition onPasswordChange (v : string) (s : Sys World) : Sys World :=
  update_auth (fun a => clear_authError (setPassword v a)) s.

(** What the [try] block of [authenticate] comes to, given the answer to
    the login request: the token it accepts, or [inl] of the message of the
    error it throws before it has one. *)
Definition login_outcome (res : LoginResult) : string + json :=
  match res with
  | fetch_failed reason => inl reason
  | fetch_response r =>
      if negb (ok r) then
        let errorData := match body r with inr v => v | inl _ => JObj [] end in
        match js_get errorData "error" with
        | inl typeError => inl typeError
        | inr e =>
            match truthy_value e with
            | Some v => inl (Error_message v)
            | None =>
                match js_get errorData "message" with
                | inl typeError => inl typeError
                | inr m =>
                    match truthy_value m with
                    | Some v => inl (Error_message v)
                    | None => inl ("Authentication failed: " +:+ statusText r)
                    end
                end
            end
        end
      else
        match body r with
        | inl syntaxError => inl syntaxError
        | inr loginData =>
            match js_get loginData "token" with
            | inl typeError => inl typeError
            | inr t =>
                let token := js_or t loginData in
                if negb (js_truthy token) then
                  inl "No authentication token received from CyberArk"
                else inr token
            end
        end
  end.

(** The [catch] block of [authenticate]. *)
Definition authentication_failed (thrown : string) (s : Sys World) : Sys World :=
  let errorMessage :=
    if str_truthy thrown then thrown
    else "Authentication failed. Please verify your credentials and try again." in
  showNotification
    (cross_mark +:+ " Authentication failed: " +:+ errorMessage) error
    (update_auth (setAuthError errorMessage) s).

(** [authenticate].  Once a token is accepted, [setAuthToken] runs before
    the two writes to the storage: when printing the token or one of the
    writes throws, the [catch] block runs with the token already set. *)
Definition authenticate (s : Sys World) : Sys World :=
  let a := auth (app s) in
  if negb (str_truthy (vaultUrl a)) || negb (str_truthy (username a))
     || negb (str_truthy (password a)) then
    let msg := "Please enter PVWA URL, username, and password." in
    showNotification msg error (update_auth (setAuthError msg) s)
  else
    let s1 :=
      showNotification "Authenticating with CyberArk..." info
        (update_auth
           (fun a => setIsAuthenticating true (setAuthError EmptyString a)) s) in
    let loginUrl := vaultUrl a +:+ "/auth/login" in
    let '(w, res) := login_respond (world s1) loginUrl (username a) (password a) in
    let s2 :=
      {| app := app s1; storage := storage s1; world := w;
         calls := calls s1 ++ [login_fetch loginUrl (username a) (password a)];
         notes := notes s1 |} in
    let s3 :=
      match login_outcome res with
      | inl thrown => authentication_failed thrown s2
      | inr token =>
          let s_token := update_auth (setAuthToken token) s2 in
          match js_String token with
          | None => authentication_failed cannot_convert s_token
          | Some text =>
              match setItem_throws w "cyberark_token" text with
              | Some thrown => authentication_failed thrown s_token
              | None =>
                  let s_stored :=
                    update_storage (fun st => <["cyberark_token" := text]> st)
                      s_token in
                  match setItem_throws w "cyberark_url" (vaultUrl a) with
                  | Some thrown => authentication_failed thrown s_stored
                  | None =>
                      showNotification
                        (check_mark +:+ " Successfully authenticated with CyberArk!")
                        success
                        (update_auth
                           (fun a => setIsLoggedIn true (setPassword EmptyString a))
                           (update_storage
                              (fun st => <["cyberark_url" := vaultUrl a]> st)
                              s_stored))
                  end
              end
          end
      end in
    update_auth (setIsAuthenticating false) s3.

(** The debug button of the login screen; it is rendered only when
    [DEBUG_MODE] is set.  [now1] and [now2] are the two readings of
    [Date.now()], already printed.  The handler has no [try]: when a write
    to the storage throws it ends there, the setters called before having
    run. *)
Definition debugLogin (now1 now2 : string) (s : Sys World) : Sys World :=
  let s1 :=
    update_auth
      (fun a => setAuthToken (JStr ("debug_token_" +:+ now1))
                  (setVaultUrl "https://cyberark-dev.local:8443" a)) s in
  match setItem_throws (world s) "cyberark_token" ("debug_token_" +:+ now2) with
  | Some _ => s1
  | None =>
      let s2 :=
        update_storage
          (fun st => <["cyberark_token" := "debug_token_" +:+ now2]> st) s1 in
      match setItem_throws (world s) "cyberark_url"
              "https://cyberark-dev.local:8443" with
      | Some _ => s2
      | None =>
          showNotification
            (check_mark +:+ " Debug mode enabled - bypassing authentication")
            success
            (update_auth (setIsLoggedIn true)
               (update_storage
                  (fun st => <["cyberark_url" := "https://cyberark-dev.local:8443"]> st)
                  s2))
      end
  end.

(** The logout button; [removeItem] does not throw. *)
Definition logout (s : Sys World) : Sys World :=
  showNotification (check_mark +:+ " Logged out successfully") success
    (update_auth
       (fun a => setUsername EmptyString
                   (setVaultUrl EmptyString
                      (setAuthToken (JStr EmptyString) (setIsLoggedIn false a))))
       (update_storage
          (fun st => delete "cyberark_url" (delete "cyberark_token" st)) s)).

(** One event of the interface.  Besides the handlers above, any other
    setter of the component may run; none of them writes the session. *)
Context (DEBUG_MODE : bool).

Inductive step : Sys World -> Sys World -> Prop :=
  | step_vaultUrl v s : step s (onVaultUrlChange v s)
  | step_username v s : step s (onUsernameChange v s)
  | step_password v s : step s (onPasswordChange v s)
  | step_authenticate s : step s (authenticate s)
  | step_debugLogin now1 now2 s :
      DEBUG_MODE = true -> step s (debugLogin now1 now2 s)
  | step_logout s : step s (logout s)
  | step_addSafe s : step s (handleAddSafeToStage s)
  | step_addMember s : step s (handleAddCustomMember s)
  | step_addAccount s : step s (handleAddAccountToQueue s)
  | step_stageSafeRemovals s : step s (handleStageSafeRemovals s)
  | step_stageMemberRemovals s : step s (handleStageMemberRemovals s)
  | step_stageAccountRemovals s : step s (handleStageAccountRemovals s)
  | step_saveSafe i s s' : handleSaveModifiedSafe i s = Some s' -> step s s'
  | step_saveMember i s s' : handleSaveModifiedMember i s = Some s' -> step s s'
  | step_saveAccount i s s' : handleSaveModifiedAccount i s = Some s' -> step s s'
  | step_deploy s : step s (deploy s)
  | step_other f s :
      (forall a, auth (f a) = auth a) -> step s (update_app f s).

Inductive reachable : Sys World -> Prop :=
  | reachable_boot st w : reachable (boot st w)
  | reachable_step s s' : reachable s -> step s s' -> reachable s'.

(** The states reached from a given state. *)
Inductive reached_from (s0 : Sys World) : Sys World -> Prop :=
  | reached_start : reached_from s0 s0
  | reached_step s s' : reached_from s0 s -> step s s' -> reached_from s0 s'.

End Handlers.

(* ====================================================================== *)
(** ** Definitions used to state the properties *)
(* ====================================================================== *)

(** Reading a quoted JSON string back: [json_unescape] takes the text after
    the opening quote and returns the decoded string and what follows the
    closing quote.  It is the inverse of [json_escape], and is what shows
    that two permission objects with the same serialisation have the same
    entries in the same order. *)
Definition unhex (c : ascii) : option nat :=
  let n := nat_of_ascii c in
  if (Nat.leb 48 n && Nat.leb n 57)%bool then Some (n - 48)%nat
  else if (Nat.leb 97 n && Nat.leb n 102)%bool then Some (n - 87)%nat
  else None.

Definition unescape_letter (e : ascii) : option ascii :=
  let n := nat_of_ascii e in
  if Nat.eqb n 34 then Some dquote
  else if Nat.eqb n 92 then Some backslash
  else if Nat.eqb n 98 then Some (ascii_of_nat 8)
  else if Nat.eqb n 102 then Some (ascii_of_nat 12)
  else if Nat.eqb n 110 then Some (ascii_of_nat 10)
  else if Nat.eqb n 114 then Some (ascii_of_nat 13)
  else if Nat.eqb n 116 then Some (ascii_of_nat 9)
  else None.

Definition prepend (c : ascii) (r : option (string * string))
    : option (string * string) :=
  match r with
  | Some (k, rest) => Some (String c k, rest)
  | None => None
  end.

Fixpoint json_unescape (s : string) : option (string * string) :=
  match s with
  | EmptyString => None
  | String c r =>
      if Ascii.eqb c dquote then Some (EmptyString, r)
      else if Ascii.eqb c backslash then
        match r with
        | EmptyString => None
        | String e r1 =>
            if Ascii.eqb e "u" then
              match r1 with
              | String _ (String _ (String h (String l r2))) =>
                  match unhex h, unhex l with
                  | Some x, Some y =>
                      prepend (ascii_of_nat (16 * x + y)) (json_unescape r2)
                  | _, _ => None
                  end
              | _ => None
              end
            else
              match unescape_letter e with
              | Some ch => prepend ch (json_unescape r1)
              | None => None
              end
        end
      else prepend c (json_unescape r)
  end.

(** What follows a member in the serialisation of an object. *)
Definition members_tail (p : PermissionSet) : string :=
  match p with
  | [] => EmptyString
  | _ => "," +:+ String.concat "," (map json_member p)
  end.

(** Role detection as the specification words it: the first template, in
    declaration order, that is equal by value to the permission object,
    whatever the order of the keys. *)
Fixpoint detect_by_value_in (templates : list (string * PermissionSet))
    (permissions : PermissionSet) : string :=
  match templates with
  | [] => "Custom"
  | (roleName, rolePerms) :: rest =>
      if deep_equal permissions rolePerms then roleName
      else detect_by_value_in rest permissions
  end.

Definition detect_by_value (permissions : PermissionSet) : string :=
  detect_by_value_in PERM_TEMPLATES permissions.

(** Role detection by entries: the first template with the same keys in
    the same order and the same values. *)
Fixpoint detect_by_entries_in (templates : list (string * PermissionSet))
    (permissions : PermissionSet) : string :=
  match templates with
  | [] => "Custom"
  | (roleName, rolePerms) :: rest =>
      if bool_decide (permissions = rolePerms) then roleName
      else detect_by_entries_in rest permissions
  end.

(** All 22 permissions unchecked, the second check box clicked before the
    first: starting from the empty object of the member form, every box
    is checked and unchecked once. *)
Definition click_order : list string :=
  "RetrieveAccounts" :: "UseAccounts" :: drop 2 PERMISSION_KEYS.

Definition none_by_clicks : PermissionSet :=
  fold_left
    (fun p k => setPermission (setPermission p k true) k false)
    click_order [].

(** The calls a deploy of the queues [q] is to make, in order. *)
Definition deploy_plan (q : Queues) : list ApiCall :=
  map create_safe_call (stagedSafes q)
  ++ map add_member_call (stagedMembers q)
  ++ map create_account_call (stagedAccounts q)
  ++ map delete_safe_call (stagedSafeRemovals q)
  ++ map remove_member_call (stagedMemberRemovals q)
  ++ map delete_account_call (stagedAccountRemovals q)
  ++ map update_safe_call (stagedSafeModifications q)
  ++ map update_member_call (stagedMemberModifications q)
  ++ map update_account_call (stagedAccountModifications q).

(** A non-empty token: a string that is not the empty one. *)
Definition nonempty_token (t : json) : Prop :=
  exists text, t = JStr text /\ text <> EmptyString.

(** A vault whose accepted login answers all carry the token as a string,
    and a browser that accepts every write to the storage. *)
Definition string_tokens {World}
    (login_respond : World -> string -> string -> string -> World * LoginResult)
    : Prop :=
  forall w url user pass token,
    login_outcome (login_respond w url user pass).2 = inr token ->
    exists text, token = JStr text.

Definition storage_accepts {World}
    (setItem_throws : World -> string -> string -> option string) : Prop :=
  forall w key value, setItem_throws w key value = None.

(** A mirror record is selected when the selection maps its id to [true]. *)
Definition is_selected (selection : gmap string bool) (id : string) : bool :=
  match selection !! id with Some b => b | None => false end.

(** Concrete vaults for the examples: one that rejects every call, one
    that accepts every call, and one that answers the login request with
    a given response; the world is the number of requests answered. *)
Definition reject_all (w : nat) (c : ApiCall) : nat * ApiResult :=
  (S w, Rejected "CyberArk API Request Failed: API Error 500: Internal Server Error").

Definition accept_all (w : nat) (c : ApiCall) : nat * ApiResult :=
  (S w, Resolved (JObj [])).

Definition login_answers (r : LoginResult) (w : nat) (url user pass : string)
    : nat * LoginResult :=
  (S w, r).

(** A browser whose storage accepts every write, and one whose storage is
    full. *)
Definition never_throws (w : nat) (key value : string) : option string := None.


(** What a handler that only reports does: the state it is given, with one
    more notification. *)
Definition only_notifies {World} (ty : NotificationType) (s s' : Sys World) : Prop :=
  exists msg, s' = showNotification msg ty s.

(** The required fields of the three creation forms. *)
Definition safe_retention_value (f : SafeForm) : string :=
  if is_versions (retentionMode f) then versionRetention f else daysRetention f.

Definition safe_fields_present (f : SafeForm) : Prop :=
  js_trim (customSafeName f) <> EmptyString
  /\ safe_retention_value f <> EmptyString.

Definition member_fields_present (f : MemberForm) : Prop :=
  targetSafe f <> EmptyString /\ memberName f <> EmptyString.

Definition account_fields_present (f : AccountForm) : Prop :=
  accObject f <> EmptyString /\ accAddress f <> EmptyString
  /\ accUsername f <> EmptyString /\ accPlatformId f <> EmptyString
  /\ accSafeName f <> EmptyString.

(** Example states: the application as it starts with an empty storage,
    then with a creation form filled in. *)
Definition fresh : Sys nat := boot ∅ 0%nat.

Definition safe_form_filled : Sys nat :=
  update_app
    (with_safeForm
       {| customSafeName := "Finance-01"; safeDescription := "Finance team";
          managingCPM := "PasswordManager"; retentionMode := days;
          versionRetention := EmptyString; daysRetention := "30" |}) fresh.

Definition member_form_filled : Sys nat :=
  update_app
    (with_memberForm
       {| targetSafe := "Finance-01"; memberName := "alice";
          memberDomain := "CORP"; memberPermissions := PERM_SM_APP |}) fresh.

Definition account_form_filled : Sys nat :=
  update_app
    (with_accountForm
       {| accObject := "root-db1"; accAddress := "10.0.0.7";
          accUsername := "root"; accPassword := "s3cret";
          accPlatformId := "UnixSSH"; accSafeName := "Finance-01";
          accAutoMgmt := false; accManualReason := "legacy host";
          accRemoteMachines := "jump1" |}) fresh.

Definition safe_form_without_retention : Sys nat :=
  update_app
    (with_safeForm
       {| customSafeName := "Finance-01"; safeDescription := EmptyString;
          managingCPM := EmptyString; retentionMode := versions;
          versionRetention := EmptyString; daysRetention := "30" |}) fresh.


(** An edit saved into a modification queue [q], giving [q']: a queue that
    holds the id keeps its length and every entry its place, the entries
    with that id being replaced by the edit; a queue that does not hold the
    id gets the edit appended. *)
Definition upserted {A} (getid : A -> string) (i : string) (e : A)
    (q q' : list A) : Prop :=
  (i ∈ map getid q ->
   length q' = length q
   /\ (forall (n : nat) (x : A), q !! n = Some x ->
         q' !! n = Some (if String.eqb (getid x) i then e else x))
   /\ (NoDup (map getid q) ->
       forall (n : nat) (x : A), q !! n = Some x -> getid x = i ->
         q' = <[n := e]> q))
  /\ (i ∉ map getid q -> q' = q ++ [e] /\ length q' = S (length q)).

(** Example states of the modify path: the third sample safe is already
    staged, then the first; the edit row of the first is open with a new
    retention of 7 days. *)
Definition safe3_staged : Safe.t :=
  {| Safe.id := "SAFE-003"; Safe.name := "Archive-2022";
     Safe.managingCPM := "CyberArk";
     Safe.numberOfVersionsRetention := Some (JNum "5");
     Safe.numberOfDaysRetention := None |}.

Definition safe1_staged : Safe.t :=
  {| Safe.id := "SAFE-001"; Safe.name := "Legacy-Database";
     Safe.managingCPM := "CyberArk";
     Safe.numberOfVersionsRetention := Some (JNum "10");
     Safe.numberOfDaysRetention := None |}.

Definition safe1_edited : Safe.t :=
  {| Safe.id := "SAFE-001"; Safe.name := "Legacy-Database";
     Safe.managingCPM := "CyberArk";
     Safe.numberOfVersionsRetention := None;
     Safe.numberOfDaysRetention := Some (JStr "7") |}.

Definition editing_safe1 (staged : list Safe.t) : Sys nat :=
  update_queues (setStagedSafeModifications staged)
    (update_app
       (with_safeModification
          {| availableSafesForModification := sample_safes;
             editingSafeId := Some "SAFE-001";
             editedSafeData :=
               {| ed_managingCPM := None; ed_retentionType := Some days;
                  ed_retentionValue := Some (JStr "7") |} |}) fresh).


(** The records of a mirror that are selected, and among records those
    whose id a removal queue already holds, or does not hold yet. *)
Definition picked {A} (getid : A -> string) (selection : gmap string bool)
    (available : list A) : list A :=
  List.filter (fun x => is_selected selection (getid x)) available.

Definition already_staged {A} (getid : A -> string) (staged l : list A) : list A :=
  List.filter (fun x => includes (map getid staged) (getid x)) l.

Definition not_yet_staged {A} (getid : A -> string) (staged l : list A) : list A :=
  List.filter (fun x => negb (includes (map getid staged) (getid x))) l.

(** Example states of the remove path: a selection over the sample
    mirrors, with some records already staged. *)
Definition selecting_safes (selection : gmap string bool) (staged : list Safe.t)
    : Sys nat :=
  update_queues (setStagedSafeRemovals staged)
    (update_app
       (with_safeRemoval
          {| availableSafesForRemoval := sample_safes;
             selectedSafesForRemoval := selection;
             safeRemovalFilter := "e" |}) fresh).

Definition selecting_members (selection : gmap string bool)
    (staged : list Member.t) : Sys nat :=
  update_queues (setStagedMemberRemovals staged)
    (update_app
       (with_memberRemoval
          {| availableMembersForRemoval := sample_members;
             selectedMembersForRemoval := selection;
             memberRemovalFilter := "e";
             memberRemovalSafeFilter := EmptyString |}) fresh).

Definition selecting_accounts (selection : gmap string bool)
    (staged : list Account.t) : Sys nat :=
  update_queues (setStagedAccountRemovals staged)
    (update_app
       (with_accountRemoval
          {| availableAccountsForRemoval := sample_accounts;
             selectedAccountsForRemoval := selection;
             accountRemovalFilter := "a";
             accountRemovalSafeFilter := EmptyString |}) fresh).

Definition first_two_safes : gmap string bool :=
  <["SAFE-001" := true]> (<["SAFE-002" := true]> (<["SAFE-003" := false]> ∅)).
Definition first_two_members : gmap string bool :=
  <["MEM-001" := true]> (<["MEM-002" := true]> ∅).
Definition first_two_accounts : gmap string bool :=
  <["ACC-001" := true]> (<["ACC-002" := true]> ∅).


(** Example state of the deploy: one safe to create, one member to remove
    and one account to modify are staged. *)
Definition staged_safe : NewSafe.t :=
  {| NewSafe.name := "Finance-01"; NewSafe.description := EmptyString;
     NewSafe.CPMManaging := "PasswordManager";
     NewSafe.retentionMode := versions; NewSafe.retentionValue := "10" |}.

Definition three_staged : Sys nat :=
  update_queues
    (fun q =>
       setStagedAccountModifications (take 1 sample_accounts)
         (setStagedMemberRemovals (take 1 sample_members)
            (setStagedSafes [staged_safe] q))) fresh.


(** The state a deploy loop or a notification leaves: the calls made so
    far extended by [made], the application state changed in its
    notification only. *)
Definition advanced {World} (made : list ApiCall) (s s' : Sys World) : Prop :=
  calls s' = calls s ++ map api_call made
  /\ storage s' = storage s
  /\ exists n, app s' = with_notification n (app s).


(** Example states and answers of the session: the login form filled in
    from a fresh start; a successful response whose body is the empty
    object, and one that carries a token; a storage that holds the token
    of an earlier session. *)
Definition credentials_entered : Sys nat :=
  onPasswordChange "hunter2"
    (onUsernameChange "admin"
       (onVaultUrlChange "https://pvwa.example.com" fresh)).

Definition ok_without_token : LoginResult :=
  fetch_response {| ok := true; statusText := "OK"; body := inr (JObj []) |}.

Definition ok_with_token : LoginResult :=
  fetch_response
    {| ok := true; statusText := "OK";
       body := inr (JObj [("token", JStr "abc123")]) |}.

Definition stored_token : Storage := {[ "cyberark_token" := "abc123" ]}.

(* ====================================================================== *)
(** ** The API layer *)
(* ====================================================================== *)

(** [String.prototype.endsWith]. *)
Fixpoint drop_chars (n : nat) (s : string) : string :=
  match n, s with
  | O, _ => s
  | S n', String _ r => drop_chars n' r
  | S _, EmptyString => EmptyString
  end.

Definition endsWith (s suffix : string) : bool :=
  Nat.leb (String.length suffix) (String.length s)
  && String.eqb (drop_chars (String.length s - String.length suffix) s) suffix.

(** The base of every API URL:
    [vaultUrl && vaultUrl.endsWith('/api') ? vaultUrl : `${vaultUrl}/api`]. *)
Definition baseURL (vaultUrl : string) : string :=
  if str_truthy vaultUrl && endsWith vaultUrl "/api" then vaultUrl
  else vaultUrl +:+ "/api".

(** [encodeURIComponent] on the strings of this development, whose code
    units are below 256: the unreserved characters are kept, every other
    one is written as the percent escapes of its UTF-8 bytes.  None of
    these code units is a surrogate, so the function does not throw on
    them. *)
Definition is_unreserved (c : ascii) : bool :=
  let n := nat_of_ascii c in
  (Nat.leb 65 n && Nat.leb n 90) || (Nat.leb 97 n && Nat.leb n 122)
  || (Nat.leb 48 n && Nat.leb n 57)
  || Nat.eqb n 45 || Nat.eqb n 95 || Nat.eqb n 46 || Nat.eqb n 33
  || Nat.eqb n 126 || Nat.eqb n 42 || Nat.eqb n 39 || Nat.eqb n 40
  || Nat.eqb n 41.

Definition upper_hex (n : nat) : ascii :=
  ascii_of_nat (if Nat.ltb n 10 then 48 + n else 55 + n)%nat.

Definition percent (n : nat) : string :=
  String "%" (String (upper_hex (n / 16)) (String (upper_hex (n mod 16)) EmptyString)).

Definition encode_unit (c : ascii) : string :=
  let n := nat_of_ascii c in
  if is_unreserved c then String c EmptyString
  else if Nat.ltb n 128 then percent n
  else percent (192 + n / 64) +:+ percent (128 + n mod 64).

Fixpoint encodeURIComponent (s : string) : string :=
  match s with
  | EmptyString => EmptyString
  | String c r => encode_unit c +:+ encodeURIComponent r
  end.

(** What [makeAPIRequest] hands to [fetch]: the URL, the method, the
    bearer header and the object that is serialised as the body ([None]
    when the call has no body). *)
Record HttpRequest : Type := {
  req_url : string;
  req_method : string;
  req_authorization : string;
  req_payload : option json }.

Definition perms_json (p : PermissionSet) : json :=
  JObj (map (fun kv => (kv.1, JBool kv.2)) p).

(** A key of a payload whose value is [undefined] is not serialised. *)
Definition defined_key {A} (k : string) (to_json : A -> json) (v : option A)
    : list (string * json) :=
  match v with
  | Some x => [(k, to_json x)]
  | None => []
  end.

(** The endpoint, the method and the payload of each method of [safeAPI],
    [memberAPI] and [accountAPI], for the arguments the deploy handler
    passes. *)
Definition api_endpoint (c : ApiCall) : string :=
  match c with
  | safeAPI_create _ => "/safes"
  | memberAPI_add safeName _ =>
      "/safes/" +:+ encodeURIComponent safeName +:+ "/members"
  | accountAPI_create _ => "/accounts"
  | safeAPI_delete safeId => "/safes/" +:+ encodeURIComponent safeId
  | memberAPI_remove safeName memberName =>
      "/safes/" +:+ encodeURIComponent safeName +:+ "/members/"
        +:+ encodeURIComponent memberName
  | accountAPI_delete accountId => "/accounts/" +:+ encodeURIComponent accountId
  | safeAPI_update safeId _ => "/safes/" +:+ encodeURIComponent safeId
  | memberAPI_updatePermissions safeName memberName _ =>
      "/safes/" +:+ encodeURIComponent safeName +:+ "/members/"
        +:+ encodeURIComponent memberName
  | accountAPI_update accountId _ =>
      "/accounts/" +:+ encodeURIComponent accountId
  end.

Definition api_method (c : ApiCall) : string :=
  match c with
  | safeAPI_create _ | memberAPI_add _ _ | accountAPI_create _ => "POST"
  | safeAPI_delete _ | memberAPI_remove _ _ | accountAPI_delete _ => "DELETE"
  | safeAPI_update _ _ | memberAPI_updatePermissions _ _ _
  | accountAPI_update _ _ => "PUT"
  end.

Definition api_payload (c : ApiCall) : option (list (string * json)) :=
  match c with
  | safeAPI_create safeData =>
      Some [ ("safeName", JStr (sc_name safeData));
             ("description", JStr (sc_description safeData));
             ("managingCPM", JStr (sc_managingCPM safeData));
             ("numberOfVersionsRetention",
              js_or (Some (sc_numberOfVersionsRetention safeData)) JNull);
             ("numberOfDaysRetention",
              js_or (Some (sc_numberOfDaysRetention safeData)) JNull) ]
  | memberAPI_add _ memberData =>
      Some (defined_key "memberName" JStr
              (if str_truthy (NewMember.member memberData)
               then Some (NewMember.member memberData) else None)
            ++ [ ("memberType", JStr "Domain");
                 ("searchIn",
                  JStr (if str_truthy (NewMember.domain memberData)
                        then NewMember.domain memberData else "Domain"));
                 ("permissions", perms_json (NewMember.perms memberData)) ])
  | accountAPI_create accountData =>
      Some ([ ("name", JStr (NewAccount.userName accountData));
              ("address", JStr (NewAccount.address accountData));
              ("userName", JStr (NewAccount.userName accountData));
              ("secret", JStr (NewAccount.secret accountData));
              ("platformId", JStr (NewAccount.platformId accountData));
              ("safeName", JStr (NewAccount.safeName accountData));
              ("automaticManagementEnabled",
               JBool (NewAccount.automaticManagement accountData));
              ("manualManagementReason",
               if str_truthy (NewAccount.manualManagementReason accountData)
               then JStr (NewAccount.manualManagementReason accountData)
               else JNull);
              ("remoteMachinesAccess",
               JStr (if str_truthy (NewAccount.remoteMachines accountData)
                     then "Yes" else "No")) ]
            ++ (if str_truthy (NewAccount.object accountData)
                then [("id", JStr (NewAccount.object accountData))] else []))
  | safeAPI_delete _ | memberAPI_remove _ _ | accountAPI_delete _ => None
  | safeAPI_update _ updateData =>
      Some [ ("managingCPM", JStr (su_managingCPM updateData));
             ("numberOfVersionsRetention", su_numberOfVersionsRetention updateData);
             ("numberOfDaysRetention", su_numberOfDaysRetention updateData) ]
  | memberAPI_updatePermissions _ _ permissions =>
      Some [ ("permissions", perms_json permissions) ]
  | accountAPI_update _ updateData =>
      Some (defined_key "address" JStr (au_address updateData)
            ++ defined_key "secret" JStr (au_secret updateData)
            ++ defined_key "userName" JStr (au_userName updateData)
            ++ defined_key "automaticManagementEnabled" JBool
                 (au_automaticManagement updateData)
            ++ defined_key "manualManagementReason" JStr
                 (au_manualManagementReason updateData))
  end.

(** The request of an API call, with the vault URL and the token of the
    render the API layer was built in; [None] when the token cannot be
    printed in the header (the options are built before the [try] block,
    and no request is made). *)
Definition api_request (vault : string) (token : json) (c : ApiCall)
    : option HttpRequest :=
  match js_String token with
  | None => None
  | Some text =>
      Some {| req_url := baseURL vault +:+ api_endpoint c;
              req_method := api_method c;
              req_authorization := "Bearer " +:+ text;
              req_payload := option_map JObj (api_payload c) |}
  end.






(** Example: the template SM-APP with one permission unchecked. *)
Definition sm_app_without_list : PermissionSet :=
  setPermission PERM_SM_APP "ListAccounts" false.


(* ====================================================================== *)
(** ** The rest of the interface *)
(* ====================================================================== *)

(** *** Objects used as maps from names

    An object literal keyed by names that the user types is the list of
    its own entries in the order [Object.keys] enumerates them: the keys
    that are array indices first, in ascending order, then the other keys
    in the order they were added.  Reading [object[key]] answers with the
    own entry when there is one, and otherwise with what the object
    inherits from [Object.prototype]. *)

(** The properties of [Object.prototype].  Each of them holds a function,
    or for [__proto__] the prototype itself: a truthy value with no own
    enumerable property. *)
Definition Object_prototype_keys : list string :=
  [ "constructor"; "hasOwnProperty"; "isPrototypeOf"; "propertyIsEnumerable";
    "toLocaleString"; "toString"; "valueOf"; "__proto__";
    "__defineGetter__"; "__defineSetter__"; "__lookupGetter__";
    "__lookupSetter__" ].

Definition inherited (key : string) : bool := includes Object_prototype_keys key.

(** Whether [object[key]] is truthy, for an object whose own values have
    the truthiness [truthy]. *)
Definition read_truthy {A} (truthy : A -> bool) (o : list (string * A))
    (key : string) : bool :=
  match assoc_get key o with
  | Some v => truthy v
  | None => inherited key
  end.

(** An array index: the canonical decimal text of an integer from 0 to
    2^32 - 2. *)
Definition digit_value (c : ascii) : option N :=
  let n := nat_of_ascii c in
  if (Nat.leb 48 n && Nat.leb n 57)%bool then Some (N.of_nat (n - 48)) else None.

Fixpoint digits_value (acc : N) (s : string) : option N :=
  match s with
  | EmptyString => Some acc
  | String c r =>
      match digit_value c with
      | Some d => digits_value (10 * acc + d)%N r
      | None => None
      end
  end.

Definition array_index (key : string) : option N :=
  match key with
  | EmptyString => None
  | String c r =>
      if (Ascii.eqb c "0" && negb (String.eqb r EmptyString))%bool then None
      else if Nat.ltb 10 (String.length key) then None
      else
        match digits_value 0%N key with
        | Some n => if (n <=? 4294967294)%N then Some n else None
        | None => None
        end
  end.

(** A new key that is an array index takes its place among the array
    indices. *)
Fixpoint insert_index {A} (n : N) (key : string) (value : A)
    (o : list (string * A)) : list (string * A) :=
  match o with
  | [] => [(key, value)]
  | (k, v) :: rest =>
      match array_index k with
      | Some m =>
          if (m <? n)%N then (k, v) :: insert_index n key value rest
          else (key, value) :: o
      | None => (key, value) :: o
      end
  end.

(** [{ ...object, [key]: value }]: an own key keeps its place and gets the
    value; a new key is added, an array index among the array indices and
    any other key last. *)
Definition set_key {A} (o : list (string * A)) (key : string) (value : A)
    : list (string * A) :=
  match assoc_get key o with
  | Some _ =>
      map (fun kv => if String.eqb (fst kv) key then (fst kv, value) else kv) o
  | None =>
      match array_index key with
      | Some n => insert_index n key value o
      | None => o ++ [(key, value)]
      end
  end.

(** [delete object[key]]. *)
Definition delete_key {A} (o : list (string * A)) (key : string)
    : list (string * A) :=
  List.filter (fun kv => negb (String.eqb (fst kv) key)) o.

(** A standard member of the member creation tab. *)
Module StandardMember.
Record t : Type := {
  member : string;
  domain : string;
  perms : PermissionSet;
  role : string }.
End StandardMember.

Definition GLOBAL_STANDARD_MEMBERS : list StandardMember.t :=
  [ {| StandardMember.member := "G_PAM_ADMINS"; StandardMember.domain := "Vault";
       StandardMember.perms := PERM_FULL; StandardMember.role := "Full" |};
    {| StandardMember.member := "G_PROVISIONING_AUTOMATION";
       StandardMember.domain := "Vault";
       StandardMember.perms := PERM_SM_PROV; StandardMember.role := "SM-PROV" |};
    {| StandardMember.member := "G_APPLICATION_READERS";
       StandardMember.domain := "Vault";
       StandardMember.perms := PERM_SM_APP; StandardMember.role := "SM-APP" |};
    {| StandardMember.member := "G_SAFE_HOLDERS_GLOBAL";
       StandardMember.domain := "Vault";
       StandardMember.perms := PERM_SM_HOLDER; StandardMember.role := "SM-HOLDER" |} ].

(** The state of the standard members: the managed list, the selection
    and the permissions edited per member, the two objects as their own
    entries in enumeration order. *)
Record MemberEditor : Type := {
  managedStandardMembers : list StandardMember.t;
  standardMembersSelection : list (string * bool);
  standardMembersPermissions : list (string * PermissionSet) }.

Definition initial_editor : MemberEditor :=
  {| managedStandardMembers := GLOBAL_STANDARD_MEMBERS;
     standardMembersSelection := [];
     standardMembersPermissions := [] |}.

(** [array.filter((_, i) => i !== idx)], the [onRemove] of a queue. *)
Fixpoint filter_index {A} (keep : nat -> bool) (i : nat) (l : list A) : list A :=
  match l with
  | [] => []
  | x :: r =>
      if keep i then x :: filter_index keep (S i) r
      else filter_index keep (S i) r
  end.

Definition remove_index {A} (idx : nat) (l : list A) : list A :=
  filter_index (fun i => negb (Nat.eqb i idx)) 0 l.

Section Interface.

Context {World : Type}.
Implicit Types s : Sys World.

(** The entry staged for one selected standard member.  The permissions
    are those edited for the member,
    [standardMembersPermissions[memberKey] ? {...it} : {...member.perms}]:
    for a name that the object inherits and does not own, the spread of
    the inherited value is the empty object.  Reading a field of a member
    that the managed list does not hold throws a TypeError ([None]). *)
Definition standard_entry (ed : MemberEditor) (target memberKey : string)
    : option NewMember.t :=
  match List.find (fun m => String.eqb (StandardMember.member m) memberKey)
          (managedStandardMembers ed) with
  | None => None
  | Some member =>
      let perms :=
        match assoc_get memberKey (standardMembersPermissions ed) with
        | Some p => p
        | None =>
            if inherited memberKey then [] else StandardMember.perms member
        end in
      Some {| NewMember.safe := target;
              NewMember.member := StandardMember.member member;
              NewMember.domain := StandardMember.domain member;
              NewMember.perms := perms;
              NewMember.roleLabel := detectRoleFromPermissions perms |}
  end.

(** [Object.keys(standardMembersSelection).filter(key => it[key])]: the
    own keys, in enumeration order, whose value is [true]. *)
Definition selectedMembers (ed : MemberEditor) : list string :=
  List.filter
    (fun key =>
       match assoc_get key (standardMembersSelection ed) with
       | Some b => b
       | None => false
       end)
    ((standardMembersSelection ed).*1).

Definition handleAddStandardMembers (ed : MemberEditor) (s : Sys World)
    : option (Sys World * MemberEditor) :=
  let f := memberForm (app s) in
  if negb (str_truthy (targetSafe f)) then
    Some (showNotification "Please specify a target Safe!" error s, ed)
  else if Nat.eqb (length (selectedMembers ed)) 0 then
    Some (showNotification "Please select at least one standard member!" error s,
          ed)
  else
    match mapM (standard_entry ed (targetSafe f)) (selectedMembers ed) with
    | None => None
    | Some newEntries =>
        Some (update_queues
                (fun q => setStagedMembers (stagedMembers q ++ newEntries) q) s,
              {| managedStandardMembers := managedStandardMembers ed;
                 standardMembersSelection := [];
                 standardMembersPermissions := [] |})
    end.

(** The check box of a standard member:
    [{...selection, [memberName]: !selection[memberName]}], and the
    permissions of the member are copied for editing when
    [!standardMembersPermissions[memberName]].  Both reads answer with an
    inherited value for a name of [Object.prototype] that the object does
    not own: the first click on such a member stores [false], and its
    permissions are not copied.  The check box belongs to the row of a
    managed member; for another name the lookup of the member throws
    ([None]). *)
Definition toggleStandardMember (memberName : string) (ed : MemberEditor)
    : option MemberEditor :=
  let selection :=
    set_key (standardMembersSelection ed) memberName
      (negb (read_truthy (fun b : bool => b) (standardMembersSelection ed)
               memberName)) in
  if read_truthy (fun _ : PermissionSet => true) (standardMembersPermissions ed)
       memberName then
    Some {| managedStandardMembers := managedStandardMembers ed;
            standardMembersSelection := selection;
            standardMembersPermissions := standardMembersPermissions ed |}
  else
    match List.find (fun m => String.eqb (StandardMember.member m) memberName)
            (managedStandardMembers ed) with
    | None => None
    | Some member =>
        Some {| managedStandardMembers := managedStandardMembers ed;
                standardMembersSelection := selection;
                standardMembersPermissions :=
                  set_key (standardMembersPermissions ed) memberName
                    (StandardMember.perms member) |}
    end.

(** The [onRemove] handlers of the nine queue sections. *)
Definition removeStagedSafe (idx : nat) s : Sys World :=
  update_queues (fun q => setStagedSafes (remove_index idx (stagedSafes q)) q) s.
Definition removeStagedMember (idx : nat) s : Sys World :=
  update_queues (fun q => setStagedMembers (remove_index idx (stagedMembers q)) q) s.
Definition removeStagedAccount (idx : nat) s : Sys World :=
  update_queues (fun q => setStagedAccounts (remove_index idx (stagedAccounts q)) q) s.
Definition removeStagedSafeRemoval (idx : nat) s : Sys World :=
  update_queues
    (fun q => setStagedSafeRemovals (remove_index idx (stagedSafeRemovals q)) q) s.
Definition removeStagedMemberRemoval (idx : nat) s : Sys World :=
  update_queues
    (fun q => setStagedMemberRemovals (remove_index idx (stagedMemberRemovals q)) q) s.
Definition removeStagedAccountRemoval (idx : nat) s : Sys World :=
  update_queues
    (fun q => setStagedAccountRemovals (remove_index idx (stagedAccountRemovals q)) q) s.
Definition removeStagedSafeModification (idx : nat) s : Sys World :=
  update_queues
    (fun q =>
       setStagedSafeModifications (remove_index idx (stagedSafeModifications q)) q) s.
Definition removeStagedMemberModification (idx : nat) s : Sys World :=
  update_queues
    (fun q =>
       setStagedMemberModifications
         (remove_index idx (stagedMemberModifications q)) q) s.
Definition removeStagedAccountModification (idx : nat) s : Sys World :=
  update_queues
    (fun q =>
       setStagedAccountModifications
         (remove_index idx (stagedAccountModifications q)) q) s.

(** The click on a row of a removal list: the selection of the id is
    flipped, unless the id is already staged. *)
Definition toggleSafeForRemoval (id : string) s : Sys World :=
  let r := safeRemoval (app s) in
  if includes (map Safe.id (stagedSafeRemovals (queues (app s)))) id then s
  else
    update_app
      (with_safeRemoval
         {| availableSafesForRemoval := availableSafesForRemoval r;
            selectedSafesForRemoval :=
              <[id := negb (is_selected (selectedSafesForRemoval r) id)]>
                (selectedSafesForRemoval r);
            safeRemovalFilter := safeRemovalFilter r |}) s.

Definition toggleMemberForRemoval (id : string) s : Sys World :=
  let r := memberRemoval (app s) in
  if includes (map Member.id (stagedMemberRemovals (queues (app s)))) id then s
  else
    update_app
      (with_memberRemoval
         {| availableMembersForRemoval := availableMembersForRemoval r;
            selectedMembersForRemoval :=
              <[id := negb (is_selected (selectedMembersForRemoval r) id)]>
                (selectedMembersForRemoval r);
            memberRemovalFilter := memberRemovalFilter r;
            memberRemovalSafeFilter := memberRemovalSafeFilter r |}) s.

Definition toggleAccountForRemoval (id : string) s : Sys World :=
  let r := accountRemoval (app s) in
  if includes (map Account.id (stagedAccountRemovals (queues (app s)))) id then s
  else
    update_app
      (with_accountRemoval
         {| availableAccountsForRemoval := availableAccountsForRemoval r;
            selectedAccountsForRemoval :=
              <[id := negb (is_selected (selectedAccountsForRemoval r) id)]>
                (selectedAccountsForRemoval r);
            accountRemovalFilter := accountRemovalFilter r;
            accountRemovalSafeFilter := accountRemovalSafeFilter r |}) s.

(** The Edit button of a row of a modification list, and the Cancel
    button of the row being edited. *)
Definition startEditSafe (safe : Safe.t) s : Sys World :=
  let m := safeModification (app s) in
  update_app
    (with_safeModification
       {| availableSafesForModification := availableSafesForModification m;
          editingSafeId := Some (Safe.id safe);
          editedSafeData :=
            {| ed_managingCPM := None;
               ed_retentionType :=
                 Some (if opt_truthy (Safe.numberOfVersionsRetention safe)
                       then versions else days);
               ed_retentionValue :=
                 js_or_undef (Safe.numberOfVersionsRetention safe)
                   (Safe.numberOfDaysRetention safe) |} |}) s.

Definition startEditMember (member : Member.t) s : Sys World :=
  let m := memberModification (app s) in
  update_app
    (with_memberModification
       {| availableMembersForModification := availableMembersForModification m;
          editingMemberId := Some (Member.id member);
          editedMemberData :=
            {| ed_perms :=
                 Some (match Member.perms member with Some p => p | None => [] end) |}
       |}) s.

Definition startEditAccount (account : Account.t) s : Sys World :=
  let m := accountModification (app s) in
  update_app
    (with_accountModification
       {| availableAccountsForModification := availableAccountsForModification m;
          editingAccountId := Some (Account.id account);
          editedAccountData := editedAccountData m |}) s.

Definition cancelEditSafe s : Sys World :=
  update_app
    (with_safeModification
       {| availableSafesForModification :=
            availableSafesForModification (safeModification (app s));
          editingSafeId := None; editedSafeData := no_safe_edits |}) s.

Definition cancelEditMember s : Sys World :=
  update_app
    (with_memberModification
       {| availableMembersForModification :=
            availableMembersForModification (memberModification (app s));
          editingMemberId := None; editedMemberData := no_member_edits |}) s.

Definition cancelEditAccount s : Sys World :=
  update_app
    (with_accountModification
       {| availableAccountsForModification :=
            availableAccountsForModification (accountModification (app s));
          editingAccountId := None; editedAccountData := no_account_edits |}) s.

(** What every other event of the interface leaves as it is: the nine
    queues, the three removal selections and the three rows being edited.
    The events that write one of them are the handlers modelled here, and
    no other. *)
Definition keeps_staging s s' : Prop :=
  queues (app s') = queues (app s)
  /\ selectedSafesForRemoval (safeRemoval (app s'))
     = selectedSafesForRemoval (safeRemoval (app s))
  /\ selectedMembersForRemoval (memberRemoval (app s'))
     = selectedMembersForRemoval (memberRemoval (app s))
  /\ selectedAccountsForRemoval (accountRemoval (app s'))
     = selectedAccountsForRemoval (accountRemoval (app s))
  /\ editingSafeId (safeModification (app s'))
     = editingSafeId (safeModification (app s))
  /\ editingMemberId (memberModification (app s'))
     = editingMemberId (memberModification (app s))
  /\ editingAccountId (accountModification (app s'))
     = editingAccountId (accountModification (app s)).

Context (api_respond : World -> ApiCall -> World * ApiResult).

(** One event of the interface, as the rendered controls allow it: the
    Edit button of a row is disabled while the id of the row is staged,
    the Save button belongs to the row being edited, and a row is rendered
    for a record of the mirror. *)
Inductive ui_step : Sys World -> Sys World -> Prop :=
  | ui_addSafe s : ui_step s (handleAddSafeToStage s)
  | ui_addMember s : ui_step s (handleAddCustomMember s)
  | ui_addAccount s : ui_step s (handleAddAccountToQueue s)
  | ui_addStandardMembers ed ed' s s' :
      handleAddStandardMembers ed s = Some (s', ed') -> ui_step s s'
  | ui_removeStagedSafe i s : ui_step s (removeStagedSafe i s)
  | ui_removeStagedMember i s : ui_step s (removeStagedMember i s)
  | ui_removeStagedAccount i s : ui_step s (removeStagedAccount i s)
  | ui_removeStagedSafeRemoval i s : ui_step s (removeStagedSafeRemoval i s)
  | ui_removeStagedMemberRemoval i s : ui_step s (removeStagedMemberRemoval i s)
  | ui_removeStagedAccountRemoval i s : ui_step s (removeStagedAccountRemoval i s)
  | ui_removeStagedSafeModification i s :
      ui_step s (removeStagedSafeModification i s)
  | ui_removeStagedMemberModification i s :
      ui_step s (removeStagedMemberModification i s)
  | ui_removeStagedAccountModification i s :
      ui_step s (removeStagedAccountModification i s)
  | ui_toggleSafe id s : ui_step s (toggleSafeForRemoval id s)
  | ui_toggleMember id s : ui_step s (toggleMemberForRemoval id s)
  | ui_toggleAccount id s : ui_step s (toggleAccountForRemoval id s)
  | ui_stageSafeRemovals s : ui_step s (handleStageSafeRemovals s)
  | ui_stageMemberRemovals s : ui_step s (handleStageMemberRemovals s)
  | ui_stageAccountRemovals s : ui_step s (handleStageAccountRemovals s)
  | ui_startEditSafe safe s :
      In safe (availableSafesForModification (safeModification (app s))) ->
      includes (map Safe.id (stagedSafeModifications (queues (app s))))
        (Safe.id safe) = false ->
      ui_step s (startEditSafe safe s)
  | ui_startEditMember member s :
      In member (availableMembersForModification (memberModification (app s))) ->
      includes (map Member.id (stagedMemberModifications (queues (app s))))
        (Member.id member) = false ->
      ui_step s (startEditMember member s)
  | ui_startEditAccount account s :
      In account (availableAccountsForModification (accountModification (app s))) ->
      includes (map Account.id (stagedAccountModifications (queues (app s))))
        (Account.id account) = false ->
      ui_step s (startEditAccount account s)
  | ui_cancelEditSafe s : ui_step s (cancelEditSafe s)
  | ui_cancelEditMember s : ui_step s (cancelEditMember s)
  | ui_cancelEditAccount s : ui_step s (cancelEditAccount s)
  | ui_saveSafe id s s' :
      editingSafeId (safeModification (app s)) = Some id ->
      handleSaveModifiedSafe id s = Some s' -> ui_step s s'
  | ui_saveMember id s s' :
      editingMemberId (memberModification (app s)) = Some id ->
      handleSaveModifiedMember id s = Some s' -> ui_step s s'
  | ui_saveAccount id s s' :
      editingAccountId (accountModification (app s)) = Some id ->
      handleSaveModifiedAccount id s = Some s' -> ui_step s s'
  | ui_deploy s : ui_step s (deploy api_respond s)
  | ui_other s s' : keeps_staging s s' -> ui_step s s'.

Inductive ui_reachable : Sys World -> Prop :=
  | ui_reachable_boot st w : ui_reachable (boot st w)
  | ui_reachable_step s s' : ui_reachable s -> ui_step s s' -> ui_reachable s'.

End Interface.


(** What the entries of the queues satisfy, as the handlers that build
    them leave them. *)
Definition staged_safe_ok (x : NewSafe.t) : Prop :=
  js_trim (NewSafe.name x) <> EmptyString
  /\ NewSafe.retentionValue x <> EmptyString.

Definition staged_member_ok (x : NewMember.t) : Prop :=
  NewMember.safe x <> EmptyString
  /\ NewMember.roleLabel x = detectRoleFromPermissions (NewMember.perms x).

Definition staged_account_ok (x : NewAccount.t) : Prop :=
  NewAccount.object x <> EmptyString
  /\ NewAccount.address x <> EmptyString
  /\ NewAccount.userName x <> EmptyString
  /\ NewAccount.platformId x <> EmptyString
  /\ NewAccount.safeName x <> EmptyString
  /\ (NewAccount.automaticManagement x = true ->
      NewAccount.manualManagementReason x = EmptyString).

Definition safe_modification_ok (x : Safe.t) : Prop :=
  Safe.numberOfVersionsRetention x = None
  \/ Safe.numberOfDaysRetention x = None.

Definition member_modification_ok (x : Member.t) : Prop :=
  Member.role x
  = detectRoleFromPermissions
      (match Member.perms x with Some p => p | None => [] end).

Definition well_staged (q : Queues) : Prop :=
  Forall staged_safe_ok (stagedSafes q)
  /\ Forall staged_member_ok (stagedMembers q)
  /\ Forall staged_account_ok (stagedAccounts q)
  /\ Forall safe_modification_ok (stagedSafeModifications q)
  /\ Forall member_modification_ok (stagedMemberModifications q).

(** The modification queues hold no id twice, and the row being edited is
    not staged. *)
Definition edit_rows_ok (a : AppState) : Prop :=
  (NoDup (map Safe.id (stagedSafeModifications (queues a)))
   /\ NoDup (map Member.id (stagedMemberModifications (queues a)))
   /\ NoDup (map Account.id (stagedAccountModifications (queues a))))
  /\ (forall id, editingSafeId (safeModification a) = Some id ->
        id ∉ map Safe.id (stagedSafeModifications (queues a)))
  /\ (forall id, editingMemberId (memberModification a) = Some id ->
        id ∉ map Member.id (stagedMemberModifications (queues a)))
  /\ (forall id, editingAccountId (accountModification a) = Some id ->
        id ∉ map Account.id (stagedAccountModifications (queues a))).

(** No selected id is in the removal queue of its kind. *)
Definition selections_ok (a : AppState) : Prop :=
  (forall id, is_selected (selectedSafesForRemoval (safeRemoval a)) id = true ->
     id ∉ map Safe.id (stagedSafeRemovals (queues a)))
  /\ (forall id, is_selected (selectedMembersForRemoval (memberRemoval a)) id = true ->
        id ∉ map Member.id (stagedMemberRemovals (queues a)))
  /\ (forall id, is_selected (selectedAccountsForRemoval (accountRemoval a)) id = true ->
        id ∉ map Account.id (stagedAccountRemovals (queues a))).

Definition ui_invariant (a : AppState) : Prop :=
  well_staged (queues a) /\ edit_rows_ok a /\ selections_ok a.


(** Example states of the interface: from a fresh start, the edit row of
    the first sample safe is opened; the first sample member is selected
    for removal, staged, and selected again. *)
Definition sample_safe1 : Safe.t :=
  {| Safe.id := "SAFE-001"; Safe.name := "Legacy-Database";
     Safe.managingCPM := "CyberArk";
     Safe.numberOfVersionsRetention := Some (JNum "10");
     Safe.numberOfDaysRetention := Some JNull |}.

Definition row_of_safe1_open : Sys nat := startEditSafe sample_safe1 fresh.

Definition member1_staged_and_clicked : Sys nat :=
  toggleMemberForRemoval "MEM-001"
    (handleStageMemberRemovals (toggleMemberForRemoval "MEM-001" fresh)).


(** The value a request carries under a key of its payload. *)
Definition payload_field (k : string) (c : ApiCall) : option json :=
  match api_payload c with
  | Some fields => assoc_get k fields
  | None => None
  end.

(** The answers of the vault to calls made one after the other, and the
    world they leave. *)
Fixpoint vault_answers {World} (respond : World -> ApiCall -> World * ApiResult)
    (w : World) (plan : list ApiCall) : list ApiResult :=
  match plan with
  | [] => []
  | c :: rest =>
      let '(w', r) := respond w c in r :: vault_answers respond w' rest
  end.

Fixpoint vault_after {World} (respond : World -> ApiCall -> World * ApiResult)
    (w : World) (plan : list ApiCall) : World :=
  match plan with
  | [] => w
  | c :: rest => vault_after respond (fst (respond w c)) rest
  end.

(** The two notifications of one item of a deploy. *)
Definition item_report (r : ApiResult) : list NotificationType :=
  [info; match r with Resolved _ => success | Rejected _ => error end].

(** A vault that rejects every second call. *)
Definition reject_every_second (w : nat) (c : ApiCall) : nat * ApiResult :=
  (S w, if Nat.even w then Resolved (JObj []) else Rejected "API Error 409: Conflict").


(** What a deploy has logged and asked since the state [s]: notifications
    of the types [before], then the two notifications of each call of
    [made] as the vault answered it, then notifications of the types
    [after]; the vault is the one the calls leave. *)
Definition reported {World} (respond : World -> ApiCall -> World * ApiResult)
    (before : list NotificationType) (made : list ApiCall)
    (after : list NotificationType) (s s' : Sys World) : Prop :=
  map type (notes s')
  = map type (notes s) ++ before
      ++ flat_map item_report (vault_answers respond (world s) made) ++ after
  /\ world s' = vault_after respond (world s) made.


(* ====================================================================== *)
(** ** The editor of the standard members *)
(* ====================================================================== *)

(** The form of a new standard member.  Its [perms] are an object in
    every state: [{}] at the start and after an addition, and
    [PERM_TEMPLATES[role] || {}] after a template is chosen. *)
Record NewMemberForm : Type := {
  nm_member : string;
  nm_domain : string;
  nm_role : string;
  nm_perms : PermissionSet }.

Definition empty_newMemberForm : NewMemberForm :=
  {| nm_member := EmptyString; nm_domain := "Vault"; nm_role := EmptyString;
     nm_perms := [] |}.

Definition updateStandardMemberPerm (memberName perm : string) (value : bool)
    (ed : MemberEditor) : MemberEditor :=
  {| managedStandardMembers := managedStandardMembers ed;
     standardMembersSelection := standardMembersSelection ed;
     standardMembersPermissions :=
       set_key (standardMembersPermissions ed) memberName
         (setPermission
            (match assoc_get memberName (standardMembersPermissions ed) with
             | Some p => p
             | None => []
             end) perm value) |}.

(** [updateManagedMember(memberName, { perms, role })]. *)
Definition updateManagedMember (memberName : string) (perms : PermissionSet)
    (role : string) (ed : MemberEditor) : MemberEditor :=
  {| managedStandardMembers :=
       map (fun m =>
              if String.eqb (StandardMember.member m) memberName
              then {| StandardMember.member := StandardMember.member m;
                      StandardMember.domain := StandardMember.domain m;
                      StandardMember.perms := perms;
                      StandardMember.role := role |}
              else m)
         (managedStandardMembers ed);
     standardMembersSelection := standardMembersSelection ed;
     standardMembersPermissions := standardMembersPermissions ed |}.

(** The [onChange] of a check box of the permissions grid of a member:
    both setters run on the state of the render. *)
Definition permissionChanged (memberName perm : string) (checked : bool)
    (ed : MemberEditor) : MemberEditor :=
  let updatedPerms :=
    setPermission
      (match assoc_get memberName (standardMembersPermissions ed) with
       | Some p => p
       | None => []
       end) perm checked in
  updateManagedMember memberName updatedPerms
    (detectRoleFromPermissions updatedPerms)
    (updateStandardMemberPerm memberName perm checked ed).

Definition removeStandardMember (memberName : string) (ed : MemberEditor)
    : MemberEditor :=
  {| managedStandardMembers :=
       List.filter
         (fun m => negb (String.eqb (StandardMember.member m) memberName))
         (managedStandardMembers ed);
     standardMembersSelection := delete_key (standardMembersSelection ed) memberName;
     standardMembersPermissions :=
       delete_key (standardMembersPermissions ed) memberName |}.

(** The Add button of the form of a new standard member.
    [newMemberForm.perms] is an object, so the fall-back
    [|| PERM_TEMPLATES.PAM] is never taken.  With an empty member name the
    handler calls [showNotification], which is not in scope in
    [MemberManagementSection]: it throws a ReferenceError ([None]) and
    changes nothing. *)
Definition addNewStandardMember (form : NewMemberForm) (ed : MemberEditor)
    : option (MemberEditor * NewMemberForm) :=
  if negb (str_truthy (js_trim (nm_member form))) then None
  else
    Some
      ({| managedStandardMembers :=
            managedStandardMembers ed
              ++ [ {| StandardMember.member := nm_member form;
                      StandardMember.domain := nm_domain form;
                      StandardMember.perms := nm_perms form;
                      StandardMember.role :=
                        detectRoleFromPermissions (nm_perms form) |} ];
          standardMembersSelection := standardMembersSelection ed;
          standardMembersPermissions := standardMembersPermissions ed |},
       empty_newMemberForm).

Section Editor.

Context {World : Type}.
Implicit Types s : Sys World.

(** One event of the editor: the check box, a permission and the Remove
    button belong to the row of a managed member, and the permissions grid
    of a row is rendered when [standardMembersSelection[member.member]] is
    truthy. *)
Inductive editor_step : MemberEditor -> MemberEditor -> Prop :=
  | editor_toggle m ed ed' :
      In m (managedStandardMembers ed) ->
      toggleStandardMember (StandardMember.member m) ed = Some ed' ->
      editor_step ed ed'
  | editor_permission m perm checked ed :
      In m (managedStandardMembers ed) ->
      read_truthy (fun b : bool => b) (standardMembersSelection ed)
        (StandardMember.member m) = true ->
      editor_step ed (permissionChanged (StandardMember.member m) perm checked ed)
  | editor_add form ed ed' form' :
      addNewStandardMember form ed = Some (ed', form') -> editor_step ed ed'
  | editor_remove m ed :
      In m (managedStandardMembers ed) ->
      editor_step ed (removeStandardMember (StandardMember.member m) ed)
  | editor_stage ed ed' s s' :
      handleAddStandardMembers ed s = Some (s', ed') -> editor_step ed ed'.

Inductive editor_reachable : MemberEditor -> Prop :=
  | editor_reachable_start : editor_reachable initial_editor
  | editor_reachable_step ed ed' :
      editor_reachable ed -> editor_step ed ed' -> editor_reachable ed'.

End Editor.

(** The managed member a key of the selection stands for. *)
Definition managed_member (ed : MemberEditor) (key : string)
    : option StandardMember.t :=
  List.find (fun m => String.eqb (StandardMember.member m) key)
    (managedStandardMembers ed).

(** The entry staged for a managed member with given permissions. *)
Definition entry_with (target : string) (m : StandardMember.t)
    (perms : PermissionSet) : NewMember.t :=
  {| NewMember.safe := target;
     NewMember.member := StandardMember.member m;
     NewMember.domain := StandardMember.domain m;
     NewMember.perms := perms;
     NewMember.roleLabel := detectRoleFromPermissions perms |}.

(** A member whose permissions were never written to the object of the
    edited permissions although its name reads as present there: the name
    is a property of [Object.prototype]. *)
Definition shadowed (ed : MemberEditor) (key : string) : bool :=
  inherited key
  && negb (bool_decide (is_Some (assoc_get key (standardMembersPermissions ed)))).

Definition entry_of (ed : MemberEditor) (target : string) (m : StandardMember.t)
    : NewMember.t :=
  entry_with target m
    (if shadowed ed (StandardMember.member m) then []
     else StandardMember.perms m).

(** Every own key of the selection names a managed member, and has its
    permissions among the edited ones unless its name is inherited; the
    permissions edited for a name are those of the managed member of that
    name. *)
Definition editor_ok (ed : MemberEditor) : Prop :=
  (forall key, is_Some (assoc_get key (standardMembersSelection ed)) ->
     is_Some (managed_member ed key)
     /\ (is_Some (assoc_get key (standardMembersPermissions ed))
         \/ inherited key = true))
  /\ (forall key p,
        assoc_get key (standardMembersPermissions ed) = Some p ->
        exists m, managed_member ed key = Some m /\ StandardMember.perms m = p).

(** Example.  Three members named 10, 9 and constructor are added, and
    the safe holders and the three of them are checked in this order, the
    member named constructor twice: its first click stores [false].  Each
    step is the click of a control of the editor, on the row of a managed
    member. *)
Definition new_member (name : string) : NewMemberForm :=
  {| nm_member := name; nm_domain := "Vault"; nm_role := "SM-APP";
     nm_perms := PERM_SM_APP |}.

Definition then_add (name : string) (ed : option MemberEditor)
    : option MemberEditor :=
  match ed with
  | Some e => option_map fst (addNewStandardMember (new_member name) e)
  | None => None
  end.

Definition then_toggle (name : string) (ed : option MemberEditor)
    : option MemberEditor :=
  match ed with
  | Some e =>
      match managed_member e name with
      | Some _ => toggleStandardMember name e
      | None => None
      end
  | None => None
  end.

Definition odd_names_selected : option MemberEditor :=
  then_toggle "constructor"
    (then_toggle "constructor"
       (then_toggle "9"
          (then_toggle "10"
             (then_toggle "G_SAFE_HOLDERS_GLOBAL"
                (then_add "constructor"
                   (then_add "9" (then_add "10" (Some initial_editor)))))))).

Definition reachable_editor (ed : option MemberEditor) : Prop :=
  match ed with
  | Some e => editor_reachable (World := nat) e
  | None => True
  end.

(* ====================================================================== *)
(** * Properties *)
(* ====================================================================== *)

(** ** Serialisation of permission objects *)

#[local] Arguments String.append !_ _ / : simpl nomatch.

Lemma json_unescape_char (c : ascii) (tail : string) :
  json_unescape (json_escape_char c +:+ tail) = prepend c (json_unescape tail).
Proof.
  destruct c as [[] [] [] [] [] [] [] []]; reflexivity.
Qed.

Lemma append_assoc (a b c : string) : (a +:+ b) +:+ c = a +:+ (b +:+ c).
Proof. induction a as [|x a IH]; simpl; [reflexivity | now rewrite IH]. Qed.

Lemma append_nil_r (a : string) : a +:+ EmptyString = a.
Proof. induction a as [|x a IH]; simpl; [reflexivity | now rewrite IH]. Qed.

(** Decoding an escaped string gives the string back, and stops at the
    closing quote. *)
Lemma json_unescape_escape (k rest : string) :
  json_unescape (json_escape k +:+ String dquote rest) = Some (k, rest).
Proof.
  induction k as [|c k IH]; cbn [json_escape].
  - reflexivity.
  - rewrite append_assoc, json_unescape_char, IH. reflexivity.
Qed.

Lemma json_escape_inj (k1 k2 r1 r2 : string) :
  json_escape k1 +:+ String dquote r1 = json_escape k2 +:+ String dquote r2 ->
  k1 = k2 /\ r1 = r2.
Proof.
  intros E. apply (f_equal json_unescape) in E.
  rewrite !json_unescape_escape in E. now inversion E.
Qed.

Lemma concat_members_cons (kv : string * bool) (p : PermissionSet) :
  String.concat "," (map json_member (kv :: p)) = json_member kv +:+ members_tail p.
Proof.
  destruct p as [|x p]; cbn [map String.concat members_tail].
  - now rewrite append_nil_r.
  - reflexivity.
Qed.

Lemma members_closed_cons (k : string) (v : bool) (p : PermissionSet) (close : string) :
  String.concat "," (map json_member ((k, v) :: p)) +:+ close
  = String dquote
      (json_escape k +:+
         String dquote (":" +:+ (if v then "true" else "false")
                            +:+ members_tail p +:+ close)).
Proof.
  rewrite concat_members_cons. unfold json_member, json_quote. simpl.
  f_equal. rewrite !append_assoc. simpl. now rewrite !append_assoc.
Qed.

Lemma members_inj (p q : PermissionSet) (close : string) :
  String.concat "," (map json_member p) +:+ "}"
  = String.concat "," (map json_member q) +:+ "}" ->
  p = q.
Proof.
  clear close. revert q.
  induction p as [|[k1 v1] p IH]; intros [|[k2 v2] q] E.
  - reflexivity.
  - rewrite members_closed_cons in E. discriminate E.
  - rewrite members_closed_cons in E. discriminate E.
  - rewrite !members_closed_cons in E.
    injection E as E. apply json_escape_inj in E as [-> E].
    assert (v1 = v2 /\ members_tail p +:+ "}" = members_tail q +:+ "}") as [-> E'].
    { destruct v1, v2; simpl in E; try discriminate E;
        injection E as E; (split; [reflexivity | exact E]). }
    f_equal. destruct p as [|x p], q as [|y q].
    + reflexivity.
    + discriminate E'.
    + discriminate E'.
    + apply IH.
      change (String "," (String.concat "," (map json_member (x :: p)) +:+ "}")
              = String "," (String.concat "," (map json_member (y :: q)) +:+ "}"))
        in E'.
      now injection E'.
Qed.

(** Two permission objects have the same [JSON.stringify] text exactly
    when they have the same entries in the same order. *)
Lemma JSON_stringify_inj (p q : PermissionSet) :
  JSON_stringify p = JSON_stringify q <-> p = q.
Proof.
  split; [|now intros ->].
  unfold JSON_stringify. intros E. simpl in E. injection E as E.
  exact (members_inj p q EmptyString E).
Qed.

Lemma stringify_eqb_decide (p q : PermissionSet) :
  String.eqb (JSON_stringify p) (JSON_stringify q) = bool_decide (p = q).
Proof.
  destruct (String.eqb_spec (JSON_stringify p) (JSON_stringify q)) as [E|N].
  - apply JSON_stringify_inj in E. symmetry. now apply bool_decide_eq_true.
  - symmetry. apply bool_decide_eq_false. intros ->. now apply N.
Qed.

Lemma detect_in_by_entries (ts : list (string * PermissionSet)) (p : PermissionSet) :
  detect_in ts p = detect_by_entries_in ts p.
Proof.
  induction ts as [|[name t] ts IH];
    cbn [detect_in detect_by_entries_in]; [reflexivity|].
  now rewrite stringify_eqb_decide, IH.
Qed.

(** ** Role detection (C3) *)

(** What the role detection does.  [detectRoleFromPermissions] returns
    the name of the first template, in declaration order, whose entries
    are those of the permission object: the same keys, enumerated in the
    same order, with the same values; it returns Custom when there is
    none.  It is total.  Each template is detected under its own name
    except FULL, whose entries are those of PAM and which is detected as
    PAM: the name FULL is never returned. *)
Theorem detectRole_first_template_with_same_entries :
  (forall p : PermissionSet,
     detectRoleFromPermissions p = detect_by_entries_in PERM_TEMPLATES p)
  /\ (forall p : PermissionSet,
        Forall (fun nt => p <> nt.2) PERM_TEMPLATES ->
        detectRoleFromPermissions p = "Custom")
  /\ (forall p : PermissionSet,
        detectRoleFromPermissions p
          ∈ ["PAM"; "SM-HOLDER"; "SM-PROV"; "SM-APP"; "NONE"; "Custom"])
  /\ detectRoleFromPermissions PERM_PAM = "PAM"
  /\ detectRoleFromPermissions PERM_SM_HOLDER = "SM-HOLDER"
  /\ detectRoleFromPermissions PERM_SM_PROV = "SM-PROV"
  /\ detectRoleFromPermissions PERM_SM_APP = "SM-APP"
  /\ detectRoleFromPermissions PERM_NONE = "NONE"
  /\ detectRoleFromPermissions PERM_FULL = "PAM".
Proof.
  split; [intros p; apply detect_in_by_entries|].
  split.
  { intros p H. unfold detectRoleFromPermissions.
    rewrite detect_in_by_entries.
    induction H as [|[name t] ts Hne _ IH];
      cbn [detect_by_entries_in]; [reflexivity|].
    rewrite bool_decide_eq_false_2 by exact Hne. exact IH. }
  split.
  { intros p. unfold detectRoleFromPermissions, PERM_TEMPLATES.
    cbn [detect_in]. change PERM_FULL with PERM_PAM.
    destruct (String.eqb (JSON_stringify p) (JSON_stringify PERM_PAM));
      [set_solver|].
    repeat match goal with
           | |- context [String.eqb ?a ?b] => destruct (String.eqb a b)
           end; set_solver. }
  repeat split; vm_compute; reflexivity.
Qed.

(** C3 fails on the code.  The role detection compares the
    [JSON.stringify] texts of the permission object and of a template,
    which agree only when the keys are enumerated in the same order.  The
    permission object with all 22 permissions unchecked, built by clicking
    the second check box before the first, has distinct keys and is equal
    by value to the template NONE, for which the detection by value
    answers NONE; yet [detectRoleFromPermissions] answers Custom. *)
Lemma detectRole_ignores_reordered_keys :
  keys_distinct none_by_clicks = true
  /\ deep_equal none_by_clicks PERM_NONE = true
  /\ detect_by_value none_by_clicks = "NONE"
  /\ detectRoleFromPermissions none_by_clicks = "Custom"
  /\ detectRoleFromPermissions none_by_clicks <> detect_by_value none_by_clicks.
Proof.
  repeat split; try (vm_compute; reflexivity).
  vm_compute. discriminate.
Qed.

(** ** Staging a creation (C4, C5) *)

Lemma str_truthy_true (x : string) : str_truthy x = true <-> x <> EmptyString.
Proof. destruct x; simpl; split; intros; congruence. Qed.

Section Creation.

Context {World : Type}.
Implicit Types s : Sys World.

Lemma only_notifies_frame ty s s' :
  only_notifies ty s s' ->
  queues (app s') = queues (app s) /\ calls s' = calls s
  /\ safeForm (app s') = safeForm (app s)
  /\ memberForm (app s') = memberForm (app s)
  /\ accountForm (app s') = accountForm (app s)
  /\ exists msg,
       notification (app s') = Some {| message := msg; type := ty |}
       /\ notes s' = notes s ++ [ {| message := msg; type := ty |} ].
Proof.
  intros [msg ->]. repeat split. exists msg. split; reflexivity.
Qed.

Lemma handleAddSafeToStage_rejects s :
  js_trim (customSafeName (safeForm (app s))) = EmptyString
  \/ safe_retention_value (safeForm (app s)) = EmptyString ->
  only_notifies error s (handleAddSafeToStage s).
Proof.
  intros H. unfold handleAddSafeToStage.
  destruct (str_truthy (js_trim (customSafeName (safeForm (app s))))) eqn:En; simpl.
  - destruct H as [H|H]; [rewrite H in En; discriminate|].
    unfold safe_retention_value in H. rewrite H. simpl. eexists. reflexivity.
  - eexists. reflexivity.
Qed.

Lemma handleAddCustomMember_rejects s :
  targetSafe (memberForm (app s)) = EmptyString
  \/ memberName (memberForm (app s)) = EmptyString ->
  only_notifies error s (handleAddCustomMember s).
Proof.
  intros H. unfold handleAddCustomMember.
  destruct H as [H|H]; rewrite H; simpl; rewrite ?orb_true_r;
    eexists; reflexivity.
Qed.

Lemma handleAddAccountToQueue_rejects s :
  accObject (accountForm (app s)) = EmptyString
  \/ accAddress (accountForm (app s)) = EmptyString
  \/ accUsername (accountForm (app s)) = EmptyString
  \/ accPlatformId (accountForm (app s)) = EmptyString
  \/ accSafeName (accountForm (app s)) = EmptyString ->
  only_notifies error s (handleAddAccountToQueue s).
Proof.
  intros H. unfold handleAddAccountToQueue.
  destruct H as [H|[H|[H|[H|H]]]]; rewrite H; simpl;
    rewrite ?orb_true_r; simpl; eexists; reflexivity.
Qed.

(** C5.  Staging a creation with a required field empty (safe: the name,
    or the retention value of the selected retention mode; account: object
    id, address, user name, platform id or safe name; member: target safe or
    member name) leaves every queue and every form as it was, makes no
    network call, and reports one notification of type error. *)
Theorem staging_create_with_missing_field_is_rejected s :
  (customSafeName (safeForm (app s)) = EmptyString
   \/ safe_retention_value (safeForm (app s)) = EmptyString ->
   let s' := handleAddSafeToStage s in
   stagedSafes (queues (app s')) = stagedSafes (queues (app s))
   /\ queues (app s') = queues (app s) /\ calls s' = calls s
   /\ exists msg,
        notification (app s') = Some {| message := msg; type := error |}
        /\ notes s' = notes s ++ [ {| message := msg; type := error |} ])
  /\ (accObject (accountForm (app s)) = EmptyString
      \/ accAddress (accountForm (app s)) = EmptyString
      \/ accUsername (accountForm (app s)) = EmptyString
      \/ accPlatformId (accountForm (app s)) = EmptyString
      \/ accSafeName (accountForm (app s)) = EmptyString ->
      let s' := handleAddAccountToQueue s in
      stagedAccounts (queues (app s')) = stagedAccounts (queues (app s))
      /\ queues (app s') = queues (app s) /\ calls s' = calls s
      /\ exists msg,
           notification (app s') = Some {| message := msg; type := error |}
           /\ notes s' = notes s ++ [ {| message := msg; type := error |} ])
  /\ (targetSafe (memberForm (app s)) = EmptyString
      \/ memberName (memberForm (app s)) = EmptyString ->
      let s' := handleAddCustomMember s in
      stagedMembers (queues (app s')) = stagedMembers (queues (app s))
      /\ queues (app s') = queues (app s) /\ calls s' = calls s
      /\ exists msg,
           notification (app s') = Some {| message := msg; type := error |}
           /\ notes s' = notes s ++ [ {| message := msg; type := error |} ]).
Proof.
  split; [|split].
  - intros H s'.
    assert (only_notifies error s s') as N.
    { apply handleAddSafeToStage_rejects.
      destruct H as [H|H]; [left; now rewrite H | now right]. }
    apply only_notifies_frame in N as (Q & C & _ & _ & _ & M).
    now rewrite Q.
  - intros H s'.
    pose proof (handleAddAccountToQueue_rejects s H) as N.
    apply only_notifies_frame in N as (Q & C & _ & _ & _ & M).
    fold s' in Q, C, M. now rewrite Q.
  - intros H s'.
    pose proof (handleAddCustomMember_rejects s H) as N.
    apply only_notifies_frame in N as (Q & C & _ & _ & _ & M).
    fold s' in Q, C, M. now rewrite Q.
Qed.

(** C4, as the code has it.  Staging a creation with the required fields
    present appends exactly one entry to the creation queue of the kind.
    The safe form is then reset to its defaults.  The account form has
    object id, address, user name, password, manual reason and remote
    machines cleared, and keeps platform id, safe name and the automatic
    management flag as entered.  The member form has the member name
    cleared and keeps target safe, domain and permissions. *)
Theorem staging_create_appends_one_entry s :
  (safe_fields_present (safeForm (app s)) ->
   let f := safeForm (app s) in
   let s' := handleAddSafeToStage s in
   stagedSafes (queues (app s'))
     = stagedSafes (queues (app s))
         ++ [ {| NewSafe.name := customSafeName f;
                 NewSafe.description := safeDescription f;
                 NewSafe.CPMManaging := managingCPM f;
                 NewSafe.retentionMode := retentionMode f;
                 NewSafe.retentionValue := safe_retention_value f |} ]
   /\ length (stagedSafes (queues (app s')))
        = S (length (stagedSafes (queues (app s))))
   /\ safeForm (app s') = default_safeForm)
  /\ (account_fields_present (accountForm (app s)) ->
      let f := accountForm (app s) in
      let s' := handleAddAccountToQueue s in
      stagedAccounts (queues (app s'))
        = stagedAccounts (queues (app s))
            ++ [ {| NewAccount.object := accObject f;
                    NewAccount.address := accAddress f;
                    NewAccount.userName := accUsername f;
                    NewAccount.secret := accPassword f;
                    NewAccount.platformId := accPlatformId f;
                    NewAccount.safeName := accSafeName f;
                    NewAccount.automaticManagement := accAutoMgmt f;
                    NewAccount.manualManagementReason :=
                      if accAutoMgmt f then EmptyString else accManualReason f;
                    NewAccount.remoteMachines := accRemoteMachines f |} ]
      /\ length (stagedAccounts (queues (app s')))
           = S (length (stagedAccounts (queues (app s))))
      /\ accountForm (app s')
           = {| accObject := EmptyString; accAddress := EmptyString;
                accUsername := EmptyString; accPassword := EmptyString;
                accPlatformId := accPlatformId f; accSafeName := accSafeName f;
                accAutoMgmt := accAutoMgmt f; accManualReason := EmptyString;
                accRemoteMachines := EmptyString |})
  /\ (member_fields_present (memberForm (app s)) ->
      let f := memberForm (app s) in
      let s' := handleAddCustomMember s in
      stagedMembers (queues (app s'))
        = stagedMembers (queues (app s))
            ++ [ {| NewMember.safe := targetSafe f;
                    NewMember.member := memberName f;
                    NewMember.domain := memberDomain f;
                    NewMember.perms := memberPermissions f;
                    NewMember.roleLabel :=
                      detectRoleFromPermissions (memberPermissions f) |} ]
      /\ length (stagedMembers (queues (app s')))
           = S (length (stagedMembers (queues (app s))))
      /\ memberForm (app s')
           = {| targetSafe := targetSafe f; memberName := EmptyString;
                memberDomain := memberDomain f;
                memberPermissions := memberPermissions f |}).
Proof.
  split; [|split].
  - intros [Hn Hr] f s'. subst s'. unfold handleAddSafeToStage.
    apply str_truthy_true in Hn, Hr. unfold safe_retention_value in Hr.
    fold f. fold f in Hn, Hr. rewrite Hn, Hr. cbn.
    repeat split. now rewrite length_app, Nat.add_1_r.
  - intros (H1 & H2 & H3 & H4 & H5) f s'. subst s'.
    unfold handleAddAccountToQueue.
    apply str_truthy_true in H1, H2, H3, H4, H5.
    fold f. fold f in H1, H2, H3, H4, H5. rewrite H1, H2, H3, H4, H5. cbn.
    repeat split. now rewrite length_app, Nat.add_1_r.
  - intros [H1 H2] f s'. subst s'. unfold handleAddCustomMember.
    apply str_truthy_true in H1, H2.
    fold f. fold f in H1, H2. rewrite H1, H2. cbn [negb orb].
    cbn [update_app update_queues app queues with_queues with_memberForm
         setStagedMembers stagedMembers memberForm].
    repeat split. now rewrite length_app, Nat.add_1_r.
Qed.

End Creation.

(** ** Saving an edit (C6) *)

Lemma includes_elem_of (l : list string) (x : string) :
  includes l x = true <-> x ∈ l.
Proof.
  unfold includes. rewrite existsb_exists, list_elem_of_In. split.
  - intros (y & Hy & E). apply String.eqb_eq in E. now subst.
  - intros H. exists x. split; [exact H | apply String.eqb_refl].
Qed.

Lemma includes_not_elem_of (l : list string) (x : string) :
  includes l x = false <-> x ∉ l.
Proof.
  rewrite <- includes_elem_of. destruct (includes l x); split; congruence.
Qed.

Lemma find_by_id {A} (getid : A -> string) (i : string) (l : list A) (b : A) :
  List.find (fun x => String.eqb (getid x) i) l = Some b -> getid b = i.
Proof.
  intros H. apply find_some in H as [_ E]. now apply String.eqb_eq.
Qed.

(** The two assignments of a save handler make an upsert. *)
Lemma save_is_upsert {A} (getid : A -> string) (i : string) (e : A) (q : list A) :
  upserted getid i e q
    (if includes (map getid q) i
     then map (fun x => if String.eqb (getid x) i then e else x) q
     else q ++ [e]).
Proof.
  split.
  - intros Hin. rewrite (proj2 (includes_elem_of _ _) Hin).
    split; [apply length_map|]. split.
    + intros n x Hx. now rewrite list_lookup_fmap, Hx.
    + intros Hnd n x Hx Hid. apply list_eq. intros m.
      rewrite list_lookup_fmap.
      destruct (decide (m = n)) as [->|Hne].
      * rewrite list_lookup_insert_eq by (eapply lookup_lt_Some; exact Hx).
        rewrite Hx. simpl. now rewrite Hid, String.eqb_refl.
      * rewrite list_lookup_insert_ne by congruence.
        destruct (q !! m) as [y|] eqn:Hy; [|reflexivity]. simpl.
        destruct (String.eqb_spec (getid y) i) as [E|_]; [|reflexivity].
        exfalso. apply Hne.
        eapply (NoDup_lookup (map getid q) m n i); [exact Hnd| |].
        -- now rewrite list_lookup_fmap, Hy; simpl; rewrite E.
        -- now rewrite list_lookup_fmap, Hx; simpl; rewrite Hid.
  - intros Hnin. rewrite (proj2 (includes_not_elem_of _ _) Hnin).
    split; [reflexivity|]. now rewrite length_app, Nat.add_1_r.
Qed.

Section Modification.

Context {World : Type}.
Implicit Types s : Sys World.

(** C6.  For each kind, saving the edit of a record of the mirror stages
    the edited record, which carries the id of the record.  When the
    modification queue already holds that id, the queue keeps its length
    and every entry its position, the entry with that id being replaced by
    the edited record; otherwise the edited record is appended and the
    queue is one longer. *)
Theorem saving_an_edit_upserts_the_modification_queue s (i : string) :
  (forall base,
     List.find (fun x => String.eqb (Safe.id x) i)
       (availableSafesForModification (safeModification (app s))) = Some base ->
     let e := editedSafeOf base (editedSafeData (safeModification (app s))) in
     exists s', handleSaveModifiedSafe i s = Some s'
       /\ Safe.id e = i
       /\ upserted Safe.id i e
            (stagedSafeModifications (queues (app s)))
            (stagedSafeModifications (queues (app s'))))
  /\ (forall base,
        List.find (fun x => String.eqb (Member.id x) i)
          (availableMembersForModification (memberModification (app s)))
          = Some base ->
        let e := editedMemberOf base (editedMemberData (memberModification (app s))) in
        exists s', handleSaveModifiedMember i s = Some s'
          /\ Member.id e = i
          /\ upserted Member.id i e
               (stagedMemberModifications (queues (app s)))
               (stagedMemberModifications (queues (app s'))))
  /\ (forall base,
        List.find (fun x => String.eqb (Account.id x) i)
          (availableAccountsForModification (accountModification (app s)))
          = Some base ->
        let e := editedAccountOf base
                   (editedAccountData (accountModification (app s))) in
        exists s', handleSaveModifiedAccount i s = Some s'
          /\ Account.id e = i
          /\ upserted Account.id i e
               (stagedAccountModifications (queues (app s)))
               (stagedAccountModifications (queues (app s')))).
Proof.
  split; [|split]; intros base Hfind e.
  - unfold handleSaveModifiedSafe. rewrite Hfind. eexists. split; [reflexivity|].
    split; [exact (find_by_id Safe.id i _ base Hfind)|].
    fold e.
    pose proof (save_is_upsert Safe.id i e
                  (stagedSafeModifications (queues (app s)))) as U.
    destruct (includes (map Safe.id (stagedSafeModifications (queues (app s)))) i);
      exact U.
  - unfold handleSaveModifiedMember. rewrite Hfind. eexists. split; [reflexivity|].
    split; [exact (find_by_id Member.id i _ base Hfind)|].
    fold e.
    pose proof (save_is_upsert Member.id i e
                  (stagedMemberModifications (queues (app s)))) as U.
    destruct (includes (map Member.id (stagedMemberModifications (queues (app s)))) i);
      exact U.
  - unfold handleSaveModifiedAccount. rewrite Hfind. eexists. split; [reflexivity|].
    split; [exact (find_by_id Account.id i _ base Hfind)|].
    fold e.
    pose proof (save_is_upsert Account.id i e
                  (stagedAccountModifications (queues (app s)))) as U.
    destruct (includes (map Account.id (stagedAccountModifications (queues (app s)))) i);
      exact U.
Qed.

End Modification.

(** ** Staging removals (C7, C8) *)

Lemma includes_selectedIds (selection : gmap string bool) (i : string) :
  includes (selectedIds selection) i = is_selected selection i.
Proof.
  unfold is_selected.
  destruct (includes (selectedIds selection) i) eqn:E.
  - apply includes_elem_of, list_elem_of_In, filter_In in E as [_ E].
    now destruct (selection !! i) as [[]|].
  - apply includes_not_elem_of in E.
    destruct (selection !! i) as [[]|] eqn:L; try reflexivity.
    exfalso. apply E, list_elem_of_In, filter_In. split.
    + apply list_elem_of_In, list_elem_of_fmap. exists (i, true).
      split; [reflexivity|]. now apply elem_of_map_to_list.
    + now rewrite L.
Qed.

Lemma existsb_id_includes {A} (getid : A -> string) (staged : list A) (i : string) :
  existsb (fun st => String.eqb (getid st) i) staged = includes (map getid staged) i.
Proof.
  unfold includes. induction staged as [|x l IH]; simpl; [reflexivity|].
  now rewrite IH, String.eqb_sym.
Qed.

Lemma filter_andb {A} (f g : A -> bool) (l : list A) :
  List.filter (fun x => f x && g x) l = List.filter g (List.filter f l).
Proof.
  induction l as [|x l IH]; simpl; [reflexivity|].
  destruct (f x); simpl; [destruct (g x)|]; now rewrite IH.
Qed.

Lemma length_eqb_0 {A} (l : list A) : Nat.eqb (length l) 0 = true <-> l = [].
Proof. destruct l; simpl; split; intros; congruence. Qed.

Lemma picked_nil_of_no_selection {A} (getid : A -> string)
    (selection : gmap string bool) (available : list A) :
  selectedIds selection = [] -> picked getid selection available = [].
Proof.
  intros E. unfold picked.
  rewrite (filter_ext _ (fun _ => false)).
  - induction available; simpl; congruence.
  - intros x. now rewrite <- includes_selectedIds, E.
Qed.

Lemma picked_by_selectedIds {A} (getid : A -> string)
    (selection : gmap string bool) (available : list A) :
  List.filter (fun x => includes (selectedIds selection) (getid x)) available
  = picked getid selection available.
Proof. apply filter_ext. intros x. apply includes_selectedIds. Qed.

Lemma filter_nil_Forall {A} (f : A -> bool) (l : list A) :
  List.filter f l = [] <-> Forall (fun x => f x = false) l.
Proof.
  induction l as [|x l IH]; simpl.
  - split; [constructor | reflexivity].
  - destruct (f x) eqn:E; split; intros H.
    + discriminate.
    + inversion H; congruence.
    + constructor; [exact E | now apply IH].
    + inversion H; now apply IH.
Qed.

Lemma filter_all_Forall {A} (f : A -> bool) (l : list A) :
  Forall (fun x => f x = true) l -> List.filter f l = l.
Proof.
  induction 1 as [|x l Hx _ IH]; simpl; [reflexivity|]. now rewrite Hx, IH.
Qed.

Lemma not_yet_staged_fresh {A} (getid : A -> string) (staged l : list A) :
  Forall (fun x => getid x ∉ map getid staged) (not_yet_staged getid staged l).
Proof.
  apply Forall_forall. intros x Hx.
  apply list_elem_of_In, filter_In in Hx as [_ Hx].
  apply includes_not_elem_of. now destruct (includes _ _).
Qed.

Section Removal.

Context {World : Type}.
Implicit Types s : Sys World.

(** What the safe removal handler does, by cases on what is selected. *)
Lemma handleStageSafeRemovals_cases s :
  let r := safeRemoval (app s) in
  let staged := stagedSafeRemovals (queues (app s)) in
  let chosen :=
    picked Safe.id (selectedSafesForRemoval r) (availableSafesForRemoval r) in
  let items := not_yet_staged Safe.id staged chosen in
  (selectedIds (selectedSafesForRemoval r) = []
   /\ chosen = []
   /\ handleStageSafeRemovals s
      = showNotification "Please select at least one Safe to remove!" error s)
  \/ (selectedIds (selectedSafesForRemoval r) <> []
      /\ items = []
      /\ handleStageSafeRemovals s
         = showNotification "All selected Safes are already queued!" warning s)
  \/ (items <> []
      /\ handleStageSafeRemovals s
         = update_app
             (with_safeRemoval
                {| availableSafesForRemoval := availableSafesForRemoval r;
                   selectedSafesForRemoval := ∅;
                   safeRemovalFilter := EmptyString |})
             (update_queues (setStagedSafeRemovals (staged ++ items)) s)).
Proof.
  intros r staged chosen items. unfold handleStageSafeRemovals.
  fold r staged.
  assert (List.filter
            (fun safe =>
               includes (selectedIds (selectedSafesForRemoval r)) (Safe.id safe)
               && negb (existsb (fun st => String.eqb (Safe.id st) (Safe.id safe))
                          staged))
            (availableSafesForRemoval r) = items) as ->.
  { rewrite filter_andb, picked_by_selectedIds. apply filter_ext.
    intros x. now rewrite existsb_id_includes. }
  destruct (Nat.eqb (length (selectedIds (selectedSafesForRemoval r))) 0) eqn:E0.
  { apply length_eqb_0 in E0. left. split; [exact E0|]. split; [|reflexivity].
    now apply picked_nil_of_no_selection. }
  right. destruct (Nat.eqb (length items) 0) eqn:E1.
  - apply length_eqb_0 in E1. left. split; [|split; [exact E1 | reflexivity]].
    intros C. rewrite C in E0. discriminate.
  - right. split; [|reflexivity]. intros C. rewrite C in E1. discriminate.
Qed.

(** C7.  Let the chosen safes be the safes of the mirror whose id the
    selection maps to true, N their number.  When none of their ids is in
    the removal queue the queue gets the N chosen safes appended.  When
    there is a chosen safe and all their ids are in the queue, the queue is
    unchanged and a warning is reported.  In every case the queue gets
    exactly the chosen safes not staged yet appended, and when there is
    such a safe the selection and the free-text filter are cleared. *)
Theorem safe_removal_staging_stages_the_new_selection s :
  let r := safeRemoval (app s) in
  let staged := stagedSafeRemovals (queues (app s)) in
  let chosen :=
    picked Safe.id (selectedSafesForRemoval r) (availableSafesForRemoval r) in
  let s' := handleStageSafeRemovals s in
  let staged' := stagedSafeRemovals (queues (app s')) in
  (Forall (fun x => Safe.id x ∉ map Safe.id staged) chosen ->
   staged' = staged ++ chosen
   /\ length staged' = (length staged + length chosen)%nat)
  /\ (chosen <> [] ->
      Forall (fun x => Safe.id x ∈ map Safe.id staged) chosen ->
      staged' = staged /\ length staged' = length staged
      /\ s' = showNotification "All selected Safes are already queued!" warning s)
  /\ staged' = staged ++ not_yet_staged Safe.id staged chosen
  /\ (not_yet_staged Safe.id staged chosen <> [] ->
      selectedSafesForRemoval (safeRemoval (app s')) = ∅
      /\ safeRemovalFilter (safeRemoval (app s')) = EmptyString).
Proof.
  intros r staged chosen s' staged'.
  assert (staged' = staged ++ not_yet_staged Safe.id staged chosen) as Hall.
  { subst staged' s'.
    destruct (handleStageSafeRemovals_cases s) as [(_ & C & ->)|[(_ & I & ->)|(_ & ->)]].
    - fold r chosen in C. fold chosen. rewrite C. simpl. now rewrite app_nil_r.
    - fold r staged chosen in I. rewrite I. simpl. now rewrite app_nil_r.
    - reflexivity. }
  split; [|split; [|split; [exact Hall|]]].
  - intros Hnone.
    assert (not_yet_staged Safe.id staged chosen = chosen) as E.
    { apply filter_all_Forall. eapply Forall_impl; [exact Hnone|].
      intros x Hx. simpl. apply includes_not_elem_of in Hx. now rewrite Hx. }
    rewrite Hall, E. split; [reflexivity | apply length_app].
  - intros Hne Hdup.
    assert (not_yet_staged Safe.id staged chosen = []) as E.
    { apply filter_nil_Forall. eapply Forall_impl; [exact Hdup|].
      intros x Hx. simpl. apply includes_elem_of in Hx. now rewrite Hx. }
    split; [now rewrite Hall, E, app_nil_r|].
    split; [now rewrite Hall, E, app_nil_r|].
    subst s'.
    destruct (handleStageSafeRemovals_cases s) as [(_ & C & _)|[(_ & _ & ->)|(I & _)]].
    + now fold r chosen in C.
    + reflexivity.
    + now fold r staged chosen in I.
  - intros Hne. subst s'.
    destruct (handleStageSafeRemovals_cases s) as [(_ & C & _)|[(_ & I & _)|(_ & ->)]].
    + fold r chosen in C. rewrite C in Hne. now elim Hne.
    + now fold r staged chosen in I.
    + split; reflexivity.
Qed.

End Removal.

Section RemovalOfMembersAndAccounts.

Context {World : Type}.
Implicit Types s : Sys World.

(** What the member removal handler does, by cases on what is selected. *)
Lemma handleStageMemberRemovals_cases s :
  let r := memberRemoval (app s) in
  let staged := stagedMemberRemovals (queues (app s)) in
  let chosen :=
    picked Member.id (selectedMembersForRemoval r) (availableMembersForRemoval r) in
  let duplicates := already_staged Member.id staged chosen in
  (selectedIds (selectedMembersForRemoval r) = []
   /\ chosen = []
   /\ handleStageMemberRemovals s
      = showNotification "Please select at least one Member to remove!" error s)
  \/ (duplicates <> []
      /\ handleStageMemberRemovals s
         = showNotification
             ("The following member(s) are already staged for removal: "
                +:+ String.concat ", " (map Member.member duplicates)) warning s)
  \/ (duplicates = []
      /\ handleStageMemberRemovals s
         = update_app
             (with_memberRemoval
                {| availableMembersForRemoval := availableMembersForRemoval r;
                   selectedMembersForRemoval := ∅;
                   memberRemovalFilter := EmptyString;
                   memberRemovalSafeFilter := EmptyString |})
             (update_queues (setStagedMemberRemovals (staged ++ chosen)) s)).
Proof.
  intros r staged chosen duplicates. unfold handleStageMemberRemovals.
  fold r staged. rewrite picked_by_selectedIds. fold chosen.
  change (List.filter (fun item => includes (map Member.id staged) (Member.id item))
            chosen) with duplicates.
  destruct (Nat.eqb (length (selectedIds (selectedMembersForRemoval r))) 0) eqn:E0.
  { apply length_eqb_0 in E0. left. split; [exact E0|]. split; [|reflexivity].
    now apply picked_nil_of_no_selection. }
  right. destruct duplicates as [|d ds]; simpl.
  - right. split; reflexivity.
  - left. split; [discriminate | reflexivity].
Qed.

(** What the account removal handler does, by cases on what is selected. *)
Lemma handleStageAccountRemovals_cases s :
  let r := accountRemoval (app s) in
  let staged := stagedAccountRemovals (queues (app s)) in
  let chosen :=
    picked Account.id (selectedAccountsForRemoval r)
      (availableAccountsForRemoval r) in
  let duplicates := already_staged Account.id staged chosen in
  (selectedIds (selectedAccountsForRemoval r) = []
   /\ chosen = []
   /\ handleStageAccountRemovals s
      = showNotification "Please select at least one Account to remove!" error s)
  \/ (duplicates <> []
      /\ handleStageAccountRemovals s
         = showNotification
             ("The following account(s) are already staged for removal: "
                +:+ String.concat ", " (map Account.username duplicates))
             warning s)
  \/ (duplicates = []
      /\ handleStageAccountRemovals s
         = update_app
             (with_accountRemoval
                {| availableAccountsForRemoval := availableAccountsForRemoval r;
                   selectedAccountsForRemoval := ∅;
                   accountRemovalFilter := EmptyString;
                   accountRemovalSafeFilter := EmptyString |})
             (update_queues (setStagedAccountRemovals (staged ++ chosen)) s)).
Proof.
  intros r staged chosen duplicates. unfold handleStageAccountRemovals.
  fold r staged. rewrite picked_by_selectedIds. fold chosen.
  change (List.filter
            (fun item => includes (map Account.id staged) (Account.id item))
            chosen) with duplicates.
  destruct (Nat.eqb (length (selectedIds (selectedAccountsForRemoval r))) 0) eqn:E0.
  { apply length_eqb_0 in E0. left. split; [exact E0|]. split; [|reflexivity].
    now apply picked_nil_of_no_selection. }
  right. destruct duplicates as [|d ds]; simpl.
  - right. split; reflexivity.
  - left. split; [discriminate | reflexivity].
Qed.

Lemma no_duplicates_fresh {A} (getid : A -> string) (staged chosen : list A) :
  already_staged getid staged chosen = [] ->
  Forall (fun x => getid x ∉ map getid staged) chosen.
Proof.
  intros E. apply filter_nil_Forall in E.
  eapply Forall_impl; [exact E|]. intros x Hx. now apply includes_not_elem_of.
Qed.

(** C8, as the code has it.  The chosen records are the records of the
    mirror whose id the selection maps to true.  Safe removal stages
    exactly the chosen safes not staged yet, and when it stages one it
    reports nothing.  Member and account removal stage nothing when a
    chosen record is already staged: the state is unchanged but for one
    warning that names the chosen records already staged; when no chosen
    record is already staged they stage all the chosen records.  None of
    the three ever adds to its queue a record whose id the queue held. *)
Theorem removal_staging_with_already_staged_selections s :
  (let staged := stagedSafeRemovals (queues (app s)) in
   let chosen :=
     picked Safe.id (selectedSafesForRemoval (safeRemoval (app s)))
       (availableSafesForRemoval (safeRemoval (app s))) in
   let s' := handleStageSafeRemovals s in
   stagedSafeRemovals (queues (app s'))
     = staged ++ not_yet_staged Safe.id staged chosen
   /\ Forall (fun x => Safe.id x ∉ map Safe.id staged)
        (not_yet_staged Safe.id staged chosen)
   /\ (not_yet_staged Safe.id staged chosen <> [] -> notes s' = notes s))
  /\ (let staged := stagedMemberRemovals (queues (app s)) in
      let chosen :=
        picked Member.id (selectedMembersForRemoval (memberRemoval (app s)))
          (availableMembersForRemoval (memberRemoval (app s))) in
      let s' := handleStageMemberRemovals s in
      (already_staged Member.id staged chosen <> [] ->
       s' = showNotification
              ("The following member(s) are already staged for removal: "
                 +:+ String.concat ", "
                       (map Member.member (already_staged Member.id staged chosen)))
              warning s
       /\ stagedMemberRemovals (queues (app s')) = staged
       /\ memberRemoval (app s') = memberRemoval (app s))
      /\ (already_staged Member.id staged chosen = [] ->
          stagedMemberRemovals (queues (app s')) = staged ++ chosen
          /\ Forall (fun x => Member.id x ∉ map Member.id staged) chosen))
  /\ (let staged := stagedAccountRemovals (queues (app s)) in
      let chosen :=
        picked Account.id (selectedAccountsForRemoval (accountRemoval (app s)))
          (availableAccountsForRemoval (accountRemoval (app s))) in
      let s' := handleStageAccountRemovals s in
      (already_staged Account.id staged chosen <> [] ->
       s' = showNotification
              ("The following account(s) are already staged for removal: "
                 +:+ String.concat ", "
                       (map Account.username
                          (already_staged Account.id staged chosen)))
              warning s
       /\ stagedAccountRemovals (queues (app s')) = staged
       /\ accountRemoval (app s') = accountRemoval (app s))
      /\ (already_staged Account.id staged chosen = [] ->
          stagedAccountRemovals (queues (app s')) = staged ++ chosen
          /\ Forall (fun x => Account.id x ∉ map Account.id staged) chosen)).
Proof.
  split; [|split].
  - intros staged chosen s'.
    split; [|split; [apply not_yet_staged_fresh|]].
    + subst s'.
      destruct (handleStageSafeRemovals_cases s)
        as [(_ & C & ->)|[(_ & I & ->)|(_ & ->)]].
      * fold chosen in C. rewrite C. simpl. now rewrite app_nil_r.
      * fold staged chosen in I. rewrite I. simpl. now rewrite app_nil_r.
      * reflexivity.
    + intros Hne. subst s'.
      destruct (handleStageSafeRemovals_cases s)
        as [(_ & C & _)|[(_ & I & _)|(_ & ->)]].
      * fold chosen in C. rewrite C in Hne. now elim Hne.
      * now fold staged chosen in I.
      * reflexivity.
  - intros staged chosen s'. split.
    + intros Hd. subst s'.
      destruct (handleStageMemberRemovals_cases s)
        as [(_ & C & _)|[(_ & ->)|(D & _)]].
      * fold chosen in C. rewrite C in Hd. now elim Hd.
      * repeat split.
      * now fold staged chosen in D.
    + intros Hd. split; [|now apply no_duplicates_fresh].
      subst s'.
      destruct (handleStageMemberRemovals_cases s)
        as [(_ & C & ->)|[(D & _)|(_ & ->)]].
      * fold chosen in C. rewrite C. simpl. now rewrite app_nil_r.
      * now fold staged chosen in D.
      * reflexivity.
  - intros staged chosen s'. split.
    + intros Hd. subst s'.
      destruct (handleStageAccountRemovals_cases s)
        as [(_ & C & _)|[(_ & ->)|(D & _)]].
      * fold chosen in C. rewrite C in Hd. now elim Hd.
      * repeat split.
      * now fold staged chosen in D.
    + intros Hd. split; [|now apply no_duplicates_fresh].
      subst s'.
      destruct (handleStageAccountRemovals_cases s)
        as [(_ & C & ->)|[(D & _)|(_ & ->)]].
      * fold chosen in C. rewrite C. simpl. now rewrite app_nil_r.
      * now fold staged chosen in D.
      * reflexivity.
Qed.

End RemovalOfMembersAndAccounts.

(** ** Deploy (C1, C2) *)

Section Deploy.

Context {World : Type}.
Context (api_respond : World -> ApiCall -> World * ApiResult).
Implicit Types s : Sys World.

(** One iteration makes one call, whatever its result, and writes nothing
    of the application state but the notification. *)
Lemma try_call_effect starting call succeeded failed s :
  let s' := try_call api_respond starting call succeeded failed s in
  calls s' = calls s ++ [api_call call]
  /\ storage s' = storage s
  /\ exists n, app s' = with_notification n (app s).
Proof.
  unfold try_call. simpl.
  destruct (api_respond (world s) call) as [w [b|reason]]; simpl;
    repeat split; eexists; reflexivity.
Qed.

Lemma with_notification_twice n m a :
  with_notification n (with_notification m a) = with_notification n a.
Proof. reflexivity. Qed.

(** A loop makes the calls of its items, in order. *)
Lemma deploy_loop_effect {X} (starting : X -> string) (call : X -> ApiCall)
    (succeeded : X -> string) (failed : X -> string -> string)
    (items : list X) s :
  let s' :=
    fold_left
      (fun s x => try_call api_respond (starting x) (call x) (succeeded x)
                    (failed x) s) items s in
  calls s' = calls s ++ map (fun x => api_call (call x)) items
  /\ storage s' = storage s
  /\ (items = [] -> s' = s)
  /\ exists n, app s' = with_notification n (app s).
Proof.
  revert s. induction items as [|x items IH]; intros s; simpl.
  - rewrite app_nil_r. repeat split. exists (notification (app s)).
    now destruct (app s).
  - destruct (try_call_effect (starting x) (call x) (succeeded x) (failed x) s)
      as (C & S & n & A).
    destruct (IH (try_call api_respond (starting x) (call x) (succeeded x)
                    (failed x) s)) as (C' & S' & _ & m & A').
    simpl in C', S', A'. rewrite C', C, S', S, A', A, <- app_assoc.
    repeat split; [discriminate|]. exists m. apply with_notification_twice.
Qed.

Lemma advanced_refl s : advanced [] s s.
Proof.
  split; [|split]; simpl; [now rewrite app_nil_r | reflexivity |].
  exists (notification (app s)). now destruct (app s).
Qed.

Lemma advanced_then_notify made msg ty s s1 :
  advanced made s s1 -> advanced made s (showNotification msg ty s1).
Proof.
  intros (C & S & n & A). split; [|split]; simpl; [exact C | exact S |].
  eexists. rewrite A. reflexivity.
Qed.

Lemma advanced_then_loop {X} (starting : X -> string) (call : X -> ApiCall)
    (succeeded : X -> string) (failed : X -> string -> string)
    (items : list X) made s s1 :
  advanced made s s1 ->
  advanced (made ++ map call items) s
    (fold_left
       (fun s x => try_call api_respond (starting x) (call x) (succeeded x)
                     (failed x) s) items s1).
Proof.
  intros (C & S & n & A).
  destruct (deploy_loop_effect starting call succeeded failed items s1)
    as (C' & S' & _ & m & A').
  split; [|split].
  - now rewrite C', C, map_app, map_map, app_assoc.
  - congruence.
  - exists m. now rewrite A', A.
Qed.

(** The deploy of a non-empty staging, before the queues are cleared. *)
Lemma deploy_nonempty s :
  Nat.eqb (totalItems (queues (app s))) 0 = false ->
  exists s1,
    advanced (deploy_plan (queues (app s))) s s1
    /\ deploy api_respond s
       = update_queues
           (fun q =>
              setStagedAccountModifications []
                (setStagedMemberModifications []
                   (setStagedSafeModifications []
                      (setStagedAccountRemovals []
                         (setStagedMemberRemovals []
                            (setStagedSafeRemovals []
                               (setStagedAccounts []
                                  (setStagedMembers []
                                     (setStagedSafes [] q))))))))) s1.
Proof.
  intros E. unfold deploy. rewrite E.
  eexists. split; [|reflexivity].
  unfold deploy_plan. rewrite !app_assoc.
  rewrite <- (app_nil_l (map create_safe_call _)).
  apply advanced_then_notify.
  apply advanced_then_loop, advanced_then_loop, advanced_then_loop.
  apply advanced_then_loop, advanced_then_loop, advanced_then_loop.
  apply advanced_then_loop, advanced_then_loop, advanced_then_loop.
  apply advanced_then_notify, advanced_refl.
Qed.

Lemma length_deploy_plan q : length (deploy_plan q) = totalItems q.
Proof.
  unfold deploy_plan, totalItems. rewrite !length_app, !length_map. lia.
Qed.

(** C1.  A deploy with at least one staged item makes, for every answer of
    the vault and so whether the calls fail or not, exactly the calls of
    the plan: one call per staged item, in queue order, the queues taken
    in the order safe creations, member creations, account creations,
    safe removals, member removals, account removals, safe modifications,
    member modifications, account modifications.  The number of calls made
    is the number of staged items, and all nine queues are empty
    afterwards. *)
Theorem deploy_calls_every_item_in_order_and_clears s :
  (0 < totalItems (queues (app s)))%nat ->
  let s' := deploy api_respond s in
  calls s' = calls s ++ map api_call (deploy_plan (queues (app s)))
  /\ length (calls s') = (length (calls s) + totalItems (queues (app s)))%nat
  /\ queues (app s') = empty_queues
  /\ length (stagedSafes (queues (app s'))) = 0%nat
  /\ length (stagedMembers (queues (app s'))) = 0%nat
  /\ length (stagedAccounts (queues (app s'))) = 0%nat
  /\ length (stagedSafeRemovals (queues (app s'))) = 0%nat
  /\ length (stagedMemberRemovals (queues (app s'))) = 0%nat
  /\ length (stagedAccountRemovals (queues (app s'))) = 0%nat
  /\ length (stagedSafeModifications (queues (app s'))) = 0%nat
  /\ length (stagedMemberModifications (queues (app s'))) = 0%nat
  /\ length (stagedAccountModifications (queues (app s'))) = 0%nat.
Proof.
  intros Hpos s'.
  assert (Nat.eqb (totalItems (queues (app s))) 0 = false) as E
    by (apply Nat.eqb_neq; lia).
  destruct (deploy_nonempty s E) as (s1 & (C & _ & _) & D).
  subst s'. rewrite D. simpl.
  split; [exact C|].
  split; [now rewrite C, length_app, length_map, length_deploy_plan|].
  repeat split.
Qed.

(** C2.  A deploy with nothing staged makes no network call and reports
    one warning; it leaves the queues, the storage, the vault and the rest
    of the application state as they were. *)
Theorem deploy_of_nothing_only_warns s :
  totalItems (queues (app s)) = 0%nat ->
  let s' := deploy api_respond s in
  calls s' = calls s
  /\ queues (app s') = queues (app s)
  /\ notes s' = notes s ++ [ {| message := "No staged items to deploy!";
                                type := warning |} ]
  /\ s' = showNotification "No staged items to deploy!" warning s.
Proof.
  intros E s'. subst s'. unfold deploy. rewrite E. simpl. repeat split.
Qed.

End Deploy.

(** ** The session (C9, C10) *)

(** A token that [authenticate] accepts is truthy. *)
Lemma login_outcome_truthy (res : LoginResult) (token : json) :
  login_outcome res = inr token -> js_truthy token = true.
Proof.
  unfold login_outcome. intros H.
  repeat match type of H with
         | context [match ?x with _ => _ end] => destruct x eqn:?; try discriminate H
         end.
  injection H as <-. now apply negb_false_iff.
Qed.

(** A successful response whose body is an object without a truthy token
    is accepted, the object itself being taken for the token. *)
Lemma login_outcome_object_without_token (status : string)
    (fields : list (string * json)) :
  opt_truthy (assoc_get "token" fields) = false ->
  login_outcome
    (fetch_response {| ok := true; statusText := status; body := inr (JObj fields) |})
  = inr (JObj fields).
Proof.
  intros H. unfold login_outcome. simpl.
  destruct (assoc_get "token" fields) as [v|]; simpl in *; [|reflexivity].
  now rewrite H.
Qed.

Lemma truthy_string_nonempty (text : string) :
  js_truthy (JStr text) = true -> nonempty_token (JStr text).
Proof.
  intros H. exists text. split; [reflexivity|]. intros ->. discriminate H.
Qed.

Section Session.

Context {World : Type}.
Context (api_respond : World -> ApiCall -> World * ApiResult).
Context (login_respond : World -> string -> string -> string -> World * LoginResult).
Context (setItem_throws : World -> string -> string -> option string).
Context (DEBUG_MODE : bool).
Implicit Types s : Sys World.

(** The flag and the token after [authenticate]: both set when the login
    succeeds; both left as they were when it fails before a token is
    accepted; the token replaced and the flag left as it was when the
    token cannot be stored. *)
Lemma authenticate_session s :
  let s' := authenticate login_respond setItem_throws s in
  (isLoggedIn (auth (app s')) = true
   /\ js_truthy (authToken (auth (app s'))) = true)
  \/ (isLoggedIn (auth (app s')) = isLoggedIn (auth (app s))
      /\ authToken (auth (app s')) = authToken (auth (app s)))
  \/ (isLoggedIn (auth (app s')) = isLoggedIn (auth (app s))
      /\ js_truthy (authToken (auth (app s'))) = true).
Proof.
  unfold authenticate.
  destruct (negb (str_truthy (vaultUrl (auth (app s))))
            || negb (str_truthy (username (auth (app s))))
            || negb (str_truthy (password (auth (app s))))).
  { right; left. split; reflexivity. }
  simpl.
  destruct (login_respond (world s) _ _ _) as [w res].
  destruct (login_outcome res) as [thrown|token] eqn:O; simpl.
  { right; left. split; reflexivity. }
  pose proof (login_outcome_truthy res token O) as T.
  destruct (js_String token) as [text|]; simpl;
    [|right; right; split; [reflexivity | exact T]].
  destruct (setItem_throws w "cyberark_token" text); simpl;
    [right; right; split; [reflexivity | exact T]|].
  destruct (setItem_throws w "cyberark_url" _); simpl;
    [right; right; split; [reflexivity | exact T]|].
  left. split; [reflexivity | exact T].
Qed.

(** With a vault that answers with token strings and a storage that
    accepts the writes, a login sets both the flag and a non-empty token,
    or leaves both as they were. *)
Lemma authenticate_all_or_nothing s :
  string_tokens login_respond -> storage_accepts setItem_throws ->
  let s' := authenticate login_respond setItem_throws s in
  (isLoggedIn (auth (app s')) = true
   /\ nonempty_token (authToken (auth (app s'))))
  \/ (isLoggedIn (auth (app s')) = isLoggedIn (auth (app s))
      /\ authToken (auth (app s')) = authToken (auth (app s))).
Proof.
  intros H1 H2. unfold authenticate.
  destruct (negb (str_truthy (vaultUrl (auth (app s))))
            || negb (str_truthy (username (auth (app s))))
            || negb (str_truthy (password (auth (app s))))).
  { right. split; reflexivity. }
  simpl.
  pose proof (H1 (world s) (vaultUrl (auth (app s)) +:+ "/auth/login")
                (username (auth (app s))) (password (auth (app s)))) as T.
  destruct (login_respond (world s) _ _ _) as [w res]. simpl in T.
  destruct (login_outcome res) as [thrown|token] eqn:O; simpl.
  { right. split; reflexivity. }
  destruct (T token eq_refl) as [text ->].
  pose proof (login_outcome_truthy res _ O) as Tr.
  simpl. rewrite !H2. simpl.
  left. split; [reflexivity | now apply truthy_string_nonempty].
Qed.

(** Whenever the login request is answered with a successful response
    whose body is an object without a truthy token, the object is taken
    for the token; the session is marked as logged in when the object can
    be printed and stored. *)
Lemma authenticate_with_an_object_body s w status fields :
  str_truthy (vaultUrl (auth (app s))) = true ->
  str_truthy (username (auth (app s))) = true ->
  str_truthy (password (auth (app s))) = true ->
  login_respond (world s) (vaultUrl (auth (app s)) +:+ "/auth/login")
    (username (auth (app s))) (password (auth (app s)))
  = (w, fetch_response
          {| ok := true; statusText := status; body := inr (JObj fields) |}) ->
  opt_truthy (assoc_get "token" fields) = false ->
  authToken (auth (app (authenticate login_respond setItem_throws s)))
  = JObj fields
  /\ (assoc_get "toString" fields = None ->
      setItem_throws w "cyberark_token" "[object Object]" = None ->
      setItem_throws w "cyberark_url" (vaultUrl (auth (app s))) = None ->
      isLoggedIn (auth (app (authenticate login_respond setItem_throws s))) = true
      /\ storage (authenticate login_respond setItem_throws s) !! "cyberark_token"
         = Some "[object Object]").
Proof.
  intros U N P R T. unfold authenticate. rewrite U, N, P. simpl.
  rewrite R, (login_outcome_object_without_token status fields T).
  split.
  - simpl. destruct (assoc_get "toString" fields); simpl; [reflexivity|].
    destruct (setItem_throws w "cyberark_token" "[object Object]"); simpl;
      [reflexivity|].
    destruct (setItem_throws w "cyberark_url" _); reflexivity.
  - intros S T1 T2. simpl. rewrite S. simpl. rewrite T1. simpl. rewrite T2.
    simpl. split; [reflexivity|].
    rewrite lookup_insert_ne by discriminate. now rewrite lookup_insert_eq.
Qed.

(** The debug login sets a debug token, and the flag when the storage
    accepts the two writes. *)
Lemma debugLogin_session now1 now2 s :
  let s' := debugLogin setItem_throws now1 now2 s in
  authToken (auth (app s')) = JStr ("debug_token_" +:+ now1)
  /\ (isLoggedIn (auth (app s')) = true
      \/ isLoggedIn (auth (app s')) = isLoggedIn (auth (app s)))
  /\ (storage_accepts setItem_throws -> isLoggedIn (auth (app s')) = true).
Proof.
  unfold debugLogin.
  destruct (setItem_throws (world s) "cyberark_token" _) eqn:E1; simpl.
  { repeat split; [now right|]. intros H. now rewrite H in E1. }
  destruct (setItem_throws (world s) "cyberark_url" _) eqn:E2; simpl.
  { repeat split; [now right|]. intros H. now rewrite H in E2. }
  repeat split. now left.
Qed.

Lemma deploy_auth s : auth (app (deploy api_respond s)) = auth (app s).
Proof.
  destruct (Nat.eqb (totalItems (queues (app s))) 0) eqn:E.
  - unfold deploy. now rewrite E.
  - destruct (deploy_nonempty api_respond s E) as (s1 & (_ & _ & n & A) & ->).
    simpl. now rewrite A.
Qed.

(** One event is a login, a debug login, a logout, or leaves the flag and
    the token as they were. *)
Lemma step_cases s s' :
  step api_respond login_respond setItem_throws DEBUG_MODE s s' ->
  s' = authenticate login_respond setItem_throws s
  \/ (exists now1 now2, s' = debugLogin setItem_throws now1 now2 s)
  \/ s' = logout s
  \/ (isLoggedIn (auth (app s')) = isLoggedIn (auth (app s))
      /\ authToken (auth (app s')) = authToken (auth (app s))).
Proof.
  assert (forall a, isLoggedIn (clear_authError a) = isLoggedIn a
                    /\ authToken (clear_authError a) = authToken a) as Hclear.
  { intros a. unfold clear_authError. now destruct (str_truthy (authError a)). }
  destruct 1.
  - right; right; right. simpl.
    match goal with
    | |- context [clear_authError ?a] => destruct (Hclear a) as [-> ->]
    end.
    split; reflexivity.
  - right; right; right. simpl.
    match goal with
    | |- context [clear_authError ?a] => destruct (Hclear a) as [-> ->]
    end.
    split; reflexivity.
  - right; right; right. simpl.
    match goal with
    | |- context [clear_authError ?a] => destruct (Hclear a) as [-> ->]
    end.
    split; reflexivity.
  - now left.
  - right; left. eauto.
  - right; right; left. reflexivity.
  - right; right; right. unfold handleAddSafeToStage.
    repeat case_match; split; reflexivity.
  - right; right; right. unfold handleAddCustomMember.
    repeat case_match; split; reflexivity.
  - right; right; right. unfold handleAddAccountToQueue.
    repeat case_match; split; reflexivity.
  - right; right; right. unfold handleStageSafeRemovals.
    repeat case_match; split; reflexivity.
  - right; right; right. unfold handleStageMemberRemovals.
    repeat case_match; split; reflexivity.
  - right; right; right. unfold handleStageAccountRemovals.
    repeat case_match; split; reflexivity.
  - right; right; right. unfold handleSaveModifiedSafe in *.
    repeat case_match; simplify_eq; split; reflexivity.
  - right; right; right. unfold handleSaveModifiedMember in *.
    repeat case_match; simplify_eq; split; reflexivity.
  - right; right; right. unfold handleSaveModifiedAccount in *.
    repeat case_match; simplify_eq; split; reflexivity.
  - right; right; right. now rewrite deploy_auth.
  - right; right; right. simpl. now rewrite H.
Qed.

(** In every reachable state, whatever the vault answers and whatever the
    storage accepts, a set flag comes with a truthy token. *)
Lemma reachable_session s :
  reachable api_respond login_respond setItem_throws DEBUG_MODE s ->
  isLoggedIn (auth (app s)) = true ->
  js_truthy (authToken (auth (app s))) = true.
Proof.
  induction 1 as [st w|s s' _ IH Hstep].
  - discriminate.
  - destruct (step_cases s s' Hstep) as [->|[(n1 & n2 & ->)|[->|[H1 H2]]]].
    + destruct (authenticate_session s) as [[_ H]|[[H1 H2]|[_ H]]].
      * intros _. exact H.
      * rewrite H1, H2. exact IH.
      * intros _. exact H.
    + destruct (debugLogin_session n1 n2 s) as (T & _ & _).
      intros _. rewrite T. reflexivity.
    + discriminate.
    + rewrite H1, H2. exact IH.
Qed.

Lemma reached_is_reachable st w s :
  reached_from api_respond login_respond setItem_throws DEBUG_MODE (boot st w) s ->
  reachable api_respond login_respond setItem_throws DEBUG_MODE s.
Proof.
  induction 1 as [|s s' _ IH St]; [apply reachable_boot|].
  exact (reachable_step _ _ _ _ s s' IH St).
Qed.

(** With a vault that answers with token strings and a storage that
    accepts the writes: the flag is set with a non-empty token, or the
    flag is unset with the empty token or with the token the start
    restored. *)
Lemma reached_session st w s :
  string_tokens login_respond -> storage_accepts setItem_throws ->
  reached_from api_respond login_respond setItem_throws DEBUG_MODE (boot st w) s ->
  (isLoggedIn (auth (app s)) = true
   /\ nonempty_token (authToken (auth (app s))))
  \/ (isLoggedIn (auth (app s)) = false
      /\ (authToken (auth (app s)) = JStr EmptyString
          \/ authToken (auth (app s)) = authToken (auth (app (boot st w))))).
Proof.
  intros H1 H2. induction 1 as [|s s' _ IH Hstep].
  - right. split; [reflexivity | now right].
  - destruct (step_cases s s' Hstep) as [->|[(n1 & n2 & ->)|[->|[E1 E2]]]].
    + destruct (authenticate_all_or_nothing s H1 H2) as [H|[E1 E2]];
        [now left | now rewrite E1, E2].
    + destruct (debugLogin_session n1 n2 s) as (T & _ & L).
      left. split; [exact (L H2)|]. rewrite T.
      eexists. split; [reflexivity | discriminate].
    + right. split; [reflexivity | now left].
    + now rewrite E1, E2.
Qed.

(** C10, as the code has it.  Take a vault that answers each login it
    accepts with a token string, and a browser that accepts the writes to
    the client storage.  In every state reached from a start, the session
    flag being set implies that the token is a non-empty string; and a
    non-empty token implies that the flag is set, unless the token is
    still the one that the start restored from the client storage.  So
    from a start without a stored token the flag is set if and only if
    the token is non-empty.  Logging out unsets the flag and empties the
    token; a login that sets the flag leaves a non-empty token. *)
Theorem logged_in_iff_token_unless_restored st w s :
  string_tokens login_respond -> storage_accepts setItem_throws ->
  reached_from api_respond login_respond setItem_throws DEBUG_MODE (boot st w) s ->
  (isLoggedIn (auth (app s)) = true ->
   nonempty_token (authToken (auth (app s))))
  /\ (nonempty_token (authToken (auth (app s))) ->
      isLoggedIn (auth (app s)) = true
      \/ authToken (auth (app s)) = authToken (auth (app (boot st w))))
  /\ (st !! "cyberark_token" = None \/ st !! "cyberark_token" = Some EmptyString ->
      (isLoggedIn (auth (app s)) = true
       <-> nonempty_token (authToken (auth (app s)))))
  /\ (isLoggedIn (auth (app (logout s))) = false
      /\ authToken (auth (app (logout s))) = JStr EmptyString)
  /\ (isLoggedIn (auth (app (authenticate login_respond setItem_throws s))) = true ->
      nonempty_token
        (authToken (auth (app (authenticate login_respond setItem_throws s))))).
Proof.
  intros H1 H2 R.
  assert (forall x, nonempty_token (JStr x) -> x <> EmptyString) as NE.
  { intros x (y & E & N). now injection E as ->. }
  pose proof (reached_session st w s H1 H2 R) as J.
  split; [|split; [|split; [|split]]].
  - intros L. destruct J as [[_ T]|[F _]]; [exact T | congruence].
  - intros T. destruct J as [[L _]|[_ [E|E]]]; [now left | | now right].
    rewrite E in T. now apply NE in T.
  - intros S. split.
    + intros L. destruct J as [[_ T]|[F _]]; [exact T | congruence].
    + intros T. destruct J as [[L _]|[_ [E|E]]]; [exact L | |].
      * rewrite E in T. now apply NE in T.
      * rewrite E in T. simpl in T. apply NE in T.
        destruct S as [S|S]; rewrite S in T; now elim T.
  - split; reflexivity.
  - intros L.
    assert (reached_from api_respond login_respond setItem_throws DEBUG_MODE
              (boot st w) (authenticate login_respond setItem_throws s)) as R'
      by (eapply reached_step; [exact R | apply step_authenticate]).
    destruct (reached_session st w _ H1 H2 R') as [[_ T]|[F _]];
      [exact T | congruence].
Qed.

End Session.

(* ====================================================================== *)
(** * The properties on concrete states *)
(* ====================================================================== *)

(** The three staged items are deployed against a vault that rejects every
    call: all three calls are made, in order, each failure is reported, and
    the queues are empty afterwards. *)
Lemma deploy_against_a_rejecting_vault :
  (0 < totalItems (queues (app three_staged)))%nat
  /\ calls (deploy reject_all three_staged)
     = [ api_call (create_safe_call staged_safe);
         api_call (memberAPI_remove "SAFE-001" "user.departed");
         api_call
           (accountAPI_update "ACC-001"
              {| au_address := Some "192.168.1.10"; au_secret := None;
                 au_userName := None; au_automaticManagement := None;
                 au_manualManagementReason := None |}) ]
  /\ queues (app (deploy reject_all three_staged)) = empty_queues
  /\ map type (notes (deploy reject_all three_staged))
     = [info; info; error; info; error; info; error; success].
Proof.
  assert ((0 < totalItems (queues (app three_staged)))%nat) as H
    by (vm_compute; lia).
  destruct (deploy_calls_every_item_in_order_and_clears reject_all three_staged H)
    as (C & _ & Q & _).
  split; [exact H|]. split; [exact C|]. split; [exact Q|].
  vm_compute. reflexivity.
Defined.

(** A deploy from a fresh start, where nothing is staged. *)
Lemma deploy_from_a_fresh_start :
  totalItems (queues (app fresh)) = 0%nat
  /\ calls (deploy accept_all fresh) = []
  /\ queues (app (deploy accept_all fresh)) = empty_queues
  /\ notes (deploy accept_all fresh)
     = [ {| message := "No staged items to deploy!"; type := warning |} ].
Proof.
  assert (totalItems (queues (app fresh)) = 0%nat) as H by reflexivity.
  destruct (deploy_of_nothing_only_warns accept_all fresh H) as (C & Q & N & _).
  split; [exact H|]. split; [exact C|]. split; [exact Q | exact N].
Defined.

(** A permission object with one key is no template. *)
Lemma detectRole_of_a_single_permission :
  Forall (fun nt => [("UseAccounts", true)] <> nt.2) PERM_TEMPLATES
  /\ detectRoleFromPermissions [("UseAccounts", true)] = "Custom".
Proof.
  assert (Forall (fun nt : string * PermissionSet => [("UseAccounts", true)] <> nt.2)
            PERM_TEMPLATES) as H
    by (repeat constructor; discriminate).
  split; [exact H|].
  exact (proj1 (proj2 detectRole_first_template_with_same_entries) _ H).
Defined.

(** The three creation forms, filled in, are staged. *)
Lemma staging_the_filled_forms :
  (safe_fields_present (safeForm (app safe_form_filled))
   /\ account_fields_present (accountForm (app account_form_filled))
   /\ member_fields_present (memberForm (app member_form_filled)))
  /\ length (stagedSafes (queues (app (handleAddSafeToStage safe_form_filled))))
     = 1%nat
  /\ safeForm (app (handleAddSafeToStage safe_form_filled)) = default_safeForm
  /\ length (stagedAccounts
               (queues (app (handleAddAccountToQueue account_form_filled))))
     = 1%nat
  /\ length (stagedMembers
               (queues (app (handleAddCustomMember member_form_filled))))
     = 1%nat.
Proof.
  assert (safe_fields_present (safeForm (app safe_form_filled))) as Hs
    by (split; discriminate).
  assert (account_fields_present (accountForm (app account_form_filled))) as Ha
    by (repeat split; discriminate).
  assert (member_fields_present (memberForm (app member_form_filled))) as Hm
    by (split; discriminate).
  split; [exact (conj Hs (conj Ha Hm))|].
  destruct (proj1 (staging_create_appends_one_entry safe_form_filled) Hs)
    as (_ & Ls & Fs).
  destruct (proj1 (proj2 (staging_create_appends_one_entry account_form_filled)) Ha)
    as (_ & La & _).
  destruct (proj2 (proj2 (staging_create_appends_one_entry member_form_filled)) Hm)
    as (_ & Lm & _).
  split; [exact Ls|]. split; [exact Fs|]. split; [exact La | exact Lm].
Defined.

(** C4 fails as stated: after an account is staged the form still holds
    the platform id, the safe name and the unchecked automatic management
    flag that were entered, and after a member is staged the form still
    holds the target safe, the domain and the permissions. *)
Lemma staging_does_not_reset_every_field :
  account_fields_present (accountForm (app account_form_filled))
  /\ length (stagedAccounts
               (queues (app (handleAddAccountToQueue account_form_filled))))
     = 1%nat
  /\ accPlatformId (accountForm (app (handleAddAccountToQueue account_form_filled)))
     = "UnixSSH"
  /\ accPlatformId default_accountForm = EmptyString
  /\ accountForm (app (handleAddAccountToQueue account_form_filled))
     <> default_accountForm
  /\ member_fields_present (memberForm (app member_form_filled))
  /\ targetSafe (memberForm (app (handleAddCustomMember member_form_filled)))
     = "Finance-01"
  /\ memberForm (app (handleAddCustomMember member_form_filled))
     <> default_memberForm.
Proof.
  repeat split; try discriminate; reflexivity.
Qed.

(** A safe without the retention value of its mode, and the empty account
    and member forms, are not staged. *)
Lemma staging_incomplete_forms :
  safe_retention_value (safeForm (app safe_form_without_retention)) = EmptyString
  /\ stagedSafes (queues (app (handleAddSafeToStage safe_form_without_retention)))
     = []
  /\ map type (notes (handleAddSafeToStage safe_form_without_retention)) = [error]
  /\ stagedAccounts (queues (app (handleAddAccountToQueue fresh))) = []
  /\ calls (handleAddAccountToQueue fresh) = []
  /\ stagedMembers (queues (app (handleAddCustomMember fresh))) = []
  /\ calls (handleAddCustomMember fresh) = [].
Proof.
  destruct (staging_create_with_missing_field_is_rejected safe_form_without_retention)
    as (S & _ & _).
  destruct (staging_create_with_missing_field_is_rejected fresh) as (_ & A & M).
  destruct (S (or_intror eq_refl)) as (Qs & _ & _ & _).
  destruct (A (or_introl eq_refl)) as (Qa & _ & Ca & _).
  destruct (M (or_introl eq_refl)) as (Qm & _ & Cm & _).
  split; [reflexivity|]. split; [exact Qs|]. split; [reflexivity|].
  split; [exact Qa|]. split; [exact Ca|]. split; [exact Qm | exact Cm].
Defined.

(** Saving the edit of the first sample safe: in place when the queue
    holds it, appended when it does not. *)
Lemma saving_the_edit_of_a_sample_safe :
  (exists s',
     handleSaveModifiedSafe "SAFE-001" (editing_safe1 [safe3_staged; safe1_staged])
       = Some s'
     /\ stagedSafeModifications (queues (app s')) = [safe3_staged; safe1_edited])
  /\ (exists s',
        handleSaveModifiedSafe "SAFE-001" (editing_safe1 [safe3_staged]) = Some s'
        /\ stagedSafeModifications (queues (app s')) = [safe3_staged; safe1_edited]).
Proof.
  split.
  - destruct (proj1 (saving_an_edit_upserts_the_modification_queue
                       (editing_safe1 [safe3_staged; safe1_staged]) "SAFE-001")
                _ eq_refl) as (s' & H & _ & U & _).
    exists s'. split; [exact H|].
    assert ("SAFE-001" ∈ map Safe.id [safe3_staged; safe1_staged]) as Hin
      by (apply includes_elem_of; reflexivity).
    destruct (U Hin) as (_ & _ & R).
    refine (R _ 1%nat safe1_staged eq_refl eq_refl).
    apply (bool_decide_unpack _). vm_compute. exact I.
  - destruct (proj1 (saving_an_edit_upserts_the_modification_queue
                       (editing_safe1 [safe3_staged]) "SAFE-001")
                _ eq_refl) as (s' & H & _ & _ & U).
    exists s'. split; [exact H|].
    assert ("SAFE-001" ∉ map Safe.id [safe3_staged]) as Hnin
      by (apply includes_not_elem_of; reflexivity).
    exact (proj1 (U Hnin)).
Defined.

(** Two safes are selected for removal: both are staged when none is in
    the queue; nothing is staged, with a warning, when both are; only the
    second is staged when the first is in the queue, and the selection and
    the filter are then cleared. *)
Lemma staging_two_selected_safes :
  stagedSafeRemovals (queues (app (handleStageSafeRemovals
                                    (selecting_safes first_two_safes []))))
    = take 2 sample_safes
  /\ (stagedSafeRemovals
        (queues (app (handleStageSafeRemovals
                        (selecting_safes first_two_safes (take 2 sample_safes)))))
      = take 2 sample_safes
      /\ map type (notes (handleStageSafeRemovals
                            (selecting_safes first_two_safes (take 2 sample_safes))))
         = [warning])
  /\ stagedSafeRemovals
       (queues (app (handleStageSafeRemovals
                       (selecting_safes first_two_safes (take 1 sample_safes)))))
     = take 2 sample_safes
  /\ selectedSafesForRemoval
       (safeRemoval (app (handleStageSafeRemovals
                            (selecting_safes first_two_safes (take 1 sample_safes)))))
     = ∅
  /\ safeRemovalFilter
       (safeRemoval (app (handleStageSafeRemovals
                            (selecting_safes first_two_safes (take 1 sample_safes)))))
     = EmptyString.
Proof.
  destruct (safe_removal_staging_stages_the_new_selection
              (selecting_safes first_two_safes [])) as (N & _).
  destruct (safe_removal_staging_stages_the_new_selection
              (selecting_safes first_two_safes (take 2 sample_safes)))
    as (_ & D & _).
  destruct (safe_removal_staging_stages_the_new_selection
              (selecting_safes first_two_safes (take 1 sample_safes)))
    as (_ & _ & M & C).
  split; [|split; [|split; [exact M|]]].
  - refine (proj1 (N _)). vm_compute. repeat constructor; apply not_elem_of_nil.
  - assert (picked Safe.id
              (selectedSafesForRemoval
                 (safeRemoval (app (selecting_safes first_two_safes
                                      (take 2 sample_safes)))))
              (availableSafesForRemoval
                 (safeRemoval (app (selecting_safes first_two_safes
                                      (take 2 sample_safes))))) <> []) as Hne
      by (vm_compute; discriminate).
    assert (Forall
              (fun x => Safe.id x ∈ map Safe.id (take 2 sample_safes))
              (take 2 sample_safes)) as Hall
      by (repeat constructor; apply includes_elem_of; reflexivity).
    destruct (D Hne Hall) as (Q & _ & S).
    split; [exact Q|]. now rewrite S.
  - apply C. vm_compute. discriminate.
Defined.

(** Two members, two accounts and two safes are selected while the first
    of each is already staged: the second safe is staged and nothing is
    reported; no member and no account is staged, and the warning names the
    one already staged.  With nothing staged, both members are staged. *)
Lemma staging_a_mixed_selection :
  (stagedSafeRemovals
     (queues (app (handleStageSafeRemovals
                     (selecting_safes first_two_safes (take 1 sample_safes)))))
   = take 2 sample_safes
   /\ notes (handleStageSafeRemovals
               (selecting_safes first_two_safes (take 1 sample_safes))) = [])
  /\ (stagedMemberRemovals
        (queues (app (handleStageMemberRemovals
                        (selecting_members first_two_members (take 1 sample_members)))))
      = take 1 sample_members
      /\ notes (handleStageMemberRemovals
                  (selecting_members first_two_members (take 1 sample_members)))
         = [ {| message :=
                  "The following member(s) are already staged for removal: user.departed";
                type := warning |} ])
  /\ stagedAccountRemovals
       (queues (app (handleStageAccountRemovals
                       (selecting_accounts first_two_accounts
                          (take 1 sample_accounts)))))
     = take 1 sample_accounts
  /\ stagedMemberRemovals
       (queues (app (handleStageMemberRemovals
                       (selecting_members first_two_members []))))
     = take 2 sample_members.
Proof.
  destruct (removal_staging_with_already_staged_selections
              (selecting_safes first_two_safes (take 1 sample_safes)))
    as ((Qs & _ & Ns) & _ & _).
  destruct (removal_staging_with_already_staged_selections
              (selecting_members first_two_members (take 1 sample_members)))
    as (_ & (Dm & _) & _).
  destruct (removal_staging_with_already_staged_selections
              (selecting_accounts first_two_accounts (take 1 sample_accounts)))
    as (_ & _ & (Da & _)).
  destruct (removal_staging_with_already_staged_selections
              (selecting_members first_two_members []))
    as (_ & (_ & Fm) & _).
  split; [|split; [|split]].
  - split; [exact Qs|]. apply Ns. vm_compute. discriminate.
  - assert (already_staged Member.id (take 1 sample_members)
              (picked Member.id first_two_members sample_members) <> []) as H
      by (vm_compute; discriminate).
    destruct (Dm H) as (S & Q & _). split; [exact Q|]. now rewrite S.
  - assert (already_staged Account.id (take 1 sample_accounts)
              (picked Account.id first_two_accounts sample_accounts) <> []) as H
      by (vm_compute; discriminate).
    exact (proj1 (proj2 (Da H))).
  - exact (proj1 (Fm eq_refl)).
Defined.

(** C8 fails as stated: two members are selected, the first of them
    already staged.  The second is not staged, although it is the only one
    of the selection not staged yet; and when safes are staged from such a
    selection, the skipped one is not reported. *)
Lemma mixed_member_selection_stages_nothing :
  not_yet_staged Member.id (take 1 sample_members)
    (picked Member.id first_two_members sample_members)
    = drop 1 (take 2 sample_members)
  /\ stagedMemberRemovals
       (queues (app (handleStageMemberRemovals
                       (selecting_members first_two_members (take 1 sample_members)))))
     = take 1 sample_members
  /\ selectedMembersForRemoval
       (memberRemoval (app (handleStageMemberRemovals
                              (selecting_members first_two_members
                                 (take 1 sample_members)))))
     = first_two_members
  /\ not_yet_staged Account.id (take 1 sample_accounts)
       (picked Account.id first_two_accounts sample_accounts)
     = drop 1 (take 2 sample_accounts)
  /\ stagedAccountRemovals
       (queues (app (handleStageAccountRemovals
                       (selecting_accounts first_two_accounts
                          (take 1 sample_accounts)))))
     = take 1 sample_accounts
  /\ notes (handleStageSafeRemovals
              (selecting_safes first_two_safes (take 1 sample_safes))) = [].
Proof.
  repeat split; vm_compute; reflexivity.
Qed.

(** C9 fails on the code.  The login request is answered with a successful
    response whose body is the empty object: [authenticate] takes the
    object for the token, marks the session as logged in, stores the text
    of the object as the token, and reports success. *)
Lemma authenticate_accepts_a_body_without_token :
  assoc_get "token" ([] : list (string * json)) = None
  /\ isLoggedIn (auth (app (authenticate (login_answers ok_without_token)
                              never_throws credentials_entered))) = true
  /\ authToken (auth (app (authenticate (login_answers ok_without_token)
                             never_throws credentials_entered))) = JObj []
  /\ storage (authenticate (login_answers ok_without_token) never_throws
                credentials_entered)
       !! "cyberark_token" = Some "[object Object]"
  /\ authError (auth (app (authenticate (login_answers ok_without_token)
                             never_throws credentials_entered))) = EmptyString
  /\ map type (notes (authenticate (login_answers ok_without_token)
                        never_throws credentials_entered)) = [info; success].
Proof.
  repeat split; vm_compute; reflexivity.
Qed.

(** After a login that the vault answers with a token, from a start without
    a stored token, the session is logged in and the token is the one
    received; it was not logged in, and had no token, before. *)
Lemma session_after_a_login :
  string_tokens (login_answers ok_with_token)
  /\ storage_accepts never_throws
  /\ reached_from accept_all (login_answers ok_with_token) never_throws false
       (boot ∅ 0%nat)
       (authenticate (login_answers ok_with_token) never_throws credentials_entered)
  /\ (isLoggedIn (auth (app (authenticate (login_answers ok_with_token)
                               never_throws credentials_entered))) = true
      <-> nonempty_token
            (authToken (auth (app (authenticate (login_answers ok_with_token)
                                     never_throws credentials_entered)))))
  /\ isLoggedIn (auth (app (authenticate (login_answers ok_with_token)
                              never_throws credentials_entered))) = true
  /\ authToken (auth (app (authenticate (login_answers ok_with_token)
                             never_throws credentials_entered))) = JStr "abc123"
  /\ (isLoggedIn (auth (app credentials_entered)) = true
      <-> nonempty_token (authToken (auth (app credentials_entered))))
  /\ isLoggedIn (auth (app credentials_entered)) = false.
Proof.
  assert (string_tokens (login_answers ok_with_token)) as H1.
  { intros w url user pass token H. vm_compute in H. injection H as <-.
    eexists. reflexivity. }
  assert (storage_accepts never_throws) as H2 by (intros w k v; reflexivity).
  assert (reached_from accept_all (login_answers ok_with_token) never_throws false
            (boot ∅ 0%nat) credentials_entered) as R0.
  { eapply reached_step; [|apply step_password].
    eapply reached_step; [|apply step_username].
    eapply reached_step; [|apply step_vaultUrl].
    apply reached_start. }
  assert (reached_from accept_all (login_answers ok_with_token) never_throws false
            (boot ∅ 0%nat)
            (authenticate (login_answers ok_with_token) never_throws
               credentials_entered)) as R
    by (eapply reached_step; [exact R0 | apply step_authenticate]).
  split; [exact H1|]. split; [exact H2|]. split; [exact R|].
  split.
  { exact (proj1 (proj2 (proj2 (logged_in_iff_token_unless_restored accept_all
                                  (login_answers ok_with_token) never_throws false
                                  ∅ 0%nat _ H1 H2 R)))
             (or_introl eq_refl)). }
  split; [reflexivity|]. split; [reflexivity|].
  split; [|reflexivity].
  exact (proj1 (proj2 (proj2 (logged_in_iff_token_unless_restored accept_all
                                (login_answers ok_with_token) never_throws false
                                ∅ 0%nat _ H1 H2 R0)))
           (or_introl eq_refl)).
Defined.

(** C10 fails as stated: when the storage holds the token of an earlier
    session, the application starts with that token, a non-empty string,
    and with the session flag unset. *)
Lemma startup_with_a_stored_token :
  reachable accept_all (login_answers ok_with_token) never_throws false
    (boot stored_token 0%nat)
  /\ isLoggedIn (auth (app (boot stored_token 0%nat))) = false
  /\ authToken (auth (app (boot stored_token 0%nat))) = JStr "abc123"
  /\ nonempty_token (authToken (auth (app (boot stored_token 0%nat)))).
Proof.
  split; [apply reachable_boot|].
  split; [reflexivity|]. split; [vm_compute; reflexivity|].
  exists "abc123". split; [vm_compute; reflexivity | discriminate].
Qed.

(* ====================================================================== *)
(** * Further properties of the code *)
(* ====================================================================== *)

(** ** Editing a permission object *)

Lemma assoc_get_setPermission_same (p : PermissionSet) (k : string) (v : bool) :
  assoc_get k (setPermission p k v) = Some v.
Proof.
  induction p as [|[k' v'] p IH]; simpl.
  - now rewrite String.eqb_refl.
  - destruct (String.eqb_spec k' k) as [->|N]; simpl.
    + now rewrite String.eqb_refl.
    + destruct (String.eqb_spec k k'); [congruence | exact IH].
Qed.

Lemma assoc_get_setPermission_other (p : PermissionSet) (k k' : string) (v : bool) :
  k' <> k -> assoc_get k' (setPermission p k v) = assoc_get k' p.
Proof.
  intros N. induction p as [|[k0 v0] p IH]; simpl.
  - destruct (String.eqb_spec k' k); [congruence | reflexivity].
  - destruct (String.eqb_spec k0 k) as [->|N0]; simpl.
    + destruct (String.eqb_spec k' k); [congruence | reflexivity].
    + now rewrite IH.
Qed.

Lemma keys_setPermission (p : PermissionSet) (k : string) (v : bool) :
  p.*1 ++ (if includes (p.*1) k then [] else [k]) = (setPermission p k v).*1.
Proof.
  unfold includes. induction p as [|[k0 v0] p IH]; simpl; [reflexivity|].
  rewrite (String.eqb_sym k k0).
  destruct (String.eqb k0 k); simpl.
  - now rewrite app_nil_r.
  - f_equal. exact IH.
Qed.

(** X1.  Checking or unchecking a permission box,
    [{ ...permissions, [perm]: checked }]: the permission then has the new
    value, every other permission keeps its value, and the keys keep their
    order, a key that was absent being added last. *)
Theorem setPermission_sets_one_key (p : PermissionSet) (k : string) (v : bool) :
  assoc_get k (setPermission p k v) = Some v
  /\ (forall k', k' <> k -> assoc_get k' (setPermission p k v) = assoc_get k' p)
  /\ (setPermission p k v).*1 = p.*1 ++ (if includes (p.*1) k then [] else [k])
  /\ length (setPermission p k v)
     = (length p + (if includes (p.*1) k then 0 else 1))%nat.
Proof.
  split; [apply assoc_get_setPermission_same|].
  split; [intros k'; apply assoc_get_setPermission_other|].
  split; [symmetry; apply keys_setPermission|].
  rewrite <- (length_fmap fst (setPermission p k v)), <- keys_setPermission.
  rewrite length_app, length_fmap. now destruct (includes (p.*1) k).
Qed.

Lemma setPermission_back (p : PermissionSet) (k : string) (b b' : bool) :
  assoc_get k p = Some b -> setPermission (setPermission p k b') k b = p.
Proof.
  induction p as [|[k0 v0] p IH]; simpl; [discriminate|].
  rewrite (String.eqb_sym k k0).
  destruct (String.eqb k0 k) eqn:E; simpl; rewrite E.
  - apply String.eqb_eq in E. subst. now intros [= ->].
  - intros H. now rewrite IH.
Qed.

(** X2.  A permission that the object holds, changed and then set back to
    the value it had, leaves the very same object, key order included: the
    role detected is the one detected before. *)
Theorem setPermission_back_restores_the_role
    (p : PermissionSet) (k : string) (b b' : bool) :
  assoc_get k p = Some b ->
  setPermission (setPermission p k b') k b = p
  /\ detectRoleFromPermissions (setPermission (setPermission p k b') k b)
     = detectRoleFromPermissions p.
Proof.
  intros H. rewrite (setPermission_back p k b b' H). split; reflexivity.
Qed.

(** ** The API layer *)

Lemma length_append (a b : string) :
  String.length (a +:+ b) = (String.length a + String.length b)%nat.
Proof. induction a as [|c a IH]; simpl; [reflexivity | now rewrite IH]. Qed.

Lemma drop_chars_append (a b : string) : drop_chars (String.length a) (a +:+ b) = b.
Proof. induction a as [|c a IH]; simpl; [reflexivity | exact IH]. Qed.

Lemma endsWith_append (a suffix : string) : endsWith (a +:+ suffix) suffix = true.
Proof.
  unfold endsWith. rewrite length_append.
  replace (String.length a + String.length suffix - String.length suffix)%nat
    with (String.length a) by lia.
  rewrite drop_chars_append, String.eqb_refl, andb_true_r.
  apply Nat.leb_le. lia.
Qed.

Lemma endsWith_truthy (s : string) : endsWith s "/api" = true -> str_truthy s = true.
Proof. destruct s; [discriminate | reflexivity]. Qed.

(** X3.  The base URL of the API layer always ends in /api; a vault URL
    that already ends in /api is used as it is, so that the base of a base
    is the base itself and the suffix is never doubled. *)
Theorem baseURL_ends_in_api (vault : string) :
  endsWith (baseURL vault) "/api" = true
  /\ baseURL (baseURL vault) = baseURL vault
  /\ (endsWith vault "/api" = true -> baseURL vault = vault)
  /\ (endsWith vault "/api" = false -> baseURL vault = vault +:+ "/api").
Proof.
  assert (endsWith (baseURL vault) "/api" = true) as E.
  { unfold baseURL.
    destruct (str_truthy vault && endsWith vault "/api") eqn:C.
    - now apply andb_true_iff in C.
    - apply endsWith_append. }
  split; [exact E|]. split; [|split].
  - unfold baseURL at 1. now rewrite E, (endsWith_truthy _ E).
  - intros H. unfold baseURL. now rewrite H, (endsWith_truthy _ H).
  - intros H. unfold baseURL. now rewrite H, andb_false_r.
Qed.


(** ** Removing an entry of a queue *)

Lemma filter_index_past {A} (k j : nat) (l : list A) :
  (k < j)%nat -> filter_index (fun i => negb (Nat.eqb i k)) j l = l.
Proof.
  revert j. induction l as [|z l IH]; intros j Hj; simpl; [reflexivity|].
  destruct (Nat.eqb_spec j k) as [E|_]; [lia|]. simpl. f_equal.
  apply IH. lia.
Qed.

Lemma filter_index_delete {A} (idx k : nat) (l : list A) :
  filter_index (fun i => negb (Nat.eqb i (k + idx))) k l = delete idx l.
Proof.
  revert idx k. induction l as [|x l IH]; intros idx k; simpl.
  - now destruct idx.
  - destruct idx as [|idx]; simpl.
    + rewrite Nat.add_0_r, Nat.eqb_refl. simpl.
      apply filter_index_past. lia.
    + destruct (Nat.eqb_spec k (k + S idx)) as [E|_]; [lia|]. simpl. f_equal.
      replace (k + S idx)%nat with (S k + idx)%nat by lia. apply IH.
Qed.

Lemma remove_index_delete {A} (idx : nat) (l : list A) :
  remove_index idx l = delete idx l.
Proof. exact (filter_index_delete idx 0 l). Qed.

(** X6.  The remove button of a queue entry,
    [queue.filter((_, i) => i !== idx)], takes out the entry at that
    position and no other: the entries before it keep their position, the
    entries after it move up by one, and a position past the end leaves the
    queue as it is. *)
Theorem remove_index_removes_one_position {A} (idx : nat) (l : list A) :
  remove_index idx l = take idx l ++ drop (S idx) l
  /\ (forall j, j < idx -> remove_index idx l !! j = l !! j)%nat
  /\ (forall j, idx <= j -> remove_index idx l !! j = l !! S j)%nat
  /\ (idx < length l -> S (length (remove_index idx l)) = length l)%nat
  /\ (length l <= idx -> remove_index idx l = l)%nat.
Proof.
  rewrite remove_index_delete. split; [apply delete_take_drop|].
  split; [intros j; apply list_lookup_delete_lt|].
  split; [intros j; apply list_lookup_delete_ge|].
  split.
  - intros H. rewrite length_delete; [lia|]. now apply lookup_lt_is_Some.
  - intros H. rewrite delete_take_drop, take_ge, drop_ge by lia.
    apply app_nil_r.
Qed.

(** ** What the interface keeps true *)

Lemma Forall_map_replace {A} (P : A -> Prop) (c : A -> bool) (e : A) (q : list A) :
  Forall P q -> P e -> Forall P (map (fun x => if c x then e else x) q).
Proof.
  intros H He. induction H as [|x q Hx _ IH]; simpl; constructor;
    [now destruct (c x) | exact IH].
Qed.

Lemma ids_map_replace {A} (getid : A -> string) (i : string) (e : A) (q : list A) :
  getid e = i ->
  map getid (map (fun x => if String.eqb (getid x) i then e else x) q) = map getid q.
Proof.
  intros He. induction q as [|x q IH]; simpl; [reflexivity|]. rewrite IH. f_equal.
  destruct (String.eqb_spec (getid x) i); congruence.
Qed.

Lemma NoDup_ids_remove {A} (getid : A -> string) (idx : nat) (q : list A) :
  NoDup (map getid q) -> NoDup (map getid (remove_index idx q)).
Proof.
  intros H. rewrite remove_index_delete.
  change (NoDup (getid <$> delete idx q)). rewrite list_fmap_delete.
  eapply sublist_NoDup; [exact H | apply sublist_delete].
Qed.

Lemma not_in_ids_remove {A} (getid : A -> string) (idx : nat) (q : list A) (i : string) :
  i ∉ map getid q -> i ∉ map getid (remove_index idx q).
Proof.
  intros H Hin. apply H. rewrite remove_index_delete in Hin.
  change (i ∈ getid <$> delete idx q) in Hin. rewrite list_fmap_delete in Hin.
  now apply list_elem_of_delete_inv in Hin.
Qed.

Lemma Forall_remove {A} (P : A -> Prop) (idx : nat) (q : list A) :
  Forall P q -> Forall P (remove_index idx q).
Proof. intros H. rewrite remove_index_delete. now apply Forall_delete. Qed.

Lemma NoDup_ids_snoc {A} (getid : A -> string) (q : list A) (e : A) :
  NoDup (map getid q) -> getid e ∉ map getid q -> NoDup (map getid (q ++ [e])).
Proof.
  intros H N. rewrite map_app. apply NoDup_app. split; [exact H|].
  split; [|apply NoDup_singleton].
  intros x Hx Hx'. apply list_elem_of_singleton in Hx'. now subst.
Qed.

Lemma editedSafeOf_ok (base : Safe.t) (ed : EditedSafeData) :
  safe_modification_ok (editedSafeOf base ed).
Proof.
  unfold safe_modification_ok, editedSafeOf. simpl.
  destruct (ed_retentionType ed) as [[]|]; simpl; auto.
  destruct (opt_truthy (Safe.numberOfVersionsRetention base)); simpl; auto.
Qed.

Lemma editedMemberOf_ok (base : Member.t) (ed : EditedMemberData) :
  member_modification_ok (editedMemberOf base ed).
Proof.
  unfold member_modification_ok, editedMemberOf. simpl.
  now destruct (ed_perms ed).
Qed.

Lemma standard_entry_ok (ed : MemberEditor) (target key : string) (x : NewMember.t) :
  target <> EmptyString -> standard_entry ed target key = Some x ->
  staged_member_ok x.
Proof.
  unfold standard_entry. intros T H.
  destruct (List.find _ _) as [m|]; [|discriminate].
  injection H as <-. split; [exact T | reflexivity].
Qed.

Lemma is_selected_empty (i : string) : is_selected ∅ i = false.
Proof. unfold is_selected. now rewrite lookup_empty. Qed.

Lemma is_selected_insert (sel : gmap string bool) (i j : string) (b : bool) :
  is_selected (<[i := b]> sel) j = if decide (i = j) then b else is_selected sel j.
Proof.
  unfold is_selected. rewrite lookup_insert.
  destruct (decide (i = j)); reflexivity.
Qed.

Section Invariant.

Context {World : Type}.
Context (api_respond : World -> ApiCall -> World * ApiResult).
Implicit Types s : Sys World.

Lemma deploy_queues s :
  queues (app (deploy api_respond s)) = queues (app s)
  \/ queues (app (deploy api_respond s)) = empty_queues.
Proof.
  destruct (Nat.eqb (totalItems (queues (app s))) 0) eqn:E.
  - left. unfold deploy. now rewrite E.
  - right. destruct (deploy_nonempty api_respond s E) as (s1 & _ & ->). reflexivity.
Qed.

Lemma deploy_keeps_the_rest s :
  safeRemoval (app (deploy api_respond s)) = safeRemoval (app s)
  /\ memberRemoval (app (deploy api_respond s)) = memberRemoval (app s)
  /\ accountRemoval (app (deploy api_respond s)) = accountRemoval (app s)
  /\ safeModification (app (deploy api_respond s)) = safeModification (app s)
  /\ memberModification (app (deploy api_respond s)) = memberModification (app s)
  /\ accountModification (app (deploy api_respond s)) = accountModification (app s)
  /\ safeForm (app (deploy api_respond s)) = safeForm (app s)
  /\ memberForm (app (deploy api_respond s)) = memberForm (app s)
  /\ accountForm (app (deploy api_respond s)) = accountForm (app s)
  /\ auth (app (deploy api_respond s)) = auth (app s)
  /\ storage (deploy api_respond s) = storage s.
Proof.
  destruct (Nat.eqb (totalItems (queues (app s))) 0) eqn:E.
  - unfold deploy. rewrite E. repeat split.
  - destruct (deploy_nonempty api_respond s E) as (s1 & (_ & S & n & A) & ->).
    simpl. rewrite A, S. repeat split.
Qed.

Lemma boot_invariant (st : Storage) (w : World) : ui_invariant (app (boot st w)).
Proof.
  unfold ui_invariant, well_staged, edit_rows_ok, selections_ok. simpl.
  repeat split; try constructor; try discriminate;
    intros id H; rewrite is_selected_empty in H; discriminate.
Qed.

End Invariant.

Section InvariantSteps.

Context {World : Type}.
Context (api_respond : World -> ApiCall -> World * ApiResult).
Implicit Types s : Sys World.

(** A state whose queues, selections and rows being edited are those of a
    state that satisfies the invariant satisfies it. *)
Lemma keeps_staging_invariant s s' :
  keeps_staging s s' -> ui_invariant (app s) -> ui_invariant (app s').
Proof.
  intros (Q & S1 & S2 & S3 & E1 & E2 & E3) (W & (N & R1 & R2 & R3) & (C1 & C2 & C3)).
  unfold ui_invariant, edit_rows_ok, selections_ok.
  rewrite Q, S1, S2, S3, E1, E2, E3.
  split; [exact W|]. split; [split; [exact N|]|]; repeat split; assumption.
Qed.

Ltac open_invariant :=
  unfold ui_invariant, well_staged, edit_rows_ok, selections_ok in *; simpl in *.

Ltac frame := repeat split; try assumption.

Lemma create_steps_invariant s :
  ui_invariant (app s) ->
  ui_invariant (app (handleAddSafeToStage s))
  /\ ui_invariant (app (handleAddCustomMember s))
  /\ ui_invariant (app (handleAddAccountToQueue s)).
Proof.
  intros ((W1 & W2 & W3 & W4 & W5) & ((N1 & N2 & N3) & R1 & R2 & R3) & (C1 & C2 & C3)).
  split; [|split].
  - unfold handleAddSafeToStage.
    destruct (str_truthy (js_trim (customSafeName (safeForm (app s))))) eqn:E1;
      simpl; [|open_invariant; frame].
    destruct (str_truthy (if is_versions (retentionMode (safeForm (app s)))
                          then versionRetention (safeForm (app s))
                          else daysRetention (safeForm (app s)))) eqn:E2;
      simpl; [|open_invariant; frame].
    open_invariant. frame.
    apply Forall_app. split; [assumption|]. constructor; [|constructor].
    split; simpl; now apply str_truthy_true.
  - unfold handleAddCustomMember.
    destruct (str_truthy (targetSafe (memberForm (app s)))) eqn:E1;
      simpl; [|open_invariant; frame].
    destruct (str_truthy (memberName (memberForm (app s)))) eqn:E2;
      simpl; [|open_invariant; frame].
    open_invariant. frame.
    apply Forall_app. split; [assumption|]. constructor; [|constructor].
    split; simpl; [now apply str_truthy_true | reflexivity].
  - unfold handleAddAccountToQueue.
    destruct (str_truthy (accObject (accountForm (app s)))) eqn:E1;
      simpl; [|open_invariant; frame].
    destruct (str_truthy (accAddress (accountForm (app s)))) eqn:E2;
      simpl; [|open_invariant; frame].
    destruct (str_truthy (accUsername (accountForm (app s)))) eqn:E3;
      simpl; [|open_invariant; frame].
    destruct (str_truthy (accPlatformId (accountForm (app s)))) eqn:E4;
      simpl; [|open_invariant; frame].
    destruct (str_truthy (accSafeName (accountForm (app s)))) eqn:E5;
      simpl; [|open_invariant; frame].
    open_invariant. frame.
    apply Forall_app. split; [assumption|]. constructor; [|constructor].
    repeat split; simpl; try (now apply str_truthy_true).
    now intros ->.
Qed.

Lemma standard_step_invariant ed ed' s s' :
  handleAddStandardMembers ed s = Some (s', ed') ->
  ui_invariant (app s) -> ui_invariant (app s').
Proof.
  intros H ((W1 & W2 & W3 & W4 & W5) & ((N1 & N2 & N3) & R1 & R2 & R3) & (C1 & C2 & C3)).
  unfold handleAddStandardMembers in H.
  destruct (str_truthy (targetSafe (memberForm (app s)))) eqn:T; simpl in H;
    [|injection H as <- _; open_invariant; frame].
  destruct (Nat.eqb (length (selectedMembers ed)) 0);
    [injection H as <- _; open_invariant; frame|].
  destruct (mapM _ _) as [entries|] eqn:M; [|discriminate].
  injection H as <- _. open_invariant. frame.
  apply Forall_app. split; [assumption|].
  apply mapM_Some_1 in M. apply str_truthy_true in T.
  induction M as [|k x ks xs Hk _ IH]; constructor; [|exact IH].
  exact (standard_entry_ok ed _ k x T Hk).
Qed.

Lemma remove_steps_invariant (i : nat) s :
  ui_invariant (app s) ->
  ui_invariant (app (removeStagedSafe i s))
  /\ ui_invariant (app (removeStagedMember i s))
  /\ ui_invariant (app (removeStagedAccount i s))
  /\ ui_invariant (app (removeStagedSafeRemoval i s))
  /\ ui_invariant (app (removeStagedMemberRemoval i s))
  /\ ui_invariant (app (removeStagedAccountRemoval i s))
  /\ ui_invariant (app (removeStagedSafeModification i s))
  /\ ui_invariant (app (removeStagedMemberModification i s))
  /\ ui_invariant (app (removeStagedAccountModification i s)).
Proof.
  intros ((W1 & W2 & W3 & W4 & W5) & ((N1 & N2 & N3) & R1 & R2 & R3) & (C1 & C2 & C3)).
  repeat split; simpl; try assumption;
    try (apply Forall_remove; assumption);
    try (apply NoDup_ids_remove; assumption);
    intros id H; apply not_in_ids_remove; auto.
Qed.

Lemma toggle_steps_invariant (id : string) s :
  ui_invariant (app s) ->
  ui_invariant (app (toggleSafeForRemoval id s))
  /\ ui_invariant (app (toggleMemberForRemoval id s))
  /\ ui_invariant (app (toggleAccountForRemoval id s)).
Proof.
  intros (W & E & (C1 & C2 & C3)).
  split; [|split].
  - unfold toggleSafeForRemoval.
    destruct (includes _ id) eqn:I;
      [exact (conj W (conj E (conj C1 (conj C2 C3))))|].
    split; [exact W|]. split; [exact E|].
    split; [|split]; try assumption. simpl.
    intros j H. rewrite is_selected_insert in H.
    destruct (decide (id = j)) as [<-|_]; [now apply includes_not_elem_of | auto].
  - unfold toggleMemberForRemoval.
    destruct (includes _ id) eqn:I;
      [exact (conj W (conj E (conj C1 (conj C2 C3))))|].
    split; [exact W|]. split; [exact E|].
    split; [|split]; try assumption. simpl.
    intros j H. rewrite is_selected_insert in H.
    destruct (decide (id = j)) as [<-|_]; [now apply includes_not_elem_of | auto].
  - unfold toggleAccountForRemoval.
    destruct (includes _ id) eqn:I;
      [exact (conj W (conj E (conj C1 (conj C2 C3))))|].
    split; [exact W|]. split; [exact E|].
    split; [|split]; try assumption. simpl.
    intros j H. rewrite is_selected_insert in H.
    destruct (decide (id = j)) as [<-|_]; [now apply includes_not_elem_of | auto].
Qed.

End InvariantSteps.

Section InvariantMoreSteps.

Context {World : Type}.
Context (api_respond : World -> ApiCall -> World * ApiResult).
Implicit Types s : Sys World.

Lemma NoDup_ids_app_fresh {A} (getid : A -> string) (staged added : list A) (i : string) :
  i ∉ map getid staged -> i ∉ map getid added -> i ∉ map getid (staged ++ added).
Proof.
  intros H1 H2. rewrite map_app. intros H. apply elem_of_app in H as [H|H]; auto.
Qed.

Lemma stage_removal_steps_invariant s :
  ui_invariant (app s) ->
  ui_invariant (app (handleStageSafeRemovals s))
  /\ ui_invariant (app (handleStageMemberRemovals s))
  /\ ui_invariant (app (handleStageAccountRemovals s)).
Proof.
  intros (W & E & (C1 & C2 & C3)).
  assert (forall i : string, is_selected ∅ i = true -> False) as Empty
    by (intros i H; rewrite is_selected_empty in H; discriminate).
  split; [|split].
  - destruct (handleStageSafeRemovals_cases s) as [(_ & _ & ->)|[(_ & _ & ->)|(_ & ->)]];
      try exact (conj W (conj E (conj C1 (conj C2 C3)))).
    split; [exact W|]. split; [exact E|].
    split; [|split]; try assumption. simpl. intros i H. now apply Empty in H.
  - destruct (handleStageMemberRemovals_cases s) as [(_ & _ & ->)|[(_ & ->)|(_ & ->)]];
      try exact (conj W (conj E (conj C1 (conj C2 C3)))).
    split; [exact W|]. split; [exact E|].
    split; [|split]; try assumption. simpl. intros i H. now apply Empty in H.
  - destruct (handleStageAccountRemovals_cases s) as [(_ & _ & ->)|[(_ & ->)|(_ & ->)]];
      try exact (conj W (conj E (conj C1 (conj C2 C3)))).
    split; [exact W|]. split; [exact E|].
    split; [|split]; try assumption. simpl. intros i H. now apply Empty in H.
Qed.

Lemma start_edit_steps_invariant s :
  ui_invariant (app s) ->
  (forall safe,
     includes (map Safe.id (stagedSafeModifications (queues (app s))))
       (Safe.id safe) = false ->
     ui_invariant (app (startEditSafe safe s)))
  /\ (forall member,
        includes (map Member.id (stagedMemberModifications (queues (app s))))
          (Member.id member) = false ->
        ui_invariant (app (startEditMember member s)))
  /\ (forall account,
        includes (map Account.id (stagedAccountModifications (queues (app s))))
          (Account.id account) = false ->
        ui_invariant (app (startEditAccount account s)))
  /\ ui_invariant (app (cancelEditSafe s))
  /\ ui_invariant (app (cancelEditMember s))
  /\ ui_invariant (app (cancelEditAccount s)).
Proof.
  intros ((W1 & W2 & W3 & W4 & W5) & ((N1 & N2 & N3) & R1 & R2 & R3) & (C1 & C2 & C3)).
  repeat split; simpl; try assumption;
    intros i Hi; try discriminate Hi;
    injection Hi as <-; now apply includes_not_elem_of.
Qed.

Lemma save_steps_invariant (id : string) s s' :
  ui_invariant (app s) ->
  (editingSafeId (safeModification (app s)) = Some id ->
   handleSaveModifiedSafe id s = Some s' -> ui_invariant (app s'))
  /\ (editingMemberId (memberModification (app s)) = Some id ->
      handleSaveModifiedMember id s = Some s' -> ui_invariant (app s'))
  /\ (editingAccountId (accountModification (app s)) = Some id ->
      handleSaveModifiedAccount id s = Some s' -> ui_invariant (app s')).
Proof.
  intros ((W1 & W2 & W3 & W4 & W5) & ((N1 & N2 & N3) & R1 & R2 & R3) & (C1 & C2 & C3)).
  split; [|split]; intros Ed H.
  - unfold handleSaveModifiedSafe in H.
    destruct (List.find _ _) as [base|] eqn:F; [|discriminate].
    pose proof (find_by_id Safe.id id _ base F) as Hid.
    rewrite (proj2 (includes_not_elem_of _ _) (R1 id Ed)) in H.
    injection H as <-.
    repeat split; simpl; try assumption; try discriminate.
    + apply Forall_app. split; [assumption|].
      constructor; [apply editedSafeOf_ok | constructor].
    + apply NoDup_ids_snoc; [assumption|]. simpl. rewrite Hid. now apply R1.
  - unfold handleSaveModifiedMember in H.
    destruct (List.find _ _) as [base|] eqn:F; [|discriminate].
    pose proof (find_by_id Member.id id _ base F) as Hid.
    rewrite (proj2 (includes_not_elem_of _ _) (R2 id Ed)) in H.
    injection H as <-.
    repeat split; simpl; try assumption; try discriminate.
    + apply Forall_app. split; [assumption|].
      constructor; [apply editedMemberOf_ok | constructor].
    + apply NoDup_ids_snoc; [assumption|]. simpl. rewrite Hid. now apply R2.
  - unfold handleSaveModifiedAccount in H.
    destruct (List.find _ _) as [base|] eqn:F; [|discriminate].
    pose proof (find_by_id Account.id id _ base F) as Hid.
    rewrite (proj2 (includes_not_elem_of _ _) (R3 id Ed)) in H.
    injection H as <-.
    repeat split; simpl; try assumption; try discriminate.
    apply NoDup_ids_snoc; [assumption|]. simpl. rewrite Hid. now apply R3.
Qed.

Lemma deploy_step_invariant s :
  ui_invariant (app s) -> ui_invariant (app (deploy api_respond s)).
Proof.
  intros (W & (N & R1 & R2 & R3) & (C1 & C2 & C3)).
  destruct (deploy_keeps_the_rest api_respond s)
    as (K1 & K2 & K3 & K4 & K5 & K6 & _).
  unfold ui_invariant, edit_rows_ok, selections_ok.
  rewrite K1, K2, K3, K4, K5, K6.
  destruct (deploy_queues api_respond s) as [-> | ->].
  - split; [exact W|]. split; [split; [exact N|]|]; repeat split; assumption.
  - simpl. repeat split; try constructor; intros i _ H; inversion H.
Qed.

Lemma ui_step_invariant s s' :
  ui_step api_respond s s' -> ui_invariant (app s) -> ui_invariant (app s').
Proof.
  intros St I. destruct St.
  - apply (create_steps_invariant s I).
  - apply (create_steps_invariant s I).
  - apply (create_steps_invariant s I).
  - eapply standard_step_invariant; eassumption.
  - apply (remove_steps_invariant i s I).
  - apply (remove_steps_invariant i s I).
  - apply (remove_steps_invariant i s I).
  - apply (remove_steps_invariant i s I).
  - apply (remove_steps_invariant i s I).
  - apply (remove_steps_invariant i s I).
  - apply (remove_steps_invariant i s I).
  - apply (remove_steps_invariant i s I).
  - apply (remove_steps_invariant i s I).
  - apply (toggle_steps_invariant id s I).
  - apply (toggle_steps_invariant id s I).
  - apply (toggle_steps_invariant id s I).
  - apply (stage_removal_steps_invariant s I).
  - apply (stage_removal_steps_invariant s I).
  - apply (stage_removal_steps_invariant s I).
  - now apply (start_edit_steps_invariant s I).
  - now apply (start_edit_steps_invariant s I).
  - now apply (start_edit_steps_invariant s I).
  - apply (start_edit_steps_invariant s I).
  - apply (start_edit_steps_invariant s I).
  - apply (start_edit_steps_invariant s I).
  - eapply (proj1 (save_steps_invariant id s s' I)); eassumption.
  - eapply (proj1 (proj2 (save_steps_invariant id s s' I))); eassumption.
  - eapply (proj2 (proj2 (save_steps_invariant id s s' I))); eassumption.
  - now apply deploy_step_invariant.
  - eapply keeps_staging_invariant; eassumption.
Qed.

Lemma ui_reachable_invariant s :
  ui_reachable api_respond s -> ui_invariant (app s).
Proof.
  induction 1 as [st w|s s' _ IH St].
  - apply boot_invariant.
  - exact (ui_step_invariant s s' St IH).
Qed.

End InvariantMoreSteps.

Section ReachableStates.

Context {World : Type}.
Context (api_respond : World -> ApiCall -> World * ApiResult).
Implicit Types s : Sys World.

(** X7.  In every state the interface can reach, no modification queue
    holds an id twice and the row being edited is not staged (its Edit
    button was enabled): saving the row being edited always appends the
    edited record, so the queue is one longer, whatever the kind. *)
Theorem saving_the_open_row_appends s (id : string) :
  ui_reachable api_respond s ->
  (NoDup (map Safe.id (stagedSafeModifications (queues (app s))))
   /\ NoDup (map Member.id (stagedMemberModifications (queues (app s))))
   /\ NoDup (map Account.id (stagedAccountModifications (queues (app s)))))
  /\ (forall s', editingSafeId (safeModification (app s)) = Some id ->
        handleSaveModifiedSafe id s = Some s' ->
        exists edited,
          Safe.id edited = id
          /\ stagedSafeModifications (queues (app s'))
             = stagedSafeModifications (queues (app s)) ++ [edited])
  /\ (forall s', editingMemberId (memberModification (app s)) = Some id ->
        handleSaveModifiedMember id s = Some s' ->
        exists edited,
          Member.id edited = id
          /\ stagedMemberModifications (queues (app s'))
             = stagedMemberModifications (queues (app s)) ++ [edited])
  /\ (forall s', editingAccountId (accountModification (app s)) = Some id ->
        handleSaveModifiedAccount id s = Some s' ->
        exists edited,
          Account.id edited = id
          /\ stagedAccountModifications (queues (app s'))
             = stagedAccountModifications (queues (app s)) ++ [edited]).
Proof.
  intros R. destruct (ui_reachable_invariant api_respond s R)
    as (_ & (N & R1 & R2 & R3) & _).
  split; [exact N|]. split; [|split]; intros s' Ed H.
  - unfold handleSaveModifiedSafe in H.
    destruct (List.find _ _) as [base|] eqn:F; [|discriminate].
    rewrite (proj2 (includes_not_elem_of _ _) (R1 id Ed)) in H.
    injection H as <-. eexists. split; [|reflexivity].
    exact (find_by_id Safe.id id _ base F).
  - unfold handleSaveModifiedMember in H.
    destruct (List.find _ _) as [base|] eqn:F; [|discriminate].
    rewrite (proj2 (includes_not_elem_of _ _) (R2 id Ed)) in H.
    injection H as <-. eexists. split; [|reflexivity].
    exact (find_by_id Member.id id _ base F).
  - unfold handleSaveModifiedAccount in H.
    destruct (List.find _ _) as [base|] eqn:F; [|discriminate].
    rewrite (proj2 (includes_not_elem_of _ _) (R3 id Ed)) in H.
    injection H as <-. eexists. split; [|reflexivity].
    exact (find_by_id Account.id id _ base F).
Qed.

Lemma nothing_selected_is_staged {A} (getid : A -> string)
    (selection : gmap string bool) (available staged : list A) :
  (forall id, is_selected selection id = true -> id ∉ map getid staged) ->
  already_staged getid staged (picked getid selection available) = []
  /\ not_yet_staged getid staged (picked getid selection available)
     = picked getid selection available.
Proof.
  intros H.
  assert (Forall (fun x => includes (map getid staged) (getid x) = false)
            (picked getid selection available)) as F.
  { apply Forall_forall. intros x Hx.
    apply list_elem_of_In, filter_In in Hx as [_ Hx].
    now apply includes_not_elem_of, H. }
  split; [now apply filter_nil_Forall|].
  apply filter_all_Forall. eapply Forall_impl; [exact F|].
  intros x Hx. simpl. now rewrite Hx.
Qed.

(** X8.  In every state the interface can reach, no selected id is in the
    removal queue of its kind: a row whose id is staged cannot be clicked,
    and staging clears the selection.  So each removal staging appends
    exactly the selected records of the mirror, and the warning of the
    member and account handlers for selections already staged is never
    reported. *)
Theorem removal_staging_appends_the_selection s :
  ui_reachable api_respond s ->
  selections_ok (app s)
  /\ stagedSafeRemovals (queues (app (handleStageSafeRemovals s)))
     = stagedSafeRemovals (queues (app s))
         ++ picked Safe.id (selectedSafesForRemoval (safeRemoval (app s)))
              (availableSafesForRemoval (safeRemoval (app s)))
  /\ stagedMemberRemovals (queues (app (handleStageMemberRemovals s)))
     = stagedMemberRemovals (queues (app s))
         ++ picked Member.id (selectedMembersForRemoval (memberRemoval (app s)))
              (availableMembersForRemoval (memberRemoval (app s)))
  /\ stagedAccountRemovals (queues (app (handleStageAccountRemovals s)))
     = stagedAccountRemovals (queues (app s))
         ++ picked Account.id (selectedAccountsForRemoval (accountRemoval (app s)))
              (availableAccountsForRemoval (accountRemoval (app s)))
  /\ Forall (fun n => type n <> warning)
       (drop (length (notes s)) (notes (handleStageMemberRemovals s)))
  /\ Forall (fun n => type n <> warning)
       (drop (length (notes s)) (notes (handleStageAccountRemovals s))).
Proof.
  intros R. destruct (ui_reachable_invariant api_respond s R)
    as (_ & _ & (C1 & C2 & C3)).
  split; [exact (conj C1 (conj C2 C3))|].
  destruct (nothing_selected_is_staged Safe.id _
              (availableSafesForRemoval (safeRemoval (app s))) _ C1) as (_ & Fs).
  destruct (nothing_selected_is_staged Member.id _
              (availableMembersForRemoval (memberRemoval (app s))) _ C2) as (Dm & _).
  destruct (nothing_selected_is_staged Account.id _
              (availableAccountsForRemoval (accountRemoval (app s))) _ C3) as (Da & _).
  assert (forall (l : list Notification) n,
            type n <> warning -> Forall (fun n => type n <> warning)
                                   (drop (length l) (l ++ [n]))) as One.
  { intros l n Hn. rewrite drop_app_length. now constructor. }
  assert (forall (l : list Notification),
            Forall (fun n => type n <> warning) (drop (length l) l)) as None.
  { intros l. rewrite drop_all. constructor. }
  split; [|split; [|split; [|split]]].
  - destruct (handleStageSafeRemovals_cases s)
      as [(_ & C & ->)|[(_ & I & ->)|(_ & ->)]]; simpl.
    + now rewrite C, app_nil_r.
    + rewrite Fs in I. now rewrite I, app_nil_r.
    + now rewrite Fs.
  - destruct (handleStageMemberRemovals_cases s)
      as [(_ & C & ->)|[(D & _)|(_ & ->)]]; simpl.
    + now rewrite C, app_nil_r.
    + now elim D.
    + reflexivity.
  - destruct (handleStageAccountRemovals_cases s)
      as [(_ & C & ->)|[(D & _)|(_ & ->)]]; simpl.
    + now rewrite C, app_nil_r.
    + now elim D.
    + reflexivity.
  - destruct (handleStageMemberRemovals_cases s)
      as [(_ & _ & ->)|[(D & _)|(_ & ->)]]; simpl.
    + now apply One.
    + now elim D.
    + apply None.
  - destruct (handleStageAccountRemovals_cases s)
      as [(_ & _ & ->)|[(D & _)|(_ & ->)]]; simpl.
    + now apply One.
    + now elim D.
    + apply None.
Qed.

End ReachableStates.

(** The first sample safe, opened for editing from a fresh start, is
    saved: the modification queue gets its one entry. *)
Lemma saving_the_open_row_of_a_sample_safe :
  ui_reachable reject_all row_of_safe1_open
  /\ exists s' edited,
       handleSaveModifiedSafe "SAFE-001" row_of_safe1_open = Some s'
       /\ Safe.id edited = "SAFE-001"
       /\ stagedSafeModifications (queues (app s')) = [edited].
Proof.
  assert (ui_reachable reject_all row_of_safe1_open) as R.
  { unfold row_of_safe1_open, fresh.
    eapply ui_reachable_step; [apply ui_reachable_boot|].
    apply ui_startEditSafe; [left; reflexivity | reflexivity]. }
  split; [exact R|].
  destruct (saving_the_open_row_appends reject_all row_of_safe1_open "SAFE-001" R)
    as (_ & H & _).
  destruct (handleSaveModifiedSafe "SAFE-001" row_of_safe1_open) as [s'|] eqn:E;
    [|discriminate E].
  destruct (H s' eq_refl eq_refl) as (edited & I & Q).
  exists s', edited. split; [reflexivity|]. split; [exact I | exact Q].
Defined.

(** A member staged for removal cannot be selected again, so a second
    staging only reports that nothing is selected. *)
Lemma staging_a_member_removal_twice :
  ui_reachable reject_all member1_staged_and_clicked
  /\ map Member.id
       (stagedMemberRemovals
          (queues (app (handleStageMemberRemovals member1_staged_and_clicked))))
     = ["MEM-001"]
  /\ Forall (fun n => type n <> warning)
       (drop (length (notes member1_staged_and_clicked))
          (notes (handleStageMemberRemovals member1_staged_and_clicked))).
Proof.
  assert (ui_reachable reject_all member1_staged_and_clicked) as R.
  { unfold member1_staged_and_clicked, fresh.
    eapply ui_reachable_step; [|apply ui_toggleMember].
    eapply ui_reachable_step; [|apply ui_stageMemberRemovals].
    eapply ui_reachable_step; [|apply ui_toggleMember].
    apply ui_reachable_boot. }
  split; [exact R|].
  destruct (removal_staging_appends_the_selection reject_all
              member1_staged_and_clicked R) as (_ & _ & M & _ & W & _).
  split; [rewrite M; reflexivity | exact W].
Defined.

Section StagedRequests.

Context {World : Type}.
Context (api_respond : World -> ApiCall -> World * ApiResult).
Implicit Types s : Sys World.

(** X9.  In every state the interface can reach, the requests of the
    staged safes and accounts are complete.  The request that creates a
    staged safe carries a non-empty retention value under exactly one of
    the two retention keys and [null] under the other.  The request that
    creates a staged account carries the object id under [id], non-empty
    address, user name, platform and safe, and [null] as the manual
    management reason when automatic management is enabled.  The request
    that updates a staged safe carries [null] under at least one of the
    two retention keys. *)
Theorem staged_requests_are_complete s :
  ui_reachable api_respond s ->
  Forall
    (fun x =>
       let c := create_safe_call x in
       exists v, v <> EmptyString
         /\ ((payload_field "numberOfVersionsRetention" c = Some (JStr v)
              /\ payload_field "numberOfDaysRetention" c = Some JNull)
             \/ (payload_field "numberOfVersionsRetention" c = Some JNull
                 /\ payload_field "numberOfDaysRetention" c = Some (JStr v))))
    (stagedSafes (queues (app s)))
  /\ Forall
       (fun x =>
          let c := create_account_call x in
          payload_field "id" c = Some (JStr (NewAccount.object x))
          /\ NewAccount.object x <> EmptyString
          /\ (forall k, In k ["address"; "userName"; "platformId"; "safeName"] ->
                exists v, v <> EmptyString /\ payload_field k c = Some (JStr v))
          /\ (payload_field "automaticManagementEnabled" c = Some (JBool true) ->
              payload_field "manualManagementReason" c = Some JNull))
       (stagedAccounts (queues (app s)))
  /\ Forall
       (fun x =>
          let c := update_safe_call x in
          payload_field "numberOfVersionsRetention" c = Some JNull
          \/ payload_field "numberOfDaysRetention" c = Some JNull)
       (stagedSafeModifications (queues (app s))).
Proof.
  intros R. destruct (ui_reachable_invariant api_respond s R)
    as ((W1 & _ & W3 & W4 & _) & _ & _).
  split; [|split].
  - eapply Forall_impl; [exact W1|]. intros x (_ & V). simpl.
    exists (NewSafe.retentionValue x). split; [exact V|].
    unfold payload_field, create_safe_call; simpl.
    destruct (NewSafe.retentionValue x) as [|c r] eqn:E; [now elim V|].
    destruct (NewSafe.retentionMode x); simpl; [left|right]; split; reflexivity.
  - eapply Forall_impl; [exact W3|].
    intros x (O & A & U & P & S & M). simpl.
    unfold payload_field, create_account_call; simpl.
    destruct (NewAccount.object x) as [|c r] eqn:E; [now elim O|]. simpl.
    split; [reflexivity|]. split; [discriminate|]. split.
    + intros k [<-|[<-|[<-|[<-|[]]]]]; eexists; (split; [|reflexivity]);
        assumption.
    + intros H. injection H as H. rewrite (M H). reflexivity.
  - eapply Forall_impl; [exact W4|]. intros x [H|H]; simpl;
      unfold payload_field, update_safe_call; simpl; rewrite H; auto.
Qed.


End StagedRequests.

(** X11.  The request that updates an account carries the address and
    nothing else: the entry of the modification queue has the fields of a
    mirrored account ([username], [platform]), which the deploy never
    reads.  So an edit of the user name or of the platform changes
    nothing of the request sent. *)
Theorem account_update_sends_only_the_address
    (base : Account.t) (ed ed' : EditedAccountData) (vault : string) (token : json) :
  api_payload (update_account_call (editedAccountOf base ed))
  = Some [("address",
           JStr (match ed_address ed with
                 | Some a => a
                 | None => Account.address base
                 end))]
  /\ (ed_address ed' = ed_address ed ->
      api_request vault token (update_account_call (editedAccountOf base ed'))
      = api_request vault token (update_account_call (editedAccountOf base ed))).
Proof.
  split; [reflexivity|].
  intros H. unfold api_request, update_account_call, editedAccountOf; simpl.
  now rewrite H.
Qed.

(** The requests of the account staged from the filled account form. *)
Lemma requests_of_a_staged_account :
  ui_reachable reject_all (handleAddAccountToQueue account_form_filled)
  /\ Forall
       (fun x =>
          payload_field "id" (create_account_call x)
          = Some (JStr (NewAccount.object x))
          /\ NewAccount.object x <> EmptyString)
       (stagedAccounts (queues (app (handleAddAccountToQueue account_form_filled)))).
Proof.
  assert (ui_reachable reject_all (handleAddAccountToQueue account_form_filled))
    as R.
  { eapply ui_reachable_step; [|apply ui_addAccount].
    eapply ui_reachable_step; [apply (ui_reachable_boot _ ∅ 0%nat)|].
    apply ui_other. repeat split. }
  split; [exact R|].
  destruct (staged_requests_are_complete reject_all _ R) as (_ & A & _).
  eapply Forall_impl; [exact A|]. intros x (I & O & _). split; assumption.
Defined.


Section DeployReport.

Context {World : Type}.
Context (api_respond : World -> ApiCall -> World * ApiResult).
Implicit Types s : Sys World.

Lemma vault_answers_app (w : World) (a b : list ApiCall) :
  vault_answers api_respond w (a ++ b)
  = vault_answers api_respond w a
      ++ vault_answers api_respond (vault_after api_respond w a) b.
Proof.
  revert w. induction a as [|c a IH]; intros w; simpl; [reflexivity|].
  destruct (api_respond w c) as [w' r]. simpl. now rewrite IH.
Qed.

Lemma vault_after_app (w : World) (a b : list ApiCall) :
  vault_after api_respond w (a ++ b)
  = vault_after api_respond (vault_after api_respond w a) b.
Proof.
  revert w. induction a as [|c a IH]; intros w; simpl; [reflexivity|].
  apply IH.
Qed.

Lemma length_vault_answers (w : World) (plan : list ApiCall) :
  length (vault_answers api_respond w plan) = length plan.
Proof.
  revert w. induction plan as [|c plan IH]; intros w; simpl; [reflexivity|].
  destruct (api_respond w c) as [w' r]. simpl. now rewrite IH.
Qed.

Lemma reported_refl s : reported api_respond [] [] [] s s.
Proof. split; simpl; [now rewrite app_nil_r | reflexivity]. Qed.

Lemma reported_notify_first msg ty s s1 :
  reported api_respond [] [] [] s s1 ->
  reported api_respond [ty] [] [] s (showNotification msg ty s1).
Proof.
  intros (N & W). simpl in N. rewrite app_nil_r in N.
  split; simpl; [|exact W]. now rewrite map_app, N.
Qed.

Lemma reported_call before made starting call succeeded failed s s1 :
  reported api_respond before made [] s s1 ->
  reported api_respond before (made ++ [call]) [] s
    (try_call api_respond starting call succeeded failed s1).
Proof.
  intros (N & W). rewrite app_nil_r in N.
  unfold reported, try_call. simpl.
  rewrite vault_answers_app, vault_after_app, <- W. simpl.
  destruct (api_respond (world s1) call) as [w [b|reason]]; simpl;
    (split; [|reflexivity]);
    rewrite !map_app, N, flat_map_app; simpl;
    rewrite <- !app_assoc; reflexivity.
Qed.

Lemma reported_loop {X} (starting : X -> string) (call : X -> ApiCall)
    (succeeded : X -> string) (failed : X -> string -> string)
    (items : list X) before made s s1 :
  reported api_respond before made [] s s1 ->
  reported api_respond before (made ++ map call items) [] s
    (fold_left
       (fun s x => try_call api_respond (starting x) (call x) (succeeded x)
                     (failed x) s) items s1).
Proof.
  revert made s1. induction items as [|x items IH]; intros made s1 H; simpl.
  - now rewrite app_nil_r.
  - replace (made ++ call x :: map call items)
      with ((made ++ [call x]) ++ map call items)
      by now rewrite <- app_assoc.
    apply IH. now apply reported_call.
Qed.

Lemma reported_notify_last msg ty before made s s1 :
  reported api_respond before made [] s s1 ->
  reported api_respond before made [ty] s (showNotification msg ty s1).
Proof.
  intros (N & W). rewrite app_nil_r in N.
  split; simpl; [|exact W]. now rewrite map_app, N, <- !app_assoc.
Qed.

(** X12.  A deploy with at least one staged item reports every item: one
    notification that it starts, then for each call of the plan, in
    order, the notification that the item is being processed and the
    notification of its outcome, a success when the vault accepted the
    call and an error when it rejected it, and at the end the
    notification that the deployment completed, a success whatever the
    outcomes were.  So it adds two notifications per staged item and two
    more, and it leaves the vault as the calls of the plan leave it. *)
Theorem deploy_reports_every_item s :
  (0 < totalItems (queues (app s)))%nat ->
  let s' := deploy api_respond s in
  let answers := vault_answers api_respond (world s) (deploy_plan (queues (app s))) in
  map type (notes s')
  = map type (notes s) ++ [info] ++ flat_map item_report answers ++ [success]
  /\ length answers = totalItems (queues (app s))
  /\ length (notes s')
     = (length (notes s) + 2 * totalItems (queues (app s)) + 2)%nat
  /\ world s' = vault_after api_respond (world s) (deploy_plan (queues (app s))).
Proof.
  intros Hpos s' answers.
  assert (Nat.eqb (totalItems (queues (app s))) 0 = false) as E
    by (apply Nat.eqb_neq; lia).
  assert (reported api_respond [info] (deploy_plan (queues (app s))) [success]
            s s') as (N & W).
  { subst s'. unfold deploy. rewrite E.
    match goal with
    | |- reported _ _ _ _ _ (update_queues _ ?x) =>
        change (reported api_respond [info] (deploy_plan (queues (app s)))
                  [success] s x)
    end.
    unfold deploy_plan. rewrite !app_assoc.
    rewrite <- (app_nil_l (map create_safe_call _)).
    apply reported_notify_last.
    apply reported_loop, reported_loop, reported_loop.
    apply reported_loop, reported_loop, reported_loop.
    apply reported_loop, reported_loop, reported_loop.
    apply reported_notify_first, reported_refl. }
  assert (length answers = totalItems (queues (app s))) as L.
  { subst answers. now rewrite length_vault_answers, length_deploy_plan. }
  split; [exact N|]. split; [exact L|]. split; [|exact W].
  rewrite <- (length_map type (notes s')), N.
  rewrite !length_app, length_map. simpl.
  assert (forall l, length (flat_map item_report l) = (2 * length l)%nat) as F.
  { induction l as [|r l IH]; simpl; [reflexivity|]. rewrite IH. lia. }
  rewrite F. fold answers. rewrite L. lia.
Qed.

End DeployReport.

(** Three items deployed against a vault that rejects every second call. *)
Lemma deploy_report_of_three_items :
  (0 < totalItems (queues (app three_staged)))%nat
  /\ map type (notes (deploy reject_every_second three_staged))
     = [info; info; success; info; error; info; success; success].
Proof.
  assert (0 < totalItems (queues (app three_staged)))%nat as H
    by (vm_compute; lia).
  split; [exact H|].
  exact (proj1 (deploy_reports_every_item reject_every_second three_staged H)).
Defined.

Section Session.

Context {World : Type}.
Context (login_respond : World -> string -> string -> string -> World * LoginResult).
Context (setItem_throws : World -> string -> string -> option string).
Implicit Types s : Sys World.



(** X15.  Logging out ends the session on the client only: the flag is
    cleared, token, URL and user name are emptied, token and URL are
    removed from the client storage, so that a reload starts without a
    token; no request is sent to the vault, and whatever is staged stays
    staged. *)
Theorem logout_ends_the_session_and_keeps_the_queues s :
  let s' := logout s in
  isLoggedIn (auth (app s')) = false
  /\ authToken (auth (app s')) = JStr EmptyString
  /\ vaultUrl (auth (app s')) = EmptyString
  /\ username (auth (app s')) = EmptyString
  /\ storage s' !! "cyberark_token" = None
  /\ storage s' !! "cyberark_url" = None
  /\ (forall k, k <> "cyberark_token" -> k <> "cyberark_url" ->
        storage s' !! k = storage s !! k)
  /\ (forall w : World, authToken (auth (app (boot (storage s') w))) = JStr EmptyString)
  /\ calls s' = calls s
  /\ world s' = world s
  /\ queues (app s') = queues (app s).
Proof.
  simpl. repeat split.
  - rewrite lookup_delete_ne by discriminate. apply lookup_delete_eq.
  - apply lookup_delete_eq.
  - intros k H1 H2. now rewrite !lookup_delete_ne by congruence.
  - intros _. unfold initial_auth.
    rewrite lookup_delete_ne by discriminate. now rewrite lookup_delete_eq.
Qed.

End Session.


(** ** The editor of the standard members *)

Lemma assoc_get_replace {A} (o : list (string * A)) (k k' : string) (v : A) :
  assoc_get k'
    (map (fun kv => if String.eqb (fst kv) k then (fst kv, v) else kv) o)
  = match assoc_get k' o with
    | Some w => if String.eqb k' k then Some v else Some w
    | None => None
    end.
Proof.
  induction o as [|[j w] o IH]; simpl; [reflexivity|].
  destruct (String.eqb_spec j k) as [->|J]; simpl.
  - destruct (String.eqb_spec k' k) as [->|K]; [reflexivity | exact IH].
  - destruct (String.eqb_spec k' j) as [->|K]; [|exact IH].
    destruct (String.eqb_spec j k); [congruence | reflexivity].
Qed.

Lemma assoc_get_insert_index {A} (n : N) (o : list (string * A)) (k k' : string)
    (v : A) :
  assoc_get k o = None ->
  assoc_get k' (insert_index n k v o)
  = if String.eqb k' k then Some v else assoc_get k' o.
Proof.
  induction o as [|[j w] o IH]; simpl; [reflexivity|].
  destruct (String.eqb_spec k j) as [->|J]; [discriminate|]. intros E.
  destruct (array_index j) as [m|]; [destruct (m <? n)%N|]; simpl;
    try reflexivity.
  rewrite (IH E). destruct (String.eqb_spec k' j) as [->|]; [|reflexivity].
  destruct (String.eqb_spec j k); [congruence | reflexivity].
Qed.

Lemma assoc_get_snoc {A} (o : list (string * A)) (k k' : string) (v : A) :
  assoc_get k o = None ->
  assoc_get k' (o ++ [(k, v)])
  = if String.eqb k' k then Some v else assoc_get k' o.
Proof.
  induction o as [|[j w] o IH]; simpl; [reflexivity|].
  destruct (String.eqb_spec k j) as [->|J]; [discriminate|]. intros E.
  rewrite (IH E). destruct (String.eqb_spec k' j) as [->|]; [|reflexivity].
  destruct (String.eqb_spec j k); [congruence | reflexivity].
Qed.

Lemma assoc_get_set_key {A} (o : list (string * A)) (k k' : string) (v : A) :
  assoc_get k' (set_key o k v)
  = if String.eqb k' k then Some v else assoc_get k' o.
Proof.
  unfold set_key. destruct (assoc_get k o) as [w|] eqn:E.
  - rewrite assoc_get_replace.
    destruct (String.eqb_spec k' k) as [->|K]; [now rewrite E|].
    now destruct (assoc_get k' o).
  - destruct (array_index k) as [n|];
      [now apply assoc_get_insert_index | now apply assoc_get_snoc].
Qed.

Lemma assoc_get_delete_key {A} (o : list (string * A)) (k k' : string) :
  assoc_get k' (delete_key o k)
  = if String.eqb k' k then None else assoc_get k' o.
Proof.
  induction o as [|[j w] o IH]; simpl.
  - now destruct (String.eqb k' k).
  - destruct (String.eqb_spec j k) as [->|J]; simpl.
    + rewrite IH. destruct (String.eqb_spec k' k); reflexivity.
    + rewrite IH. destruct (String.eqb_spec k' j) as [->|]; [|reflexivity].
      now destruct (String.eqb_spec j k).
Qed.

Lemma managed_member_name (ed : MemberEditor) (key : string) (m : StandardMember.t) :
  managed_member ed key = Some m -> StandardMember.member m = key.
Proof.
  intros H. apply find_some in H as [_ H]. now apply String.eqb_eq.
Qed.

Lemma managed_member_of_a_row (ed : MemberEditor) (m : StandardMember.t) :
  In m (managedStandardMembers ed) ->
  exists m0, managed_member ed (StandardMember.member m) = Some m0.
Proof.
  intros H. unfold managed_member.
  destruct (List.find _ _) as [m0|] eqn:F; [now exists m0|].
  apply (find_none _ _ F) in H. now rewrite String.eqb_refl in H.
Qed.

Lemma find_app_one {A} (f : A -> bool) (l : list A) (x y : A) :
  List.find f l = Some y -> List.find f (l ++ [x]) = Some y.
Proof.
  induction l as [|z l IH]; simpl; [discriminate|].
  destruct (f z); [trivial | exact IH].
Qed.

Lemma find_map_update {A} (name : A -> string) (upd : A -> A) (j k : string)
    (l : list A) :
  (forall x, name (upd x) = name x) ->
  List.find (fun x => String.eqb (name x) k)
    (map (fun x => if String.eqb (name x) j then upd x else x) l)
  = option_map (fun x => if String.eqb (name x) j then upd x else x)
      (List.find (fun x => String.eqb (name x) k) l).
Proof.
  intros U. induction l as [|x l IH]; simpl; [reflexivity|].
  assert (name (if String.eqb (name x) j then upd x else x) = name x) as ->
    by (destruct (String.eqb (name x) j); [apply U | reflexivity]).
  destruct (String.eqb (name x) k); [reflexivity | exact IH].
Qed.

Lemma find_filter_other {A} (name : A -> string) (j k : string) (l : list A) :
  k <> j ->
  List.find (fun x => String.eqb (name x) k)
    (List.filter (fun x => negb (String.eqb (name x) j)) l)
  = List.find (fun x => String.eqb (name x) k) l.
Proof.
  intros H. induction l as [|x l IH]; simpl; [reflexivity|].
  destruct (String.eqb_spec (name x) j) as [E|E]; simpl.
  - destruct (String.eqb_spec (name x) k) as [E'|_]; [congruence | exact IH].
  - destruct (String.eqb (name x) k); [reflexivity | exact IH].
Qed.

Lemma initial_editor_ok : editor_ok initial_editor.
Proof.
  split; simpl.
  - intros key [x H]. discriminate.
  - intros key p H. discriminate.
Qed.

Lemma toggle_ok (m : StandardMember.t) (ed ed' : MemberEditor) :
  In m (managedStandardMembers ed) ->
  toggleStandardMember (StandardMember.member m) ed = Some ed' ->
  editor_ok ed -> editor_ok ed'.
Proof.
  unfold toggleStandardMember, read_truthy. intros M H (A & B).
  destruct (managed_member_of_a_row ed m M) as (m0 & F).
  destruct (assoc_get (StandardMember.member m) (standardMembersPermissions ed))
    as [p|] eqn:O.
  - injection H as <-. split; simpl; [|exact B].
    intros key. rewrite assoc_get_set_key.
    destruct (String.eqb_spec key (StandardMember.member m)) as [->|_];
      [|apply A].
    intros _. split; [exists m0; exact F | left; now rewrite O].
  - destruct (inherited (StandardMember.member m)) eqn:I.
    + injection H as <-. split; simpl; [|exact B].
      intros key. rewrite assoc_get_set_key.
      destruct (String.eqb_spec key (StandardMember.member m)) as [->|_];
        [|apply A].
      intros _. split; [exists m0; exact F | now right].
    + fold (managed_member ed (StandardMember.member m)) in H.
      rewrite F in H. injection H as <-. split; simpl.
      * intros key. rewrite !assoc_get_set_key.
        destruct (String.eqb_spec key (StandardMember.member m)) as [->|_].
        -- intros _. split; [exists m0; exact F | left; eauto].
        -- apply A.
      * intros key p. rewrite assoc_get_set_key.
        destruct (String.eqb_spec key (StandardMember.member m)) as [->|_].
        -- intros H. injection H as <-. exists m0. split; [exact F | reflexivity].
        -- apply B.
Qed.

Lemma permissionChanged_ok (m : StandardMember.t) (perm : string) (checked : bool)
    (ed : MemberEditor) :
  In m (managedStandardMembers ed) ->
  editor_ok ed ->
  editor_ok (permissionChanged (StandardMember.member m) perm checked ed).
Proof.
  intros M (A & B).
  assert (forall key,
            managed_member
              (permissionChanged (StandardMember.member m) perm checked ed) key
            = option_map
                (fun x =>
                   if String.eqb (StandardMember.member x) (StandardMember.member m)
                   then {| StandardMember.member := StandardMember.member x;
                           StandardMember.domain := StandardMember.domain x;
                           StandardMember.perms :=
                             setPermission
                               match assoc_get (StandardMember.member m)
                                       (standardMembersPermissions ed) with
                               | Some p => p
                               | None => []
                               end perm checked;
                           StandardMember.role :=
                             detectRoleFromPermissions
                               (setPermission
                                  match assoc_get (StandardMember.member m)
                                          (standardMembersPermissions ed) with
                                  | Some p => p
                                  | None => []
                                  end perm checked) |}
                   else x)
                (managed_member ed key)) as MM.
  { intros key. unfold managed_member. simpl.
    now rewrite (find_map_update StandardMember.member) by reflexivity. }
  split; simpl.
  - intros key H. rewrite MM, assoc_get_set_key.
    destruct (A key H) as ([m0 F] & O). split.
    + rewrite F. simpl. eauto.
    + destruct (String.eqb key (StandardMember.member m)); [left; eauto | exact O].
  - intros key p. rewrite assoc_get_set_key, MM.
    destruct (String.eqb_spec key (StandardMember.member m)) as [->|K].
    + intros H. injection H as <-.
      destruct (managed_member_of_a_row ed m M) as (m0 & F). rewrite F. simpl.
      rewrite (managed_member_name ed _ m0 F), String.eqb_refl.
      eexists. split; reflexivity.
    + intros H. destruct (B key p H) as (m0 & F & P). rewrite F. simpl.
      rewrite (managed_member_name ed _ m0 F).
      destruct (String.eqb_spec key (StandardMember.member m)); [congruence|].
      exists m0. split; [reflexivity | exact P].
Qed.

Lemma removeStandardMember_ok (name : string) (ed : MemberEditor) :
  editor_ok ed -> editor_ok (removeStandardMember name ed).
Proof.
  intros (A & B).
  assert (forall key, key <> name ->
            managed_member (removeStandardMember name ed) key
            = managed_member ed key) as MM.
  { intros key K. unfold managed_member. simpl.
    now rewrite (find_filter_other StandardMember.member). }
  split; simpl.
  - intros key. rewrite !assoc_get_delete_key.
    destruct (String.eqb_spec key name) as [->|K]; [intros [x H]; discriminate|].
    intros H. rewrite (MM key K). exact (A key H).
  - intros key p. rewrite assoc_get_delete_key.
    destruct (String.eqb_spec key name) as [->|K]; [discriminate|].
    intros H. rewrite (MM key K). exact (B key p H).
Qed.

Lemma addNewStandardMember_ok (form form' : NewMemberForm) (ed ed' : MemberEditor) :
  addNewStandardMember form ed = Some (ed', form') ->
  editor_ok ed -> editor_ok ed'.
Proof.
  unfold addNewStandardMember. intros H (A & B).
  destruct (negb (str_truthy (js_trim (nm_member form)))); [discriminate|].
  injection H as <- <-.
  assert (forall key m0, managed_member ed key = Some m0 ->
            List.find (fun m => String.eqb (StandardMember.member m) key)
              (managedStandardMembers ed
                 ++ [ {| StandardMember.member := nm_member form;
                         StandardMember.domain := nm_domain form;
                         StandardMember.perms := nm_perms form;
                         StandardMember.role :=
                           detectRoleFromPermissions (nm_perms form) |} ])
            = Some m0) as MM
    by (intros key m0 F; now apply find_app_one).
  split; simpl.
  - intros key H. destruct (A key H) as ([m0 F] & O). split; [|exact O].
    unfold managed_member. simpl. rewrite (MM key m0 F). eauto.
  - intros key p H. destruct (B key p H) as (m0 & F & P). exists m0.
    split; [exact (MM key m0 F) | exact P].
Qed.

Section EditorInvariant.

Context {World : Type}.
Implicit Types s : Sys World.

Lemma handleAddStandardMembers_ok (ed ed' : MemberEditor) s s' :
  handleAddStandardMembers ed s = Some (s', ed') ->
  editor_ok ed -> editor_ok ed'.
Proof.
  unfold handleAddStandardMembers. intros H I.
  destruct (negb (str_truthy (targetSafe (memberForm (app s)))));
    [injection H as <- <-; exact I|].
  destruct (Nat.eqb (length (selectedMembers ed)) 0);
    [injection H as <- <-; exact I|].
  destruct (mapM _ _); [|discriminate]. injection H as <- <-.
  split; simpl.
  - intros key [x H]. discriminate.
  - intros key p H. discriminate.
Qed.

Lemma editor_reachable_ok (ed : MemberEditor) :
  editor_reachable (World := World) ed -> editor_ok ed.
Proof.
  induction 1 as [|ed ed' _ IH St]; [apply initial_editor_ok|].
  destruct St as [m ed ed' M T|m perm checked ed M S|form ed ed' form' H
                 |m ed M|ed ed' s s' H].
  - exact (toggle_ok m ed ed' M T IH).
  - exact (permissionChanged_ok m perm checked ed M IH).
  - exact (addNewStandardMember_ok form form' ed ed' H IH).
  - now apply removeStandardMember_ok.
  - exact (handleAddStandardMembers_ok ed ed' s s' H IH).
Qed.

Lemma selectedMembers_selected (ed : MemberEditor) (key : string) :
  In key (selectedMembers ed) ->
  assoc_get key (standardMembersSelection ed) = Some true.
Proof.
  unfold selectedMembers. intros H. apply filter_In in H as [_ H].
  destruct (assoc_get key (standardMembersSelection ed)) as [[]|];
    [reflexivity | discriminate | discriminate].
Qed.

Lemma standard_entry_of_a_selected_member (ed : MemberEditor) (target key : string) :
  editor_ok ed -> In key (selectedMembers ed) ->
  exists m, managed_member ed key = Some m
            /\ standard_entry ed target key = Some (entry_of ed target m).
Proof.
  intros (A & B) H. apply selectedMembers_selected in H.
  destruct (A key) as ([m F] & O); [now rewrite H|].
  exists m. split; [exact F|].
  unfold standard_entry. fold (managed_member ed key). rewrite F.
  unfold entry_of, entry_with, shadowed.
  rewrite (managed_member_name ed key m F).
  destruct (assoc_get key (standardMembersPermissions ed)) as [p|] eqn:P.
  - destruct (B key p P) as (m' & F' & Q). rewrite F in F'. injection F' as <-.
    rewrite bool_decide_eq_true_2 by eauto. rewrite andb_false_r. now rewrite Q.
  - rewrite bool_decide_eq_false_2 by (intros [x X]; discriminate).
    rewrite andb_true_r. now destruct (inherited key).
Qed.

Lemma mapM_standard_entries (ed : MemberEditor) (target : string)
    (keys : list string) :
  editor_ok ed -> (forall key, In key keys -> In key (selectedMembers ed)) ->
  exists members,
    Forall2 (fun key m => managed_member ed key = Some m) keys members
    /\ mapM (standard_entry ed target) keys
       = Some (map (entry_of ed target) members).
Proof.
  intros I. induction keys as [|key keys IH]; intros H.
  - exists []. split; [constructor | reflexivity].
  - destruct (standard_entry_of_a_selected_member ed target key I)
      as (m & F & E); [apply H; now left|].
    destruct IH as (members & F2 & M); [intros k Hk; apply H; now right|].
    exists (m :: members). split; [now constructor|].
    simpl. rewrite E. simpl. rewrite M. reflexivity.
Qed.

(** X16.  In every state the editor of the standard members can reach,
    staging the selected standard members never fails on a member that is
    not managed.  Without a target safe, or without a selected member, it
    reports an error and changes nothing.  Otherwise it appends to the
    member creation queue one entry per selected member, in the order in
    which the selection enumerates its keys, each for the target safe,
    with the name and the domain of the managed member and with the role
    detected from the permissions staged.  The permissions staged are
    those the managed member has at that time; the one exception is a
    member whose name is a property of [Object.prototype] and whose
    permissions were never edited: it is staged with the empty permission
    object.  The staging clears the selection and the edited permissions,
    keeps the managed members, and reports nothing. *)
Theorem standard_members_are_staged_as_managed (ed : MemberEditor) s :
  editor_reachable (World := World) ed ->
  exists s' ed',
    handleAddStandardMembers ed s = Some (s', ed')
    /\ (targetSafe (memberForm (app s)) = EmptyString \/ selectedMembers ed = [] ->
        ed' = ed
        /\ queues (app s') = queues (app s)
        /\ exists msg, notes s' = notes s ++ [ {| message := msg; type := error |} ])
    /\ (targetSafe (memberForm (app s)) <> EmptyString ->
        selectedMembers ed <> [] ->
        exists members,
          Forall2 (fun key m => managed_member ed key = Some m)
            (selectedMembers ed) members
          /\ stagedMembers (queues (app s'))
             = stagedMembers (queues (app s))
                 ++ map (entry_of ed (targetSafe (memberForm (app s)))) members
          /\ managedStandardMembers ed' = managedStandardMembers ed
          /\ standardMembersSelection ed' = []
          /\ standardMembersPermissions ed' = []
          /\ notes s' = notes s).
Proof.
  intros R. apply editor_reachable_ok in R.
  unfold handleAddStandardMembers.
  destruct (targetSafe (memberForm (app s))) as [|c t] eqn:T; simpl.
  { eexists _, _. split; [reflexivity|]. split; [|intros H; now elim H].
    intros _. repeat split. eexists. reflexivity. }
  destruct (selectedMembers ed) as [|key keys] eqn:S; simpl.
  { eexists _, _. split; [reflexivity|]. split; [|intros _ H; now elim H].
    intros _. repeat split. eexists. reflexivity. }
  destruct (mapM_standard_entries ed (String c t) (key :: keys) R)
    as (members & F2 & M); [now rewrite S|].
  simpl in M. rewrite M.
  eexists _, _. split; [reflexivity|]. split.
  - intros [H|H]; discriminate.
  - intros _ _. exists members. split; [exact F2|]. repeat split.
Qed.

End EditorInvariant.

(** The permission to list accounts of the template SM-APP, unchecked and
    checked again. *)
Lemma unchecking_and_checking_a_permission :
  assoc_get "ListAccounts" PERM_SM_APP = Some true
  /\ setPermission sm_app_without_list "ListAccounts" true = PERM_SM_APP
  /\ detectRoleFromPermissions (setPermission sm_app_without_list "ListAccounts" true)
     = detectRoleFromPermissions PERM_SM_APP.
Proof.
  split; [reflexivity|].
  exact (setPermission_back_restores_the_role PERM_SM_APP "ListAccounts" true false
           eq_refl).
Defined.

Lemma then_add_reachable (name : string) (ed : option MemberEditor) :
  reachable_editor ed -> reachable_editor (then_add name ed).
Proof.
  destruct ed as [e|]; simpl; [|trivial]. intros R.
  destruct (addNewStandardMember (new_member name) e) as [[e' f]|] eqn:E;
    simpl; [|trivial].
  exact (editor_reachable_step e e' R (editor_add _ e e' f E)).
Qed.

Lemma then_toggle_reachable (name : string) (ed : option MemberEditor) :
  reachable_editor ed -> reachable_editor (then_toggle name ed).
Proof.
  destruct ed as [e|]; simpl; [|trivial]. intros R.
  destruct (managed_member e name) as [m|] eqn:F; [|exact I].
  destruct (toggleStandardMember name e) as [e'|] eqn:E; simpl; [|trivial].
  pose proof (managed_member_name e name m F) as N. subst name.
  apply (editor_reachable_step e e' R).
  apply (editor_toggle m e e'); [|exact E].
  unfold managed_member in F. now apply find_some in F.
Qed.

(** Members named 9, 10 and constructor, checked after the safe holders,
    are staged for the target safe of the filled member form: the array
    indices come first, in ascending order, and the member named
    constructor, checked twice and never edited, is staged with the empty
    permission object. *)
Lemma staging_members_with_odd_names :
  exists ed,
    odd_names_selected = Some ed
    /\ editor_reachable (World := nat) ed
    /\ selectedMembers ed = ["9"; "10"; "G_SAFE_HOLDERS_GLOBAL"; "constructor"]
    /\ exists s' ed',
         handleAddStandardMembers ed member_form_filled = Some (s', ed')
         /\ standardMembersSelection ed' = []
         /\ map (fun e => (NewMember.member e, NewMember.roleLabel e))
              (stagedMembers (queues (app s')))
            = [ ("9", "SM-APP"); ("10", "SM-APP");
                ("G_SAFE_HOLDERS_GLOBAL", "SM-HOLDER"); ("constructor", "Custom") ].
Proof.
  assert (reachable_editor odd_names_selected) as R.
  { unfold odd_names_selected.
    do 5 apply then_toggle_reachable. do 3 apply then_add_reachable.
    apply editor_reachable_start. }
  destruct odd_names_selected as [ed|] eqn:E; [|vm_compute in E; discriminate E].
  exists ed. split; [reflexivity|]. split; [exact R|].
  destruct (standard_members_are_staged_as_managed ed member_form_filled R)
    as (s' & ed' & H & _ & S).
  destruct S as (members & _ & _ & _ & S & _);
    [vm_compute in E; injection E as <-; vm_compute; discriminate
    |vm_compute in E; injection E as <-; vm_compute; discriminate|].
  vm_compute in E. injection E as <-.
  split; [vm_compute; reflexivity|].
  exists s', ed'. split; [exact H|]. split; [exact S|].
  vm_compute in H. injection H as <- _. vm_compute. reflexivity.
Defined.
